(** * AutoLogViz: the log parser and the anomaly detector

    A shallow embedding of [log_parser.py] (class [LogParser]) and of
    [anomaly_detector.py] (class [AnomalyDetector]), with the properties the
    specification states about them.

    Conventions of the embedding.
    - Text is a [string] whose characters are the code points U+0000..U+00FF;
      the character classes ([str.isspace], [\s], [\w], [\d], [str.isdigit])
      are Python's tables on that range.
    - A Python [dict] is an association list in insertion order; a pandas
      table is the list of its rows, a null cell is [None].
    - numpy's float scores, frequencies and weights are exact rationals ([Q]).
    - A timestamp is an instant, in seconds since the epoch, and the
      timestamps of one table lie on one time line.  The platform has a
      64-bit [time_t], and its local offset from UTC is a parameter.
    - Library code that the repository only calls ([datetime.strptime],
      [pd.to_datetime], the isolation forest, TF-IDF with DBSCAN,
      [np.argsort]) is a field of a class that the functions using it take
      as a parameter; the results hold for every instance. *)

From Stdlib Require Import String Ascii List Bool Arith NArith ZArith QArith Qround.
From Stdlib Require Import DecimalString Lia Lqa Permutation Sorted.
Import ListNotations.

Local Open Scope string_scope.
Local Open Scope list_scope.
Local Open Scope nat_scope.

(** ** Python's text primitives *)

Module Text.

Definition code (c : ascii) : N := N_of_ascii c.

Definition between (lo hi : N) (c : ascii) : bool :=
  ((lo <=? code c) && (code c <=? hi))%N.

Definition is_code (n : N) (c : ascii) : bool := (code c =? n)%N.

(** [str.isspace] of one character, which is also the class [\s]. *)
Definition isspace (c : ascii) : bool :=
  between 9 13 c || between 28 32 c || is_code 133 c || is_code 160 c.

(** The class [\d]. *)
Definition isdecimal (c : ascii) : bool := between 48 57 c.

(** [str.isdigit] of one character: the decimal digits and the superscripts
    U+00B2, U+00B3, U+00B9. *)
Definition isdigit_char (c : ascii) : bool :=
  isdecimal c || is_code 178 c || is_code 179 c || is_code 185 c.

(** The class [\w]: alphanumeric or underscore. *)
Definition isword (c : ascii) : bool :=
  isdecimal c || between 65 90 c || is_code 95 c || between 97 122 c
  || is_code 170 c || is_code 178 c || is_code 179 c || is_code 181 c
  || is_code 185 c || is_code 186 c || between 188 190 c
  || between 192 214 c || between 216 246 c || between 248 255 c.

Definition newline : ascii := ascii_of_N 10.

Definition is_newline (c : ascii) : bool := is_code 10 c.

Definition lower_char (c : ascii) : ascii :=
  if between 65 90 c || between 192 214 c || between 216 222 c
  then ascii_of_N (code c + 32) else c.

(** [str.upper] of one character.  U+00DF gives two letters; the upper-case
    forms of U+00B5 and U+00FF lie outside the modelled range, and the two
    are left as they are. *)
Definition upper_char (c : ascii) : string :=
  if between 97 122 c || between 224 246 c || between 248 254 c
  then String (ascii_of_N (code c - 32)) ""
  else if is_code 223 c then "SS" else String c "".

Fixpoint upper (s : string) : string :=
  match s with
  | "" => ""
  | String c s' => upper_char c ++ upper s'
  end.

Fixpoint lower (s : string) : string :=
  match s with
  | "" => ""
  | String c s' => String (lower_char c) (lower s')
  end.

Fixpoint all_space (s : string) : bool :=
  match s with
  | "" => true
  | String c s' => isspace c && all_space s'
  end.

Fixpoint lstrip (s : string) : string :=
  match s with
  | "" => ""
  | String c s' => if isspace c then lstrip s' else s
  end.

Fixpoint rstrip (s : string) : string :=
  match s with
  | "" => ""
  | String c s' =>
      match rstrip s' with
      | "" => if isspace c then "" else String c ""
      | r => String c r
      end
  end.

(** [str.strip()] *)
Definition strip (s : string) : string := rstrip (lstrip s).

(** [str.split('\n')] *)
Fixpoint split_nl (s : string) : list string :=
  match s with
  | "" => [""]
  | String c s' =>
      if is_newline c then "" :: split_nl s'
      else match split_nl s' with
           | l :: ls => String c l :: ls
           | [] => [String c ""]
           end
  end.

(** [str.split()]: the maximal runs of characters that are not whitespace. *)
Fixpoint split_ws (s : string) : list string :=
  match s with
  | "" => []
  | String c s' =>
      if isspace c then split_ws s'
      else match s' with
           | "" => [String c ""]
           | String c' _ =>
               if isspace c' then String c "" :: split_ws s'
               else match split_ws s' with
                    | w :: ws => String c w :: ws
                    | [] => [String c ""]
                    end
           end
  end.

(** [c in s] for a character *)
Fixpoint mem_char (c : ascii) (s : string) : bool :=
  match s with
  | "" => false
  | String a s' => (a =? c)%char || mem_char c s'
  end.

(** [s.replace(a, b)] for single characters *)
Fixpoint replace_char (a b : ascii) (s : string) : string :=
  match s with
  | "" => ""
  | String c s' => String (if (c =? a)%char then b else c) (replace_char a b s')
  end.

(** [enumerate(xs, start)] *)
Fixpoint enumerate {A : Type} (start : nat) (xs : list A) : list (nat * A) :=
  match xs with
  | [] => []
  | x :: xs' => (start, x) :: enumerate (S start) xs'
  end.

(** The test [not line.strip()] of the batch loop. *)
Definition is_blank (line : string) : bool := (strip line =? "")%string.

Definition count_nonblank (lines : list string) : nat :=
  List.length (filter (fun l => negb (is_blank l)) lines).

End Text.

(** ** A backtracking matcher for the regular expressions of the repository

    The patterns of the two classes use character classes, sequencing,
    alternation, greedy repetition, capture groups and one back-reference.
    [m] tries the alternatives in the order of Python's [re] and hands every
    candidate end position to its continuation, so that the first success is
    the match [re.match] reports. *)

Module Re.
Import Text.

Inductive cclass : Type :=
| Dot                        (* .   anything but a newline *)
| Lit (c : ascii)            (* a literal character *)
| Digit                      (* \d *)
| Word                       (* \w *)
| Space                      (* \s *)
| NotSpace                   (* \S *)
| OneOf (cs : string)        (* [...] *)
| NoneOf (cs : string)       (* [^...] *)
| NonAscii.                  (* [^\x00-\x7F] *)

Inductive regex : Type :=
| Eps
| Chr (k : cclass)
| Seq (r1 r2 : regex)
| Alt (r1 r2 : regex)
| Star (r : regex)           (* greedy r* *)
| Group (name : string) (r : regex)
| Backref (name : string).

(** Equality of two characters, up to case under [re.IGNORECASE]. *)
Definition same_char (icase : bool) (a b : ascii) : bool :=
  if icase then (lower_char a =? lower_char b)%char else (a =? b)%char.

Fixpoint in_set (icase : bool) (a : ascii) (cs : string) : bool :=
  match cs with
  | "" => false
  | String c cs' => same_char icase c a || in_set icase a cs'
  end.

Definition cmatch (icase : bool) (k : cclass) (a : ascii) : bool :=
  match k with
  | Dot => negb (is_newline a)
  | Lit c => same_char icase c a
  | Digit => isdecimal a
  | Word => isword a
  | Space => isspace a
  | NotSpace => negb (isspace a)
  | OneOf cs => in_set icase a cs
  | NoneOf cs => negb (in_set icase a cs)
  | NonAscii => (128 <=? code a)%N
  end.

(** The captures made so far, the latest first. *)
Definition env : Type := list (string * string).

Fixpoint lookup {A : Type} (k : string) (d : list (string * A)) : option A :=
  match d with
  | [] => None
  | (k', v) :: d' => if (k' =? k)%string then Some v else lookup k d'
  end.

(** The text consumed between the position [s] and the later position [s']. *)
Definition taken (s s' : string) : string :=
  substring 0 (String.length s - String.length s') s.

(** [t] read at the head of [s]: what is left of [s] after it. *)
Fixpoint read (icase : bool) (t s : string) : option string :=
  match t, s with
  | "", _ => Some s
  | String a t', String b s' => if same_char icase a b then read icase t' s' else None
  | String _ _, "" => None
  end.

Definition kont : Type := string -> env -> option env.

(** The iterations of a greedy [r*] from the position [s]: one more turn of
    the body, which has to consume something, before the continuation is
    tried at [s] itself.  [n] bounds the turns that can still consume. *)
Fixpoint star_loop (body : string -> env -> kont -> option env) (k : kont)
  (n : nat) (s : string) (e : env) {struct n} : option env :=
  match n with
  | O => k s e
  | S n' =>
      match body s e
              (fun s' e' =>
                 if String.length s' <? String.length s
                 then star_loop body k n' s' e' else None) with
      | Some x => Some x
      | None => k s e
      end
  end.

Fixpoint m (icase : bool) (r : regex) (s : string) (e : env) (k : kont)
  {struct r} : option env :=
  match r with
  | Eps => k s e
  | Chr c =>
      match s with
      | String a s' => if cmatch icase c a then k s' e else None
      | "" => None
      end
  | Seq r1 r2 => m icase r1 s e (fun s' e' => m icase r2 s' e' k)
  | Alt r1 r2 =>
      match m icase r1 s e k with
      | Some x => Some x
      | None => m icase r2 s e k
      end
  | Star r1 => star_loop (m icase r1) k (String.length s) s e
  | Group g r1 => m icase r1 s e (fun s' e' => k s' ((g, taken s s') :: e'))
  | Backref g =>
      match lookup g e with
      | Some t =>
          match read icase t s with
          | Some s' => k s' e
          | None => None
          end
      | None => None
      end
  end.

(** The names of the groups of a pattern, in the order of their opening. *)
Fixpoint names (r : regex) : list string :=
  match r with
  | Eps | Chr _ | Backref _ => []
  | Seq r1 r2 | Alt r1 r2 => names r1 ++ names r2
  | Star r1 => names r1
  | Group g r1 => g :: names r1
  end.

Definition accept : kont := fun _ e => Some e.

(** [re.match(pattern, s, flags)]: anchored at the start only; the result is
    the captures of the match. *)
Definition re_match (icase : bool) (r : regex) (s : string) : option env :=
  m icase r s [] accept.

(** [re.search(pattern, s)], as a truth value. *)
Fixpoint re_search (icase : bool) (r : regex) (s : string) : bool :=
  match re_match icase r s with
  | Some _ => true
  | None =>
      match s with
      | "" => false
      | String _ s' => re_search icase r s'
      end
  end.

(** Derived forms. *)
Definition plus (r : regex) : regex := Seq r (Star r).
Definition opt (r : regex) : regex := Alt r Eps.

Fixpoint times (n : nat) (r : regex) : regex :=
  match n with
  | O => Eps
  | S n' => Seq r (times n' r)
  end.

Fixpoint lit (s : string) : regex :=
  match s with
  | "" => Eps
  | String c s' => Seq (Chr (Lit c)) (lit s')
  end.

Fixpoint seqs (rs : list regex) : regex :=
  match rs with
  | [] => Eps
  | r :: rs' => Seq r (seqs rs')
  end.

Fixpoint alts (r : regex) (rs : list regex) : regex :=
  match rs with
  | [] => r
  | r' :: rs' => Alt r (alts r' rs')
  end.

Definition d : regex := Chr Digit.
Definition w : regex := Chr Word.
Definition sp : regex := Chr Space.
Definition any : regex := Star (Chr Dot).

End Re.

(** ** [log_parser.py] *)

Module Parser.
Import Text Re.

(** The values a parsed entry holds. *)
Inductive pyval : Type :=
| PNone
| PStr (s : string)
| PInt (n : nat).

Definition dict : Type := list (string * pyval).

(** [d[k] = v] *)
Fixpoint dict_set (k : string) (v : pyval) (d : dict) : dict :=
  match d with
  | [] => [(k, v)]
  | (k', v') :: d' =>
      if (k' =? k)%string then (k', v) :: d' else (k', v') :: dict_set k v d'
  end.

(** [d.setdefault(k, v)] *)
Definition dict_setdefault (k : string) (v : pyval) (d : dict) : dict :=
  match lookup k d with
  | Some _ => d
  | None => d ++ [(k, v)]
  end.

(** [d.get(k, v)] *)
Definition dict_get (k : string) (v : pyval) (d : dict) : pyval :=
  match lookup k d with
  | Some x => x
  | None => v
  end.

(** A value inside an f-string. *)
Definition fmt (v : pyval) : string :=
  match v with
  | PNone => "None"
  | PStr s => s
  | PInt n => NilEmpty.string_of_uint (Nat.to_uint n)
  end.

(** [self.patterns], in the order of the dictionary. *)

Definition date_time : list regex :=
  [times 4 d; lit "-"; times 2 d; lit "-"; times 2 d; plus sp;
   times 2 d; lit ":"; times 2 d; lit ":"; times 2 d].

Definition custom_domain : regex :=
  seqs [Group "source" (plus (Chr NotSpace)); plus sp;
        Group "ip" (plus (Chr NotSpace)); plus sp;
        Group "timestamp" (plus d); plus sp;
        Group "severity" (plus w); plus sp;
        Group "value" (plus d)].

Definition standard : regex :=
  seqs [Group "timestamp" (seqs (date_time ++ [opt (seqs [lit "."; plus d])]));
        Star sp; opt (lit "["); Group "severity" (plus w); opt (lit "]");
        Star sp; opt (Group "source" (plus w)); opt (lit ":");
        Star sp; Group "message" any].

Definition apache : regex :=
  seqs [Group "timestamp"
          (seqs [times 2 d; lit "/"; times 3 w; lit "/"; times 4 d; lit ":";
                 times 2 d; lit ":"; times 2 d; lit ":"; times 2 d; plus sp;
                 Chr (OneOf "+-"); times 4 d]);
        plus sp; lit "["; Group "severity" (plus w); lit "]";
        plus sp; Group "message" any].

Definition syslog : regex :=
  seqs [Group "timestamp"
          (seqs [times 3 w; plus sp; d; opt d; plus sp;
                 times 2 d; lit ":"; times 2 d; lit ":"; times 2 d]);
        plus sp; Group "source" (plus w);
        plus sp; Group "severity" (plus w); lit ":";
        plus sp; Group "message" any].

Definition java : regex :=
  seqs [Group "timestamp" (seqs (date_time ++ [lit ","; times 3 d]));
        plus sp; Group "severity" (plus w);
        plus sp; lit "["; Group "source" (plus (Chr (NoneOf "]"))); lit "]";
        plus sp; Group "message" any].

Definition simple : regex :=
  seqs [opt (lit "[");
        Group "severity"
          (alts (lit "ERROR")
                [lit "WARN"; lit "WARNING"; lit "INFO"; lit "DEBUG";
                 lit "TRACE"; lit "FATAL"; lit "CRITICAL"]);
        opt (lit "]"); Star sp; Group "message" any].

Definition fallback : regex := Group "message" any.

Definition patterns : list (string * regex) :=
  [("custom_domain", custom_domain); ("standard", standard);
   ("apache", apache); ("syslog", syslog); ("java", java);
   ("simple", simple); ("fallback", fallback)].

(** [self.severity_mapping] *)
Definition severity_mapping : list (string * string) :=
  [("FATAL", "FATAL"); ("CRITICAL", "FATAL"); ("ERROR", "ERROR");
   ("ERR", "ERROR"); ("WARN", "WARNING"); ("WARNING", "WARNING");
   ("INFO", "INFO"); ("INFORMATION", "INFO"); ("DEBUG", "DEBUG");
   ("TRACE", "DEBUG"); ("NOTICE", "INFO"); ("TEST", "INFO");
   ("REST", "INFO"); ("JSON", "INFO"); ("RAW", "INFO")].

(** [match.groupdict()]: every named group, [None] for one that took no part
    in the match. *)
Definition groupdict (r : regex) (e : env) : dict :=
  map (fun g => (g, match lookup g e with
                    | Some t => PStr t
                    | None => PNone
                    end)) (names r).

(** The body of the [if match:] branch of [_parse_single_line]. *)
Definition build_entry (pattern_name line : string) (line_num : nat)
  (entry : dict) : dict :=
  let entry := dict_set "line_number" (PInt line_num) entry in
  let entry := dict_set "raw_line" (PStr line) entry in
  let entry := dict_set "pattern_used" (PStr pattern_name) entry in
  let entry :=
    if (pattern_name =? "custom_domain")%string
    then dict_set "message"
           (PStr (fmt (dict_get "source" (PStr "unknown") entry) ++ " "
                  ++ fmt (dict_get "ip" (PStr "unknown") entry) ++ " "
                  ++ fmt (dict_get "severity" (PStr "INFO") entry) ++ " "
                  ++ fmt (dict_get "value" (PStr "unknown") entry))) entry
    else entry in
  let entry := dict_setdefault "timestamp" PNone entry in
  let entry := dict_setdefault "severity" (PStr "INFO") entry in
  let entry := dict_setdefault "source" (PStr "unknown") entry in
  let entry := dict_setdefault "message" (PStr line) entry in
  entry.

(** The loop over [self.patterns.items()]: the first pattern that matches. *)
Fixpoint try_patterns (ps : list (string * regex)) (line : string)
  (line_num : nat) : option dict :=
  match ps with
  | [] => None
  | (pattern_name, pattern) :: ps' =>
      match re_match true pattern line with
      | Some e => Some (build_entry pattern_name line line_num (groupdict pattern e))
      | None => try_patterns ps' line line_num
      end
  end.

(** The entry built when the loop ends without a match. *)
Definition basic_entry (line : string) (line_num : nat) : dict :=
  [("timestamp", PNone); ("severity", PStr "INFO"); ("source", PStr "unknown");
   ("message", PStr line); ("line_number", PInt line_num);
   ("raw_line", PStr line); ("pattern_used", PStr "fallback")].

Definition _parse_single_line (line : string) (line_num : nat) : option dict :=
  let line := strip line in
  if (line =? "")%string then None
  else match try_patterns patterns line line_num with
       | Some entry => Some entry
       | None => Some (basic_entry line line_num)
       end.

(** The loop of [parse_logs] over [enumerate(lines, 1)]. *)
Fixpoint parse_lines (lines : list (nat * string)) : list dict :=
  match lines with
  | [] => []
  | (line_num, line) :: rest =>
      if is_blank line then parse_lines rest
      else match _parse_single_line line line_num with
           | Some ((_ :: _) as parsed_entry) => parsed_entry :: parse_lines rest
           | _ => parse_lines rest
           end
  end.

(** [parsed_entries] as [parse_logs] has it before it builds the table. *)
Definition parsed_entries (log_content : string) : list dict :=
  parse_lines (enumerate 1 (split_nl (strip log_content))).

(** *** Timestamp coercion *)

Inductive exn : Type := ValueError | OSError | OverflowError.

Inductive result (A : Type) : Type :=
| Returned (a : A)
| Raised (e : exn).

Arguments Returned {A} a.
Arguments Raised {A} e.

Definition bind {A B : Type} (x : result A) (f : A -> result B) : result B :=
  match x with
  | Returned a => f a
  | Raised e => Raised e
  end.

(** A point in time, in seconds since the epoch.  The timestamps of one
    table are taken to lie on one time line (all of them naive, or all of
    them with an offset), so that any two of them can be compared and
    subtracted. *)
Definition instant : Type := Q.

(** What [_parse_timestamp] takes from the libraries and from the platform.
    [strptime s fmt] is [None] when [datetime.strptime] raises [ValueError],
    the one exception it has for a text and a format; [to_datetime s] is
    [pd.to_datetime(s, errors='coerce')], which gives the null [NaT] when it
    cannot read [s]; [utcoffset t] is the number of seconds by which the
    local time of the platform is ahead of UTC at the instant [t] (negative
    west of Greenwich), which [datetime.fromtimestamp] reads through the C
    library: POSIX keeps it below 25 hours either way. *)
Class DateLib : Type := {
  strptime : string -> string -> option instant;
  to_datetime : string -> option instant;
  utcoffset : Z -> Z;
  utcoffset_bound : forall t, (Z.abs (utcoffset t) <? 90000)%Z = true
}.

(** [str.isdigit()] *)
Fixpoint all_digit (s : string) : bool :=
  match s with
  | "" => true
  | String c s' => isdigit_char c && all_digit s'
  end.

Definition isdigit (s : string) : bool :=
  negb (s =? "")%string && all_digit s.

Fixpoint digits_value (acc : N) (s : string) : option N :=
  match s with
  | "" => Some acc
  | String c s' =>
      if isdecimal c then digits_value (acc * 10 + (code c - 48))%N s'
      else None
  end.

(** [int(s)] for a text on which [isdigit] holds: [ValueError] on a
    superscript digit and, past the interpreter's limit of 4300 digits, on
    the length. *)
Definition int (s : string) : result N :=
  if 4300 <? String.length s then Raised ValueError
  else match digits_value 0 s with
       | Some n => Returned n
       | None => Raised ValueError
       end.

Definition formats : list string :=
  ["%Y-%m-%d %H:%M:%S.%f"; "%Y-%m-%d %H:%M:%S"; "%Y-%m-%d %H:%M";
   "%d/%b/%Y:%H:%M:%S %z"; "%b %d %H:%M:%S"; "%Y-%m-%d";
   "%m/%d/%Y %H:%M:%S"; "%m-%d-%Y %H:%M:%S"; "%Y%m%d %H:%M:%S";
   "%Y-%m-%d %H:%M:%S,%f"].

(** [sub in s] *)
Definition contains (sub s : string) : bool :=
  match index 0 sub s with
  | Some _ => true
  | None => false
  end.

Definition comma : ascii := ascii_of_N 44.
Definition period : ascii := ascii_of_N 46.

Section Coercion.
Context {lib : DateLib}.

(** [datetime.fromtimestamp(n)], on a platform with a 64-bit [time_t]:
    [OverflowError] when [n] does not fit [time_t]; [ValueError] when the
    local reading of the instant lies past the last second of the year 9999
    (or [OSError] for the larger values: the caller treats the two alike);
    otherwise the instant, as a local date and time. *)
Definition fromtimestamp (n : N) : result instant :=
  if (2 ^ 63 <=? n)%N then Raised OverflowError
  else if (253402300799 <? Z.of_N n + utcoffset (Z.of_N n))%Z
       then Raised ValueError
       else Returned (inject_Z (Z.of_N n)).

(** The loop over [formats]: the instant of the first format that reads the
    text, or the text as the loop leaves it (the Java branch rewrites it). *)
Fixpoint try_formats (fmts : list string) (timestamp_str : string)
  : instant + string :=
  match fmts with
  | [] => inr timestamp_str
  | fmt :: rest =>
      let timestamp_str :=
        if contains ",%f" fmt && mem_char comma timestamp_str
        then replace_char comma period timestamp_str
        else timestamp_str in
      match strptime timestamp_str fmt with
      | Some t => inl t
      | None => try_formats rest timestamp_str
      end
  end.

Definition after_epoch (timestamp_str : string) : option instant :=
  match try_formats formats timestamp_str with
  | inl t => Some t
  | inr s => to_datetime s
  end.

(** [_parse_timestamp]: the argument is the cell of the column, a text or
    null.  Only [ValueError] and [OSError] are caught around
    [datetime.fromtimestamp]. *)
Definition _parse_timestamp (cell : option string) : result (option instant) :=
  match cell with
  | None => Returned None
  | Some "" => Returned None
  | Some raw =>
      let timestamp_str := strip raw in
      if isdigit timestamp_str then
        match bind (int timestamp_str) fromtimestamp with
        | Returned t => Returned (Some t)
        | Raised ValueError | Raised OSError =>
            Returned (after_epoch timestamp_str)
        | Raised e => Raised e
        end
      else Returned (after_epoch timestamp_str)
  end.

(** *** The table and its post-processing *)

Record LogRecord : Type := {
  timestamp : option instant;
  severity : option string;
  source : string;
  message : option string;
  line_number : nat;
  has_timestamp : bool;
  message_length : option nat;
  word_count : option nat;
  pattern_used : string;
  raw_line : string
}.

(** A cell of a text column: null unless it holds a text. *)
Definition cell_text (e : dict) (column : string) : option string :=
  match lookup column e with
  | Some (PStr s) => Some s
  | _ => None
  end.

Definition cell_nat (e : dict) (column : string) : nat :=
  match lookup column e with
  | Some (PInt n) => n
  | _ => 0
  end.

(** [lambda x: self.severity_mapping.get(x, x) if x else 'INFO'] *)
Definition map_severity (x : string) : string :=
  if (x =? "")%string then "INFO"
  else match lookup x severity_mapping with
       | Some v => v
       | None => x
       end.

(** One cell of [df['severity'].str.upper().map(...)] *)
Definition normalize_severity (cell : option string) : option string :=
  option_map (fun s => map_severity (upper s)) cell.

(** The post-processing of one row, once its timestamp is coerced. *)
Definition post_process_row (e : dict) (ts : option instant) : LogRecord :=
  let msg := option_map strip (cell_text e "message") in
  {| timestamp := ts;
     severity := normalize_severity (cell_text e "severity");
     source := strip (match cell_text e "source" with
                      | Some s => s
                      | None => "unknown"
                      end);
     message := msg;
     line_number := cell_nat e "line_number";
     has_timestamp := match ts with Some _ => true | None => false end;
     message_length := option_map String.length msg;
     word_count := option_map (fun s => List.length (split_ws s)) msg;
     pattern_used := match cell_text e "pattern_used" with
                     | Some s => s
                     | None => ""
                     end;
     raw_line := match cell_text e "raw_line" with
                 | Some s => s
                 | None => ""
                 end |}.

(** [df['timestamp'].apply(self._parse_timestamp)]: row after row; the first
    exception ends the call. *)
Fixpoint apply_parse_timestamp (entries : list dict)
  : result (list (option instant)) :=
  match entries with
  | [] => Returned []
  | e :: rest =>
      bind (_parse_timestamp (cell_text e "timestamp")) (fun ts =>
      bind (apply_parse_timestamp rest) (fun tss =>
      Returned (ts :: tss)))
  end.

Definition _post_process_dataframe (entries : list dict)
  : result (list LogRecord) :=
  bind (apply_parse_timestamp entries) (fun tss =>
  Returned (map (fun p => post_process_row (fst p) (snd p)) (combine entries tss))).

Definition parse_logs (log_content : string) : result (list LogRecord) :=
  match parsed_entries log_content with
  | [] => Returned []
  | entries => _post_process_dataframe entries
  end.

End Coercion.

End Parser.
(** ** [anomaly_detector.py] *)

Module Detector.
Import Text Re Parser.

Local Open Scope Q_scope.

(** The table the detector reads: the rows of the parser's table. *)
Definition table : Type := list LogRecord.

(** The learned models, fitted anew on every call.  [statistical_model X] is
    the scaler followed by the isolation forest on the feature matrix [X]
    and [text_model messages] the cleaning of the messages, TF-IDF and DBSCAN;
    each gives the rows it labels [-1], or [None] when the library raises
    (or, for the text model, leaves an empty vocabulary). *)
Class Models : Type := {
  statistical_model : list (option nat * option nat) -> option (nat -> bool);
  text_model : list string -> option (nat -> bool)
}.

(** [np.argsort], in its default kind: the order of equal keys is the
    library's own. *)
Class Sorting : Type := {
  argsort : list Q -> list nat
}.

Definition Qlt_bool (x y : Q) : bool := negb (Qle_bool y x).

(** Python's [max(a, b)]: [b] only when it is strictly larger. *)
Definition pymax (a b : Q) : Q := if Qlt_bool a b then b else a.

Definition zeros (n : nat) : list Q := repeat 0 n.

(** A vector of truth values as floats. *)
Definition astype_float (n : nat) (f : nat -> bool) : list Q :=
  map (fun i => if f i then 1 else 0) (seq 0 n).

(** [arr[i] = v] *)
Fixpoint set_nth (i : nat) (v : Q) (arr : list Q) : list Q :=
  match arr, i with
  | [], _ => []
  | _ :: arr', O => v :: arr'
  | x :: arr', S i' => x :: set_nth i' v arr'
  end.

Fixpoint sum (xs : list Q) : Q :=
  match xs with
  | [] => 0
  | x :: xs' => x + sum xs'
  end.

(** *** Method 1: statistical *)

Section Methods.
Context {models : Models} {sorting : Sorting}.

Definition _detect_statistical_anomalies (df : table) : list Q :=
  let n := List.length df in
  let X := map (fun r => (message_length r, word_count r)) df in
  if (n <? 5)%nat then zeros n
  else match statistical_model X with
       | Some outlier => astype_float n outlier
       | None => zeros n
       end.

(** *** Method 2: text *)

Definition fillna_str (cell : option string) : string :=
  match cell with
  | Some s => s
  | None => ""
  end.

Definition _detect_text_anomalies (df : table) : list Q :=
  let n := List.length df in
  let messages := map (fun r => fillna_str (message r)) df in
  if (List.length messages <? 5)%nat then zeros n
  else match text_model messages with
       | Some noise => astype_float n noise
       | None => zeros n
       end.

(** *** Method 3: temporal *)

(** The rows with a timestamp, each with its position in the table. *)
Fixpoint with_time (i : nat) (df : table) : list (nat * instant) :=
  match df with
  | [] => []
  | r :: df' =>
      match timestamp r with
      | Some t => (i, t) :: with_time (S i) df'
      | None => with_time (S i) df'
      end
  end.

(** [df['timestamp'].notna().sum()] *)
Definition notna_count (df : table) : nat :=
  List.length (filter (fun r => match timestamp r with
                                | Some _ => true
                                | None => false
                                end) df).

(** [Series.diff()] without its leading null. *)
Fixpoint diff (xs : list Q) : list Q :=
  match xs with
  | x :: ((y :: _) as xs') => (y - x) :: diff xs'
  | _ => []
  end.

Fixpoint insert_sorted (x : Q) (xs : list Q) : list Q :=
  match xs with
  | [] => [x]
  | y :: xs' => if Qle_bool x y then x :: xs else y :: insert_sorted x xs'
  end.

Definition sorted_values (xs : list Q) : list Q :=
  fold_right insert_sorted [] xs.

(** [np.percentile(xs, q)], by linear interpolation between the two nearest
    ranks. *)
Definition percentile (xs : list Q) (q : Q) : Q :=
  let a := sorted_values xs in
  let pos := inject_Z (Z.of_nat (List.length a - 1)) * q / 100 in
  let lo := Z.to_nat (Qfloor pos) in
  let frac := pos - inject_Z (Qfloor pos) in
  let x := nth lo a 0 in
  let y := nth (S lo) a x in
  x + frac * (y - x).

(** The loop that maps the gaps back to the rows of the table. *)
Fixpoint mark_gaps (i : nat) (anomalous : list bool) (indices : list nat)
  (temporal_anomalies : list Q) : list Q :=
  match anomalous with
  | [] => temporal_anomalies
  | is_anomaly :: rest =>
      let arr :=
        if (i <? List.length indices)%nat
        then set_nth (nth i indices O) (if is_anomaly then 1 else 0)
                     temporal_anomalies
        else temporal_anomalies in
      mark_gaps (S i) rest indices arr
  end.

(** [_detect_temporal_anomalies].  With the timestamps on one time line
    nothing in the body raises, and the handler of the method, which answers
    zeros on any exception, is not taken.  A column that mixes naive
    datetimes with datetimes that carry an offset, which [sort_values]
    cannot order, is outside the embedding. *)
Definition _detect_temporal_anomalies (df : table) : list Q :=
  let n := List.length df in
  let df_with_time := with_time 0 df in
  if (List.length df_with_time <? 10)%nat then zeros n
  else
    let order := argsort (map snd df_with_time) in
    let df_with_time := map (fun j => nth j df_with_time (O, 0)) order in
    let time_diffs := diff (map snd df_with_time) in
    if (List.length time_diffs <? 5)%nat then zeros n
    else
      let q75 := percentile time_diffs 75 in
      let q25 := percentile time_diffs 25 in
      let iqr := q75 - q25 in
      let lower_bound := q25 - (15 # 10) * iqr in
      let upper_bound := q75 + (15 # 10) * iqr in
      let anomalous_time_diffs :=
        map (fun x => Qlt_bool x lower_bound || Qlt_bool upper_bound x)
            time_diffs in
      let df_with_time_indices := map fst df_with_time in
      let time_diff_indices := tl df_with_time_indices in
      mark_gaps 0 anomalous_time_diffs time_diff_indices (zeros n).

(** *** Method 4: severity *)

Definition expected_ranges : list (string * (Q * Q)) :=
  [("ERROR", (1 # 1000, 1 # 10));
   ("FATAL", (1 # 10000, 5 # 100));
   ("WARNING", (1 # 100, 3 # 10));
   ("INFO", (3 # 10, 95 # 100));
   ("DEBUG", (0, 5 # 10))].

Definition has_severity (sev : string) (r : LogRecord) : bool :=
  match severity r with
  | Some s => (s =? sev)%string
  | None => false
  end.

Definition count_severity (sev : string) (df : table) : nat :=
  List.length (filter (has_severity sev) df).

(** The labels of [df['severity'].value_counts()]: the distinct severities of
    the table.  They are listed here as they first appear; the method reads
    them through membership, lookup and masks of distinct labels only. *)
Fixpoint distinct_severities (df : table) (seen : list string) : list string :=
  match df with
  | [] => rev seen
  | r :: df' =>
      match severity r with
      | Some s =>
          if existsb (String.eqb s) seen then distinct_severities df' seen
          else distinct_severities df' (s :: seen)
      | None => distinct_severities df' seen
      end
  end.

(** [severity_counts / total_logs] *)
Definition severity_frequencies (df : table) : list (string * Q) :=
  map (fun s => (s, inject_Z (Z.of_nat (count_severity s df))
                    / inject_Z (Z.of_nat (List.length df))))
      (distinct_severities df []).

(** [severity_anomalies[df['severity'] == sev] = v] *)
Fixpoint assign_mask (sev : string) (v : Q) (df : table) (arr : list Q)
  : list Q :=
  match df, arr with
  | r :: df', x :: arr' =>
      (if has_severity sev r then v else x) :: assign_mask sev v df' arr'
  | _, _ => arr
  end.

Definition _detect_severity_anomalies (df : table) : list Q :=
  let severity_frequencies := severity_frequencies df in
  let severity_anomalies := zeros (List.length df) in
  let severity_anomalies :=
    fold_left
      (fun arr (item : string * (Q * Q)) =>
         let '(sev, (min_freq, max_freq)) := item in
         match lookup sev severity_frequencies with
         | Some freq =>
             if Qlt_bool freq min_freq || Qlt_bool max_freq freq
             then assign_mask sev (5 # 10) df arr
             else arr
         | None => arr
         end)
      expected_ranges severity_anomalies in
  let rare_severities :=
    map fst (filter (fun p => Qlt_bool (snd p) (1 # 100)) severity_frequencies) in
  fold_left (fun arr sev => assign_mask sev 1 df arr)
            rare_severities severity_anomalies.

(** *** Method 5: pattern *)

Definition then_later (a b : string) : regex := seqs [lit a; any; lit b].

Definition suspicious_patterns : list regex :=
  [then_later "failed" "login";
   then_later "unauthorized" "access";
   then_later "connection" "refused";
   then_later "timeout" "exceeded";
   then_later "memory" "leak";
   then_later "stack" "overflow";
   then_later "null" "pointer";
   seqs [lit "out"; any; lit "of"; any; lit "memory"];
   then_later "deadlock" "detected";
   then_later "permission" "denied"].

(** [(.)\1{10,}] *)
Definition repeated_character : regex :=
  seqs [Group "1" (Chr Dot); times 10 (Backref "1"); Star (Backref "1")].

(** The body of the loop over the messages, for one message. *)
Definition pattern_score (message : string) : Q :=
  let message_lower := lower message in
  let score :=
    fold_left
      (fun acc pattern =>
         if re_search false pattern message_lower then pymax acc (7 # 10)
         else acc)
      suspicious_patterns 0 in
  let score :=
    if (1000 <? String.length message)%nat then pymax score (3 # 10)
    else score in
  let score :=
    if re_search false (Chr NonAscii) message then pymax score (2 # 10)
    else score in
  if re_search false repeated_character message then pymax score (4 # 10)
  else score.

Definition _detect_pattern_anomalies (df : table) : list Q :=
  map (fun r => pattern_score (fillna_str (message r))) df.

(** *** The combiner *)

Definition weights : list Q := [2 # 10; 25 # 100; 2 # 10; 15 # 100; 2 # 10].

(** [np.column_stack]: row [i] holds the score of every method for record
    [i]. *)
Definition column_stack (n : nat) (columns : list (list Q)) : list (list Q) :=
  map (fun i => map (fun column => nth i column 0) columns) (seq 0 n).

(** [weights / weights.sum()] *)
Definition normalize (ws : list Q) : list Q :=
  map (fun x => x / sum ws) ws.

Fixpoint dot (xs ws : list Q) : Q :=
  match xs, ws with
  | x :: xs', y :: ws' => x * y + dot xs' ws'
  | _, _ => 0
  end.

(** [np.average(row, weights=ws)] *)
Definition average (ws row : list Q) : Q := dot row ws / sum ws.

(** [np.where(scores > threshold)[0].tolist()] *)
Fixpoint where_above (threshold : Q) (i : nat) (scores : list Q) : list nat :=
  match scores with
  | [] => []
  | x :: scores' =>
      if Qlt_bool threshold x then i :: where_above threshold (S i) scores'
      else where_above threshold (S i) scores'
  end.

(** [xs[-k:]] *)
Definition last_k {A : Type} (k : nat) (xs : list A) : list A :=
  match k with
  | O => xs
  | _ => skipn (List.length xs - k) xs
  end.

Definition of_nat (n : nat) : Q := inject_Z (Z.of_nat n).

(** The weights the combiner applies to [k] stacked methods. *)
Definition effective_weights (k : nat) : list Q := normalize (firstn k weights).

Definition final_scores (anomaly_scores : list (list Q)) (df : table) : list Q :=
  let combined_scores := column_stack (List.length df) anomaly_scores in
  let ws := effective_weights (List.length anomaly_scores) in
  map (average ws) combined_scores.

Definition threshold : Q := 3 # 10.

Definition _combine_anomaly_scores (anomaly_scores : list (list Q)) (df : table)
  : list nat :=
  match anomaly_scores with
  | [] => []
  | _ =>
      let final_scores := final_scores anomaly_scores df in
      let anomaly_indices := where_above threshold 0 final_scores in
      if Qlt_bool (of_nat (List.length df) * (2 # 10))
                  (of_nat (List.length anomaly_indices))
      then last_k (Z.to_nat (Qfloor (of_nat (List.length df) * (2 # 10))))
                  (argsort final_scores)
      else anomaly_indices
  end.

(** The list [anomaly_scores] that [detect_anomalies] builds, method after
    method. *)
Definition anomaly_scores (df : table) : list (list Q) :=
  [_detect_statistical_anomalies df; _detect_text_anomalies df]
  ++ (if (10 <? notna_count df)%nat then [_detect_temporal_anomalies df] else [])
  ++ [_detect_severity_anomalies df; _detect_pattern_anomalies df].

Definition detect_anomalies (df : table) : list nat :=
  if (List.length df =? 0)%nat || (List.length df <? 10)%nat then []
  else _combine_anomaly_scores (anomaly_scores df) df.

End Methods.

End Detector.

(** ** The reports: parsing statistics and anomaly summary *)

Module Reports.
Import Text Re Parser Detector.

Local Open Scope Q_scope.

(** [d[k] = d.get(k, 0) + 1] *)
Fixpoint bump (k : string) (d : list (string * nat)) : list (string * nat) :=
  match d with
  | [] => [(k, 1%nat)]
  | (k', c) :: d' =>
      if (k' =? k)%string then (k', S c) :: d' else (k', c) :: bump k d'
  end.

(** [Series.value_counts().to_dict()], as a mapping from the labels that occur
    (null cells apart) to their counts.  The keys are listed here as they
    first appear; pandas lists them by falling count. *)
Definition value_counts (cells : list (option string)) : list (string * nat) :=
  fold_left (fun d cell => match cell with
                           | Some label => bump label d
                           | None => d
                           end) cells [].

(** [x / y * 100] *)
Definition percent (x y : nat) : Q := of_nat x / of_nat y * 100.

(** [Series.mean()] of a column of lengths: null cells are skipped, and the
    mean of no value is the null [NaN]. *)
Definition mean (cells : list (option nat)) : option Q :=
  let values := flat_map (fun c => match c with
                                   | Some v => [of_nat v]
                                   | None => []
                                   end) cells in
  match values with
  | [] => None
  | _ => Some (sum values / of_nat (List.length values))
  end.

Record Details : Type := {
  patterns_used : list (string * nat);
  severities_found : list (string * nat);
  sources_found : nat;
  timestamp_coverage : Q;
  average_message_length : option Q
}.

(** The dictionary of [get_parsing_stats]: three keys on the empty table,
    eight otherwise. *)
Record ParsingStats : Type := {
  total_lines : nat;
  parsed_lines : nat;
  success_rate : Q;
  details : option Details
}.

Definition not_fallback (r : LogRecord) : bool :=
  negb (pattern_used r =? "fallback")%string.

Definition get_parsing_stats (df : list LogRecord) : ParsingStats :=
  match df with
  | [] => {| total_lines := 0; parsed_lines := 0; success_rate := 0;
             details := None |}
  | _ =>
      {| total_lines := List.length df;
         parsed_lines := List.length (filter not_fallback df);
         success_rate :=
           percent (List.length (filter not_fallback df)) (List.length df);
         details :=
           Some {| patterns_used :=
                     value_counts (map (fun r => Some (pattern_used r)) df);
                   severities_found := value_counts (map severity df);
                   sources_found :=
                     List.length
                       (value_counts (map (fun r => Some (source r)) df));
                   timestamp_coverage :=
                     percent (List.length (filter has_timestamp df))
                             (List.length df);
                   average_message_length := mean (map message_length df) |}
      |}
  end.

(** [str(message)] of a cell of the message column; the null cell of a
    post-processed table is [NaN]. *)
Definition str_cell (cell : option string) : string :=
  match cell with
  | Some s => s
  | None => "nan"
  end.

(** The counting loops of [_find_common_patterns]. *)
Definition count_words (patterns : list (string * nat)) (message : option string)
  : list (string * nat) :=
  fold_left (fun d word => if (3 <? String.length word)%nat then bump word d
                           else d)
            (split_ws (lower (str_cell message))) patterns.

(** [sorted(items, key=lambda x: x[1], reverse=True)]: by falling count, items
    of equal count in the order they had. *)
Fixpoint insert_desc (x : string * nat) (l : list (string * nat))
  : list (string * nat) :=
  match l with
  | [] => [x]
  | y :: l' => if (snd y <? snd x)%nat then x :: l else y :: insert_desc x l'
  end.

Definition sorted_desc (items : list (string * nat)) : list (string * nat) :=
  fold_left (fun acc x => insert_desc x acc) items [].

Definition _find_common_patterns (messages : list (option string)) (top_n : nat)
  : list (string * nat) :=
  firstn top_n (sorted_desc (fold_left count_words messages [])).

(** The text of an instant, as [Timestamp.isoformat()] writes it. *)
Class Clock : Type := {
  isoformat : instant -> string
}.

Definition earliest (t : instant) (ts : list instant) : instant :=
  fold_left (fun a b => if Qlt_bool b a then b else a) ts t.

Definition latest (t : instant) (ts : list instant) : instant :=
  fold_left (fun a b => if Qlt_bool a b then b else a) ts t.

Record TimeDistribution : Type := {
  earliest_anomaly : string;
  latest_anomaly : string;
  anomaly_span_hours : Q
}.

Section Summary.
Context {clock : Clock}.

(** [_analyze_temporal_distribution]; [None] is the empty dictionary. *)
Definition _analyze_temporal_distribution (anomaly_df : table)
  : option TimeDistribution :=
  match map snd (with_time 0 anomaly_df) with
  | [] => None
  | t :: ts =>
      Some {| earliest_anomaly := isoformat (earliest t ts);
              latest_anomaly := isoformat (latest t ts);
              anomaly_span_hours := (latest t ts - earliest t ts) / 3600 |}
  end.

(** [df.iloc[indices]]: the rows at the given offsets, in their order;
    [None] when an offset is out of bounds ([IndexError]). *)
Fixpoint iloc (df : table) (indices : list nat) : option table :=
  match indices with
  | [] => Some []
  | i :: rest =>
      match nth_error df i, iloc df rest with
      | Some r, Some rows => Some (r :: rows)
      | _, _ => None
      end
  end.

Record AnomalySummary : Type := {
  total_anomalies : nat;
  anomaly_rate : Q;
  severity_distribution : list (string * nat);
  common_patterns : list (string * nat);
  time_distribution : option TimeDistribution
}.

(** [get_anomaly_summary]; [None] when [iloc] raises.  In the short answer
    for no index or no row, the dictionary has no [time_distribution] key. *)
Definition get_anomaly_summary (df : table) (anomaly_indices : list nat)
  : option AnomalySummary :=
  match anomaly_indices, df with
  | [], _ | _, [] =>
      Some {| total_anomalies := 0; anomaly_rate := 0;
              severity_distribution := []; common_patterns := [];
              time_distribution := None |}
  | _, _ =>
      match iloc df anomaly_indices with
      | None => None
      | Some anomaly_df =>
          Some {| total_anomalies := List.length anomaly_indices;
                  anomaly_rate :=
                    percent (List.length anomaly_indices) (List.length df);
                  severity_distribution :=
                    value_counts (map severity anomaly_df);
                  common_patterns :=
                    _find_common_patterns (map message anomaly_df) 5;
                  time_distribution :=
                    _analyze_temporal_distribution anomaly_df |}
      end
  end.

End Summary.

End Reports.

(** ** Auxiliary notions of the statements and proofs *)

Module Aux.
Import Text Re Parser.

(** The numbers, counted from [k], of the lines that are not blank. *)
Definition numbers_of (k : nat) (lines : list string) : list nat :=
  map fst (filter (fun p => negb (is_blank (snd p))) (enumerate k lines)).

(** The numbers of the lines of a text that are not blank, as a reader of
    the text counts them. *)
Definition original_numbers (s : string) : list nat :=
  numbers_of 1 (split_nl s).

(** The blank lines a text starts with: the newlines of its leading
    whitespace. *)
Fixpoint leading_blank_lines (s : string) : nat :=
  match s with
  | "" => 0
  | String c s' =>
      if isspace c
      then (if is_newline c then 1 else 0) + leading_blank_lines s'
      else 0
  end.

(** Whether the first line of a text holds a character that is not
    whitespace, and the numbers of its later lines that do, the first line
    being line [k]. *)
Definition profile (k : nat) (s : string) : bool * list nat :=
  match split_nl s with
  | l :: ls => (negb (all_space l), numbers_of (S k) ls)
  | [] => (false, [])
  end.

Fixpoint no_newline (s : string) : bool :=
  match s with
  | "" => true
  | String c s' => negb (is_newline c) && no_newline s'
  end.

(** Patterns that cannot match the empty text. *)
Fixpoint consumes (r : regex) : bool :=
  match r with
  | Chr _ => true
  | Seq r1 r2 => consumes r1 || consumes r2
  | Alt r1 r2 => consumes r1 && consumes r2
  | Group _ r1 => consumes r1
  | Eps | Star _ | Backref _ => false
  end.

(** Every match of [r] goes through the group [g]. *)
Fixpoint sets (g : string) (r : regex) : bool :=
  match r with
  | Seq r1 r2 => sets g r1 || sets g r2
  | Alt r1 r2 => sets g r1 && sets g r2
  | Group g' r1 => (g' =? g)%string || sets g r1
  | Eps | Chr _ | Star _ | Backref _ => false
  end.

(** No group [g] of [r] can capture the empty text. *)
Fixpoint good (g : string) (r : regex) : bool :=
  match r with
  | Seq r1 r2 | Alt r1 r2 => good g r1 && good g r2
  | Star r1 => good g r1
  | Group g' r1 => (negb (g' =? g)%string || consumes r1) && good g r1
  | Eps | Chr _ | Backref _ => true
  end.

(** The group [g] holds a text that is not empty. *)
Definition bound (g : string) (e : env) : Prop :=
  exists t, lookup g e = Some t /\ t <> "".

(** A pattern whose severity group, if it has one, is always set, and to a
    text that is not empty. *)
Definition severity_ok (r : regex) : bool :=
  (good "severity" r && sets "severity" r)
  || negb (existsb (String.eqb "severity") (names r)).

(** The entry holds a severity token, and it is not empty. *)
Definition has_token (e : dict) : Prop :=
  exists tok, cell_text e "severity" = Some tok /\ tok <> "".

Definition in_list (x : string) (xs : list string) : bool :=
  existsb (fun k => (k =? x)%string) xs.

(** The normalization table in the words of the specification, on a token
    already in upper case. *)
Definition spec_table (t : string) : string :=
  if in_list t ["FATAL"; "CRITICAL"] then "FATAL"
  else if in_list t ["ERROR"; "ERR"] then "ERROR"
  else if in_list t ["WARN"; "WARNING"] then "WARNING"
  else if in_list t ["INFO"; "INFORMATION"; "NOTICE"; "TEST"; "REST";
                     "JSON"; "RAW"] then "INFO"
  else if in_list t ["DEBUG"; "TRACE"] then "DEBUG"
  else t.

(** Severity normalization as the specification words it: keys without
    regard to case, unlisted tokens in upper case and otherwise unchanged. *)
Definition spec_normalize (token : string) : string := spec_table (upper token).

(** The cells on which the epoch branch of the coercion meets a number that
    does not fit the platform's [time_t]. *)
Definition overflows (cell : option string) : bool :=
  match cell with
  | Some (String _ _ as raw) =>
      let s := strip raw in
      isdigit s && match int s with
                   | Returned n => (2 ^ 63 <=? n)%N
                   | Raised _ => false
                   end
  | _ => false
  end.

(** A date library that reads nothing, for closed examples. *)
Definition blind : DateLib :=
  {| strptime := fun _ _ => None;
     to_datetime := fun _ => None;
     utcoffset := fun _ => 0%Z;
     utcoffset_bound := fun _ => eq_refl |}.

Definition nl : string := String newline "".

(** The line matches none of the six patterns that come before the
    fallback. *)
Definition matches_only_fallback (line : string) : Prop :=
  forall name pattern,
    In (name, pattern) patterns -> name <> "fallback" ->
    re_match true pattern line = None.

(** The record of a line that only the fallback pattern matches. *)
Definition fallback_record (line : string) (line_num : nat) : LogRecord :=
  {| timestamp := None;
     severity := Some "INFO";
     source := "unknown";
     message := Some line;
     line_number := line_num;
     has_timestamp := false;
     message_length := Some (String.length line);
     word_count := Some (List.length (split_ws line));
     pattern_used := "fallback";
     raw_line := line |}.

(** Closed examples. *)
Definition gibberish : string := "###???***".

Definition leading_blanks : string :=
  nl ++ nl ++ "first" ++ nl ++ nl ++ "second".

Definition sample_log : string :=
  "WARN disk almost full" ++ nl
  ++ "2023-01-01 12:00:00 [critical] db: connection refused" ++ nl
  ++ "   " ++ nl
  ++ "Jan  1 12:00:00 host quux: odd" ++ nl
  ++ gibberish.

Definition sample_table : list LogRecord :=
  Eval vm_compute in
    match parse_logs (lib := blind) sample_log with
    | Returned t => t
    | Raised _ => []
    end.

Definition huge_epoch : string := "99999999999999999999".

Definition huge_epoch_line : string := "host 10.0.0.1 99999999999999999999 INFO 1".

(** Two lines, the second with that epoch. *)
Definition good_then_huge : string :=
  "INFO all good" ++ nl ++ huge_epoch_line.

End Aux.

Module DetectorAux.
Import Text Re Parser Detector Aux.

Local Open Scope Q_scope.

Definition key (xs : list Q) (i : nat) : Q := nth i xs 0.

(** What the detector relies on from [np.argsort]: the indices of the
    vector, each once, in an order in which the keys never decrease. *)
Record argsort_spec (sorting : Sorting) : Prop := {
  argsort_perm :
    forall xs, Permutation (argsort xs) (seq 0 (List.length xs));
  argsort_sorted :
    forall xs, StronglySorted (fun i j => key xs i <= key xs j) (argsort xs)
}.

(** One sort that meets it: insertion, equal keys in the order of their
    indices. *)
Fixpoint insert_index (xs : list Q) (i : nat) (p : list nat) : list nat :=
  match p with
  | [] => [i]
  | j :: p' =>
      if Qle_bool (key xs i) (key xs j) then i :: p
      else j :: insert_index xs i p'
  end.

Definition stable_argsort (xs : list Q) : list nat :=
  fold_right (insert_index xs) [] (seq 0 (List.length xs)).

Definition stable : Sorting := {| argsort := stable_argsort |}.

(** Models that find no outlier, and models whose text clustering leaves
    every message as noise. *)
Definition quiet : Models :=
  {| statistical_model := fun _ => Some (fun _ => false);
     text_model := fun _ => Some (fun _ => false) |}.

Definition loud : Models :=
  {| statistical_model := fun _ => Some (fun _ => false);
     text_model := fun _ => Some (fun _ => true) |}.

(** The observed frequency of a severity: count over total. *)
Definition frequency (sev : string) (df : table) : Q :=
  of_nat (count_severity sev df) / of_nat (List.length df).

(** The expected band of a severity, as the specification lists them:
    ERROR in [0.001, 0.1], FATAL in [0.0001, 0.05], WARNING in [0.01, 0.3],
    INFO in [0.3, 0.95], DEBUG in [0, 0.5]; no other severity has one. *)
Definition spec_band (sev : string) : option (Q * Q) :=
  if (sev =? "ERROR")%string then Some (1 # 1000, 1 # 10)
  else if (sev =? "FATAL")%string then Some (1 # 10000, 5 # 100)
  else if (sev =? "WARNING")%string then Some (1 # 100, 3 # 10)
  else if (sev =? "INFO")%string then Some (3 # 10, 95 # 100)
  else if (sev =? "DEBUG")%string then Some (0, 5 # 10)
  else None.

(** The severity is one of the five with an expected band, and its frequency
    lies outside the band. *)
Definition band_violated (sev : string) (df : table) : bool :=
  match spec_band sev with
  | Some (lo, hi) =>
      Qlt_bool (frequency sev df) lo || Qlt_bool hi (frequency sev df)
  | None => false
  end.

(** The score the specification gives a record in the severity method. *)
Definition spec_severity_score (df : table) (r : LogRecord) : Q :=
  match severity r with
  | Some sev =>
      if Qlt_bool (frequency sev df) (1 # 100) then 1
      else if band_violated sev df then 5 # 10
      else 0
  | None => 0
  end.

(** The value one cell takes through the loop over [expected_ranges], for a
    record of severity [s] and frequency [f]. *)
Definition band_step (s : string) (f : Q) (v : Q) (item : string * (Q * Q)) : Q :=
  let '(sev, (min_freq, max_freq)) := item in
  if (sev =? s)%string && (Qlt_bool f min_freq || Qlt_bool max_freq f)
  then 5 # 10 else v.

Definition record (ts : option instant) (sev msg : string) (n : nat)
  : LogRecord :=
  {| timestamp := ts;
     severity := Some sev;
     source := "unknown";
     message := Some msg;
     line_number := n;
     has_timestamp := match ts with Some _ => true | None => false end;
     message_length := Some (String.length msg);
     word_count := Some (List.length (split_ws msg));
     pattern_used := "fallback";
     raw_line := msg |}.

(** Ten records, one a second, each with its timestamp. *)
Definition ten_timed : table :=
  map (fun i => record (Some (of_nat i)) "INFO" "heartbeat ok" (S i)) (seq 0 10).

Definition nine_alarms : table :=
  map (fun i => record None "ERROR" "unauthorized access" (S i)) (seq 0 9).

Definition ten_alarms : table :=
  map (fun i => record None "INFO" "unauthorized access" (S i)) (seq 0 10).

(** Two hundred records, the last one FATAL, the others INFO. *)
Definition one_fatal_in_200 : table :=
  map (fun i => record None (if (i =? 199)%nat then "FATAL" else "INFO")
                       "request served" (S i)) (seq 0 200).

(** Ten records, ERROR on the first five and INFO on the others. *)
Definition half_errors : table :=
  map (fun i => record None (if (i <? 5)%nat then "ERROR" else "INFO")
                       "request served" (S i)) (seq 0 10).

(** Ten records, the first with a severity that has no expected band. *)
Definition one_audit_in_10 : table :=
  map (fun i => record None (if (i =? 0)%nat then "AUDIT" else "INFO")
                       "request served" (S i)) (seq 0 10).

Definition hundred_alarms : table :=
  map (fun i => record None "INFO" "unauthorized access" (S i)) (seq 0 100).

End DetectorAux.

Module ExtraAux.
Import Text Re Parser Detector Reports Aux DetectorAux.

(** The group [g] took part in the match. *)
Definition isset (g : string) (e : env) : Prop := lookup g e <> None.

(** Texts made of the decimal digits 0 to 9. *)
Fixpoint all_decimal (s : string) : bool :=
  match s with
  | "" => true
  | String c s' => isdecimal c && all_decimal s'
  end.

(** A platform nine hours east of Greenwich, with a date library that reads
    nothing. *)
Definition east : DateLib :=
  {| strptime := fun _ _ => None;
     to_datetime := fun _ => None;
     utcoffset := fun _ => 32400%Z;
     utcoffset_bound := fun _ => eq_refl |}.


(** The last of the formats of [_parse_timestamp], and those before it. *)
Definition java_format : string := "%Y-%m-%d %H:%M:%S,%f".

Definition plain_formats : list string := removelast formats.

(** What a well-formed record of a parsed table holds. *)
Definition well_formed (r : LogRecord) : Prop :=
  In (pattern_used r) (map fst patterns)
  /\ raw_line r <> ""
  /\ strip (raw_line r) = raw_line r
  /\ no_newline (raw_line r) = true
  /\ (exists sev, severity r = Some sev /\ sev <> "")
  /\ (exists msg,
        message r = Some msg /\ strip msg = msg
        /\ message_length r = Some (String.length msg)
        /\ word_count r = Some (List.length (split_ws msg)))
  /\ strip (source r) = source r
  /\ (has_timestamp r = true <-> timestamp r <> None).

Fixpoint total (d : list (string * nat)) : nat :=
  match d with
  | [] => 0
  | (_, c) :: d' => c + total d'
  end.

(** A pattern whose message group, if it has one, takes part in every
    match. *)
Definition message_ok (r : regex) : bool :=
  sets "message" r || negb (existsb (String.eqb "message") (names r)).

(** What an entry of the line parser holds. *)
Definition entry_ok (e : dict) : Prop :=
  (exists name,
      cell_text e "pattern_used" = Some name /\ In name (map fst patterns))
  /\ (exists l,
         cell_text e "raw_line" = Some l
         /\ l <> "" /\ strip l = l /\ no_newline l = true)
  /\ has_token e
  /\ (exists msg, cell_text e "message" = Some msg).

(** The count a mapping holds for a label, 0 for a label it does not hold. *)
Definition cnt (k : string) (d : list (string * nat)) : nat :=
  match lookup k d with
  | Some c => c
  | None => 0
  end.

(** How many cells hold the label. *)
Definition occurrences (k : string) (cells : list (option string)) : nat :=
  List.length (filter (fun cell => match cell with
                                   | Some s => (s =? k)%string
                                   | None => false
                                   end) cells).

Definition positive (d : list (string * nat)) : Prop :=
  forall k c, lookup k d = Some c -> 0 < c.

(** One of the ten suspicious patterns is found in the lower-cased
    message. *)
Definition suspicious (message : string) : bool :=
  existsb (fun pattern => re_search false pattern (lower message))
          suspicious_patterns.

(** The score of a message by the most severe of the checks it fails. *)
Definition priority_score (message : string) : Q :=
  if suspicious message then 7 # 10
  else if re_search false repeated_character message then 4 # 10
  else if (1000 <? String.length message)%nat then 3 # 10
  else if re_search false (Chr NonAscii) message then 2 # 10
  else 0%Q.

(** A vector whose entries are all among the given values. *)
Definition takes (values : list Q) (scores : list Q) : Prop :=
  Forall (fun x => In x values) scores.




(** The number of stacked methods that score the record at offset [i]
    above 0. *)
Definition scoring {models : Models} {sorting : Sorting} (df : table)
  (i : nat) : nat :=
  List.length (filter (Qlt_bool 0)
                      (map (fun column => nth i column 0%Q) (anomaly_scores df))).

(** A clock that writes the seconds of an instant, rounded down. *)
Definition seconds_clock : Clock :=
  {| isoformat := fun t =>
       NilEmpty.string_of_uint (N.to_uint (Z.to_N (Qfloor t))) |}.


(** The words of the messages, lower-cased, in their order, and how often a
    word occurs among them. *)
Definition words_of (messages : list (option string)) : list string :=
  flat_map (fun message => split_ws (lower (str_cell message))) messages.

Definition count_word (w : string) (messages : list (option string)) : nat :=
  occurrences w (map Some (words_of messages)).

(** The lines that count in [parse_logs]: those of the stripped text that
    are not blank. *)
Definition counted_lines (log_content : string) : list string :=
  filter (fun l => negb (is_blank l)) (split_nl (strip log_content)).

Definition matches (line : string) (p : string * regex) : bool :=
  match re_match true (snd p) line with
  | Some _ => true
  | None => false
  end.

(** A line that one of the six patterns before the fallback matches, once
    stripped. *)
Definition structured (line : string) : bool :=
  existsb (matches (strip line)) (removelast patterns).

End ExtraAux.

(** * Properties *)

(** ** Text *)

Module TextFacts.
Import Text Aux.

Lemma newline_isspace (c : ascii) : is_newline c = true -> isspace c = true.
Proof.
  unfold is_newline, is_code, isspace, between.
  intros H. apply N.eqb_eq in H. rewrite H. reflexivity.
Qed.

Lemma rstrip_empty (s : string) : rstrip s = "" <-> all_space s = true.
Proof.
  induction s as [|c s IH]; simpl.
  - tauto.
  - destruct (rstrip s) eqn:E.
    + destruct (isspace c); simpl.
      * tauto.
      * split; discriminate.
    + split; [discriminate|].
      intros H. apply andb_true_iff in H. destruct H as [_ H].
      apply IH in H. discriminate.
Qed.

Lemma all_space_lstrip (s : string) : all_space (lstrip s) = all_space s.
Proof.
  induction s as [|c s IH]; simpl; [reflexivity|].
  destruct (isspace c) eqn:E; simpl; [exact IH|].
  rewrite E. reflexivity.
Qed.

(** [not line.strip()] holds exactly of the lines made of whitespace. *)
Lemma is_blank_all_space (l : string) : is_blank l = all_space l.
Proof.
  unfold is_blank, strip.
  destruct (all_space l) eqn:E.
  - apply String.eqb_eq, rstrip_empty. rewrite all_space_lstrip. exact E.
  - apply String.eqb_neq. intros H. apply rstrip_empty in H.
    rewrite all_space_lstrip in H. congruence.
Qed.

Lemma split_nl_nonempty (s : string) : split_nl s <> [].
Proof.
  destruct s as [|c s]; simpl; [discriminate|].
  destruct (is_newline c); [discriminate|].
  destruct (split_nl s); discriminate.
Qed.

Lemma numbers_of_cons (k : nat) (l : string) (ls : list string) :
  numbers_of k (l :: ls)
  = (if all_space l then [] else [k]) ++ numbers_of (S k) ls.
Proof.
  unfold numbers_of. simpl. rewrite is_blank_all_space.
  destruct (all_space l); reflexivity.
Qed.

Lemma numbers_of_shift (k : nat) (ls : list string) :
  numbers_of (S k) ls = map S (numbers_of k ls).
Proof.
  revert k. induction ls as [|l ls IH]; intros k; [reflexivity|].
  rewrite !numbers_of_cons, map_app, <- IH.
  destruct (all_space l); reflexivity.
Qed.

Lemma count_nonblank_numbers (k : nat) (ls : list string) :
  count_nonblank ls = List.length (numbers_of k ls).
Proof.
  revert k. induction ls as [|l ls IH]; intros k; [reflexivity|].
  rewrite numbers_of_cons, length_app, <- IH.
  unfold count_nonblank. simpl. rewrite is_blank_all_space.
  destruct (all_space l); reflexivity.
Qed.

Lemma numbers_profile (k : nat) (s : string) :
  numbers_of k (split_nl s)
  = (if fst (profile k s) then [k] else []) ++ snd (profile k s).
Proof.
  unfold profile. destruct (split_nl s) as [|l ls] eqn:E.
  - exfalso. exact (split_nl_nonempty s E).
  - rewrite numbers_of_cons. simpl. destruct (all_space l); reflexivity.
Qed.

Lemma profile_String (k : nat) (c : ascii) (s : string) :
  profile k (String c s)
  = if is_newline c
    then (false, numbers_of (S k) (split_nl s))
    else (negb (isspace c) || fst (profile k s), snd (profile k s)).
Proof.
  unfold profile. simpl. destruct (is_newline c) eqn:En; [reflexivity|].
  destruct (split_nl s) as [|l ls] eqn:E.
  - exfalso. exact (split_nl_nonempty s E).
  - simpl. now rewrite negb_andb.
Qed.

Lemma profile_all_space (k : nat) (s : string) :
  all_space s = true -> profile k s = (false, []).
Proof.
  revert k. induction s as [|c s IH]; intros k H; [reflexivity|].
  simpl in H. apply andb_true_iff in H. destruct H as [Hc Hs].
  rewrite profile_String. destruct (is_newline c).
  - now rewrite numbers_profile, (IH (S k) Hs).
  - now rewrite (IH k Hs), Hc.
Qed.

Lemma profile_rstrip (k : nat) (s : string) :
  profile k (rstrip s) = profile k s.
Proof.
  revert k. induction s as [|c s IH]; intros k; [reflexivity|].
  rewrite profile_String. simpl.
  destruct (rstrip s) as [|a r] eqn:E.
  - assert (Hs : all_space s = true) by (apply rstrip_empty; exact E).
    destruct (isspace c) eqn:Ec.
    + destruct (is_newline c).
      * now rewrite numbers_profile, (profile_all_space (S k) s Hs).
      * now rewrite (profile_all_space k s Hs).
    + rewrite profile_String.
      destruct (is_newline c) eqn:En.
      * apply newline_isspace in En. congruence.
      * now rewrite (profile_all_space k s Hs), Ec.
  - rewrite profile_String. destruct (is_newline c).
    + now rewrite !numbers_profile, IH.
    + now rewrite IH.
Qed.

Lemma numbers_rstrip (k : nat) (s : string) :
  numbers_of k (split_nl (rstrip s)) = numbers_of k (split_nl s).
Proof. now rewrite !numbers_profile, profile_rstrip. Qed.

Lemma map_add_0 (l : list nat) : map (Nat.add 0) l = l.
Proof.
  induction l as [|x l IH]; [reflexivity|]. cbn [map]. f_equal. exact IH.
Qed.

Lemma numbers_lstrip (k : nat) (s : string) :
  numbers_of k (split_nl s)
  = map (Nat.add (leading_blank_lines s)) (numbers_of k (split_nl (lstrip s))).
Proof.
  revert k. induction s as [|c s IH]; intros k.
  - simpl leading_blank_lines. now rewrite map_add_0.
  - cbn [lstrip leading_blank_lines].
    destruct (isspace c) eqn:Ec; [|now rewrite map_add_0].
    rewrite (numbers_profile k (String c s)), profile_String.
    destruct (is_newline c); simpl.
    + rewrite numbers_of_shift, IH, map_map. apply map_ext. intros n. lia.
    + rewrite Ec. simpl. rewrite <- numbers_profile. apply IH.
Qed.

(** Stripping a text takes its leading blank lines off the numbers of its
    lines, and changes nothing else in them. *)
Lemma numbers_strip (k : nat) (s : string) :
  numbers_of k (split_nl s)
  = map (Nat.add (leading_blank_lines s)) (numbers_of k (split_nl (strip s))).
Proof. unfold strip. rewrite numbers_rstrip. apply numbers_lstrip. Qed.

(** Stripping a text keeps the number of its lines that are not blank. *)
Lemma count_strip (s : string) :
  count_nonblank (split_nl (strip s)) = count_nonblank (split_nl s).
Proof.
  rewrite !(count_nonblank_numbers 1), (numbers_strip 1 s).
  now rewrite length_map.
Qed.

End TextFacts.

(** ** The matcher *)

Module ReFacts.
Import Text Re Aux TextFacts.

Lemma substring_all (s : string) : substring 0 (String.length s) s = s.
Proof.
  induction s as [|c s IH]; simpl; [reflexivity|]. now rewrite IH.
Qed.

Lemma taken_end (s : string) : taken s "" = s.
Proof.
  unfold taken. simpl. rewrite Nat.sub_0_r. apply substring_all.
Qed.

Lemma taken_nonempty (s s' : string) :
  String.length s' < String.length s -> taken s s' <> "".
Proof.
  unfold taken. intros H.
  destruct (String.length s - String.length s') as [|n] eqn:E; [lia|].
  destruct s as [|c s]; simpl in *; [lia|]. discriminate.
Qed.

Lemma read_length (icase : bool) (t s s' : string) :
  read icase t s = Some s' -> String.length s' <= String.length s.
Proof.
  revert s. induction t as [|a t IH]; intros s H; simpl in H.
  - injection H as <-. lia.
  - destruct s as [|b s]; [discriminate|].
    destruct (same_char icase a b); [|discriminate].
    apply IH in H. simpl. lia.
Qed.

(** The greedy [.*] runs to the end of a line. *)
Lemma star_to_end (body : string -> env -> kont -> option env) (k : kont)
  (x : env) :
  (forall e k', body "" e k' = None) ->
  (forall c s e k', is_newline c = false -> body (String c s) e k' = k' s e) ->
  forall n s e,
    no_newline s = true -> String.length s <= n -> k "" e = Some x ->
    star_loop body k n s e = Some x.
Proof.
  intros Hnil Hcons. induction n as [|n IH]; intros s e Hs Hn Hk.
  - destruct s; simpl in *; [exact Hk|lia].
  - destruct s as [|c s]; simpl.
    + now rewrite Hnil, Hk.
    + simpl in Hs. apply andb_true_iff in Hs. destruct Hs as [Hc Hs].
      apply negb_true_iff in Hc. rewrite (Hcons c s e _ Hc).
      replace (String.length s <? S (String.length s)) with true
        by (symmetry; apply Nat.ltb_lt; lia).
      rewrite (IH s e Hs); [reflexivity| simpl in Hn; lia | exact Hk].
Qed.

(** The fallback pattern matches every line, and its group is the line. *)
Lemma fallback_matches (s : string) :
  no_newline s = true ->
  re_match true Parser.fallback s = Some [("message", s)].
Proof.
  intros Hs. unfold re_match, Parser.fallback, any.
  change (star_loop (m true (Chr Dot))
            (fun s' e' => accept s' (("message", taken s s') :: e'))
            (String.length s) s [] = Some [("message", s)]).
  apply star_to_end; auto.
  - intros c s0 e k' Hc. simpl. now rewrite Hc.
  - unfold accept. now rewrite taken_end.
Qed.

Lemma bound_cons_other (g g' t : string) (e : env) :
  (g' =? g)%string = false -> bound g e -> bound g ((g', t) :: e).
Proof.
  intros Hg [u [Hu Hne]]. exists u. simpl. rewrite Hg. auto.
Qed.

Lemma bound_cons_same (g t : string) (e : env) :
  t <> "" -> bound g ((g, t) :: e).
Proof.
  intros Ht. exists t. simpl. rewrite String.eqb_refl. auto.
Qed.

(** What a successful run of the matcher hands to its continuation. *)
Definition reaches (g : string) (r : regex) (s : string) (e : env)
  (k : kont) (x : env) : Prop :=
  exists s' e',
    k s' e' = Some x
    /\ String.length s' <= String.length s
    /\ (consumes r = true -> String.length s' < String.length s)
    /\ (bound g e -> bound g e')
    /\ (sets g r = true -> bound g e').

Lemma star_loop_reaches (g : string) (r : regex)
  (body : string -> env -> kont -> option env) :
  (forall s e k x, body s e k = Some x -> reaches g r s e k x) ->
  forall k x n s e,
    star_loop body k n s e = Some x -> reaches g (Star r) s e k x.
Proof.
  intros Hbody k x. induction n as [|n IH]; intros s e H; simpl in H.
  - exists s, e. simpl. repeat split; auto; discriminate.
  - destruct (body s e _) as [y|] eqn:E.
    + injection H as ->. apply Hbody in E.
      destruct E as (s1 & e1 & Hk & Hlen & _ & Hb & _).
      destruct (String.length s1 <? String.length s) eqn:Hlt; [|discriminate].
      apply IH in Hk. destruct Hk as (s2 & e2 & Hk & Hlen2 & _ & Hb2 & _).
      exists s2, e2. simpl. repeat split; auto; try discriminate. lia.
    + exists s, e. simpl. repeat split; auto; discriminate.
Qed.

Lemma m_reaches (icase : bool) (g : string) (r : regex) :
  good g r = true ->
  forall s e k x, m icase r s e k = Some x -> reaches g r s e k x.
Proof.
  induction r as [|c|r1 IH1 r2 IH2|r1 IH1 r2 IH2|r1 IH1|g' r1 IH1|g'];
    simpl; intros Hg s e k x H.
  - exists s, e. repeat split; auto; discriminate.
  - destruct s as [|a s]; [discriminate|].
    destruct (cmatch icase c a); [|discriminate].
    exists s, e. simpl. repeat split; auto; try discriminate; lia.
  - apply andb_true_iff in Hg. destruct Hg as [Hg1 Hg2].
    apply (IH1 Hg1) in H. destruct H as (s1 & e1 & H & L1 & C1 & B1 & S1).
    apply (IH2 Hg2) in H. destruct H as (s2 & e2 & H & L2 & C2 & B2 & S2).
    exists s2, e2. repeat split; auto.
    + lia.
    + intros Hc. apply orb_true_iff in Hc. destruct Hc as [Hc|Hc].
      * specialize (C1 Hc). lia.
      * specialize (C2 Hc). lia.
    + intros Hs. apply orb_true_iff in Hs. destruct Hs as [Hs|Hs]; auto.
  - apply andb_true_iff in Hg. destruct Hg as [Hg1 Hg2].
    destruct (m icase r1 s e k) as [y|] eqn:E.
    + injection H as ->. apply (IH1 Hg1) in E.
      destruct E as (s1 & e1 & H & L1 & C1 & B1 & S1).
      exists s1, e1. repeat split; auto.
      * intros Hc. apply andb_true_iff in Hc. tauto.
      * intros Hs. apply andb_true_iff in Hs. tauto.
    + apply (IH2 Hg2) in H.
      destruct H as (s1 & e1 & H & L1 & C1 & B1 & S1).
      exists s1, e1. repeat split; auto.
      * intros Hc. apply andb_true_iff in Hc. tauto.
      * intros Hs. apply andb_true_iff in Hs. tauto.
  - apply (star_loop_reaches g r1 (m icase r1) (IH1 Hg)) in H. exact H.
  - apply andb_true_iff in Hg. destruct Hg as [Hc Hg].
    apply (IH1 Hg) in H. destruct H as (s1 & e1 & H & L1 & C1 & B1 & S1).
    exists s1, ((g', taken s s1) :: e1). repeat split; auto.
    + intros Hb. destruct (g' =? g)%string eqn:Eg.
      * apply String.eqb_eq in Eg. subst g'. apply bound_cons_same.
        apply taken_nonempty. simpl in Hc. auto.
      * apply bound_cons_other; auto.
    + intros Hs. destruct (g' =? g)%string eqn:Eg.
      * apply String.eqb_eq in Eg. subst g'. apply bound_cons_same.
        apply taken_nonempty. simpl in Hc. auto.
      * simpl in Hs. rewrite Eg in Hs. apply bound_cons_other; auto.
  - destruct (lookup g' e) as [t|]; [|discriminate].
    destruct (read icase t s) as [s1|] eqn:E; [|discriminate].
    exists s1, e. repeat split; auto; try discriminate.
    eapply read_length; eauto.
Qed.

(** A match of a pattern that always goes through [g], and never with an
    empty capture, binds [g] to a text that is not empty. *)
Lemma re_match_bound (icase : bool) (g : string) (r : regex) (s : string)
  (e : env) :
  good g r = true -> sets g r = true ->
  re_match icase r s = Some e -> bound g e.
Proof.
  intros Hg Hs H. unfold re_match in H.
  apply (m_reaches icase g r Hg) in H.
  destruct H as (s1 & e1 & H & _ & _ & _ & S1).
  unfold accept in H. injection H as ->. auto.
Qed.

End ReFacts.

(** ** The parser *)

Module ParserFacts.
Import Text Re Parser Aux TextFacts ReFacts.

(** *** Dictionaries *)

Lemma lookup_app {A : Type} (k : string) (d1 d2 : list (string * A)) :
  lookup k (d1 ++ d2)
  = match lookup k d1 with
    | Some v => Some v
    | None => lookup k d2
    end.
Proof.
  induction d1 as [|[k' v] d1 IH]; simpl; [reflexivity|].
  destruct (k' =? k)%string; [reflexivity|exact IH].
Qed.

Lemma lookup_set_other (k k' : string) (v : pyval) (d : dict) :
  (k' =? k)%string = false -> lookup k (dict_set k' v d) = lookup k d.
Proof.
  intros Hk. induction d as [|[k2 v2] d IH]; simpl.
  - now rewrite Hk.
  - destruct (k2 =? k')%string eqn:E; simpl.
    + apply String.eqb_eq in E. subst k2. now rewrite Hk.
    + now rewrite IH.
Qed.

Lemma lookup_set_same (k : string) (v : pyval) (d : dict) :
  lookup k (dict_set k v d) = Some v.
Proof.
  induction d as [|[k2 v2] d IH]; simpl.
  - now rewrite String.eqb_refl.
  - destruct (k2 =? k)%string eqn:E; simpl; rewrite E; auto.
Qed.

Lemma lookup_setdefault_other (k k' : string) (v : pyval) (d : dict) :
  (k' =? k)%string = false -> lookup k (dict_setdefault k' v d) = lookup k d.
Proof.
  intros Hk. unfold dict_setdefault.
  destruct (lookup k' d); [reflexivity|].
  rewrite lookup_app. simpl. rewrite Hk. now destruct (lookup k d).
Qed.

Lemma lookup_setdefault_same (k : string) (v : pyval) (d : dict) :
  lookup k (dict_setdefault k v d)
  = Some (match lookup k d with
          | Some x => x
          | None => v
          end).
Proof.
  unfold dict_setdefault. destruct (lookup k d) eqn:E; [exact E|].
  rewrite lookup_app, E. simpl. now rewrite String.eqb_refl.
Qed.

Lemma dict_set_nonempty (k : string) (v : pyval) (d : dict) :
  dict_set k v d <> [].
Proof.
  destruct d as [|[k' v'] d]; simpl; [discriminate|].
  destruct (k' =? k)%string; discriminate.
Qed.

Lemma dict_setdefault_nonempty (k : string) (v : pyval) (d : dict) :
  d <> [] -> dict_setdefault k v d <> [].
Proof.
  unfold dict_setdefault. intros Hd. destruct (lookup k d); [exact Hd|].
  destruct d; [congruence|discriminate].
Qed.

(** *** Entries *)

Lemma build_entry_nonempty (name line : string) (n : nat) (gd : dict) :
  build_entry name line n gd <> [].
Proof.
  unfold build_entry. repeat apply dict_setdefault_nonempty.
  destruct (name =? "custom_domain")%string; apply dict_set_nonempty.
Qed.

(** The severity cell of an entry is the capture of the severity group, or
    the default when the pattern has no such group. *)
Lemma build_entry_severity (name line : string) (n : nat) (gd : dict) :
  lookup "severity" (build_entry name line n gd)
  = Some (match lookup "severity" gd with
          | Some v => v
          | None => PStr "INFO"
          end).
Proof.
  unfold build_entry.
  rewrite 2 lookup_setdefault_other by reflexivity.
  rewrite lookup_setdefault_same.
  rewrite lookup_setdefault_other by reflexivity.
  destruct (name =? "custom_domain")%string;
    now rewrite ?lookup_set_other by reflexivity.
Qed.

Lemma build_entry_line_number (name line : string) (n : nat) (gd : dict) :
  lookup "line_number" (build_entry name line n gd) = Some (PInt n).
Proof.
  unfold build_entry.
  rewrite 4 lookup_setdefault_other by reflexivity.
  destruct (name =? "custom_domain")%string;
    rewrite ?lookup_set_other by reflexivity; apply lookup_set_same.
Qed.

Lemma lookup_groupdict_in (g : string) (r : regex) (e : env) :
  In g (names r) ->
  lookup g (groupdict r e)
  = Some (match lookup g e with
          | Some t => PStr t
          | None => PNone
          end).
Proof.
  unfold groupdict. induction (names r) as [|g' gs IH]; simpl; [tauto|].
  intros [->|Hin].
  - now rewrite String.eqb_refl.
  - destruct (g' =? g)%string eqn:E; [|auto].
    apply String.eqb_eq in E. now subst g'.
Qed.

Lemma lookup_groupdict_out (g : string) (r : regex) (e : env) :
  existsb (String.eqb g) (names r) = false -> lookup g (groupdict r e) = None.
Proof.
  unfold groupdict. induction (names r) as [|g' gs IH]; simpl; [reflexivity|].
  intros H. apply orb_false_iff in H. destruct H as [H1 H2].
  rewrite String.eqb_sym, H1. auto.
Qed.

Lemma sets_names (g : string) (r : regex) : sets g r = true -> In g (names r).
Proof.
  induction r as [|c|r1 IH1 r2 IH2|r1 IH1 r2 IH2|r1 IH1|g' r1 IH1|g'];
    simpl; try discriminate.
  - intros H. apply orb_true_iff in H. apply in_or_app. tauto.
  - intros H. apply andb_true_iff in H. apply in_or_app. tauto.
  - intros H. apply orb_true_iff in H. destruct H as [H|H]; [|auto].
    apply String.eqb_eq in H. auto.
Qed.

Lemma severity_ok_patterns :
  Forall (fun p => severity_ok (snd p) = true) patterns.
Proof. repeat constructor. Qed.

Lemma matched_entry_token (name line l : string) (n : nat) (r : regex)
  (e : env) :
  severity_ok r = true -> re_match true r l = Some e ->
  has_token (build_entry name line n (groupdict r e)).
Proof.
  intros Hok Hm. unfold has_token, cell_text. rewrite build_entry_severity.
  unfold severity_ok in Hok. apply orb_true_iff in Hok.
  destruct Hok as [Hok|Hok].
  - apply andb_true_iff in Hok. destruct Hok as [Hg Hs].
    destruct (re_match_bound true "severity" r l e Hg Hs Hm) as [t [Ht Hne]].
    rewrite (lookup_groupdict_in "severity" r e (sets_names _ _ Hs)), Ht.
    exists t. auto.
  - apply negb_true_iff in Hok. rewrite (lookup_groupdict_out _ _ _ Hok).
    exists "INFO". split; [reflexivity|discriminate].
Qed.

Lemma try_patterns_token (ps : list (string * regex)) (line : string)
  (n : nat) (entry : dict) :
  Forall (fun p => severity_ok (snd p) = true) ps ->
  try_patterns ps line n = Some entry -> has_token entry.
Proof.
  induction ps as [|[name r] ps IH]; simpl; intros Hok H; [discriminate|].
  inversion Hok as [|p ps' Hr Hps]; subst. simpl in Hr.
  destruct (re_match true r line) as [e|] eqn:E.
  - injection H as <-. eapply matched_entry_token; eauto.
  - auto.
Qed.

Lemma try_patterns_nonempty (ps : list (string * regex)) (line : string)
  (n : nat) (entry : dict) :
  try_patterns ps line n = Some entry -> entry <> [].
Proof.
  induction ps as [|[name r] ps IH]; simpl; intros H; [discriminate|].
  destruct (re_match true r line); [|auto].
  injection H as <-. apply build_entry_nonempty.
Qed.

Lemma try_patterns_line_number (ps : list (string * regex)) (line : string)
  (n : nat) (entry : dict) :
  try_patterns ps line n = Some entry -> cell_nat entry "line_number" = n.
Proof.
  induction ps as [|[name r] ps IH]; simpl; intros H; [discriminate|].
  destruct (re_match true r line) as [e|]; [|auto].
  injection H as <-. unfold cell_nat. now rewrite build_entry_line_number.
Qed.

(** The line parser answers every line that is not blank, with one entry
    that carries the line number it was given and a severity token. *)
Lemma parse_single_line_some (line : string) (n : nat) :
  is_blank line = false ->
  exists entry,
    _parse_single_line line n = Some entry
    /\ entry <> [] /\ has_token entry /\ cell_nat entry "line_number" = n.
Proof.
  intros Hb. unfold _parse_single_line. unfold is_blank in Hb. rewrite Hb.
  destruct (try_patterns patterns (strip line) n) as [entry|] eqn:E.
  - exists entry. repeat split.
    + eapply try_patterns_nonempty; eauto.
    + exact (try_patterns_token _ _ _ _ severity_ok_patterns E).
    + eapply try_patterns_line_number; eauto.
  - exists (basic_entry (strip line) n). repeat split.
    + discriminate.
    + exists "INFO". split; [reflexivity|discriminate].
Qed.

Lemma parse_lines_length (k : nat) (lines : list string) :
  List.length (parse_lines (enumerate k lines)) = count_nonblank lines.
Proof.
  revert k. induction lines as [|l lines IH]; intros k; [reflexivity|].
  simpl. unfold count_nonblank. simpl.
  destruct (is_blank l) eqn:Hb; simpl.
  - apply IH.
  - destruct (parse_single_line_some l k Hb) as (e & He & Hne & _).
    rewrite He. destruct e; [congruence|]. simpl. f_equal. apply IH.
Qed.

Lemma parse_lines_token (lines : list (nat * string)) :
  Forall has_token (parse_lines lines).
Proof.
  induction lines as [|[k l] lines IH]; simpl; [constructor|].
  destruct (is_blank l) eqn:Hb; [exact IH|].
  destruct (parse_single_line_some l k Hb) as (e & He & Hne & Ht & _).
  rewrite He. destruct e; [congruence|]. constructor; auto.
Qed.

(** Every line of the text that is not blank gives one entry. *)
Lemma parsed_entries_length (log_content : string) :
  List.length (parsed_entries log_content)
  = count_nonblank (split_nl log_content).
Proof.
  unfold parsed_entries. rewrite parse_lines_length. apply count_strip.
Qed.

(** *** Stripping *)

Lemma rstrip_idem (s : string) : rstrip (rstrip s) = rstrip s.
Proof.
  induction s as [|c s IH]; simpl; [reflexivity|].
  destruct (rstrip s) as [|a r] eqn:E.
  - destruct (isspace c) eqn:Ec; simpl; [reflexivity|]. now rewrite Ec.
  - simpl in *. now rewrite IH.
Qed.

Lemma lstrip_fixed (s : string) :
  match s with
  | "" => True
  | String c _ => isspace c = false
  end -> lstrip s = s.
Proof.
  destruct s as [|c s]; simpl; [reflexivity|]. now intros ->.
Qed.

Lemma lstrip_head (s : string) :
  match lstrip s with
  | "" => True
  | String c _ => isspace c = false
  end.
Proof.
  induction s as [|c s IH]; simpl; [exact I|].
  destruct (isspace c) eqn:E; [exact IH|exact E].
Qed.

Lemma rstrip_head (s : string) :
  match s with
  | "" => True
  | String c _ => isspace c = false
  end ->
  match rstrip s with
  | "" => True
  | String c _ => isspace c = false
  end.
Proof.
  destruct s as [|c s]; simpl; [auto|]. intros Hc.
  destruct (rstrip s); [rewrite Hc|]; exact Hc.
Qed.

(** [strip] is idempotent. *)
Lemma strip_idem (s : string) : strip (strip s) = strip s.
Proof.
  unfold strip.
  rewrite (lstrip_fixed (rstrip (lstrip s)))
    by (apply rstrip_head, lstrip_head).
  apply rstrip_idem.
Qed.

Lemma no_newline_lstrip (s : string) :
  no_newline s = true -> no_newline (lstrip s) = true.
Proof.
  induction s as [|c s IH]; simpl; [auto|]. intros H.
  destruct (isspace c); [|exact H].
  apply andb_true_iff in H. tauto.
Qed.

Lemma no_newline_rstrip (s : string) :
  no_newline s = true -> no_newline (rstrip s) = true.
Proof.
  induction s as [|c s IH]; simpl; [auto|]. intros H.
  apply andb_true_iff in H. destruct H as [Hc Hs].
  destruct (rstrip s) as [|a r] eqn:E.
  - destruct (isspace c); simpl; [reflexivity|]. now rewrite Hc.
  - simpl. rewrite Hc. simpl. apply (IH Hs).
Qed.

Lemma no_newline_strip (s : string) :
  no_newline s = true -> no_newline (strip s) = true.
Proof. intros H. apply no_newline_rstrip, no_newline_lstrip, H. Qed.

(** The lines of a split text hold no newline. *)
Lemma split_nl_no_newline (s : string) :
  Forall (fun l => no_newline l = true) (split_nl s).
Proof.
  induction s as [|c s IH]; simpl.
  - repeat constructor.
  - destruct (is_newline c) eqn:Ec.
    + constructor; [reflexivity|exact IH].
    + destruct (split_nl s) as [|l ls].
      * repeat constructor. simpl. now rewrite Ec.
      * inversion IH; subst. constructor; [|assumption].
        simpl. now rewrite Ec.
Qed.

(** *** The fallback *)

Lemma fallback_entry (l : string) (n : nat) :
  build_entry "fallback" l n (groupdict fallback [("message", l)])
  = [("message", PStr l); ("line_number", PInt n); ("raw_line", PStr l);
     ("pattern_used", PStr "fallback"); ("timestamp", PNone);
     ("severity", PStr "INFO"); ("source", PStr "unknown")].
Proof. reflexivity. Qed.

Lemma try_patterns_fallback (l : string) (n : nat) :
  no_newline l = true -> matches_only_fallback l ->
  try_patterns patterns l n
  = Some (build_entry "fallback" l n (groupdict fallback [("message", l)])).
Proof.
  intros Hl H. unfold patterns. cbn [try_patterns].
  rewrite (H "custom_domain" custom_domain) by (simpl; intuition discriminate).
  rewrite (H "standard" standard) by (simpl; intuition discriminate).
  rewrite (H "apache" apache) by (simpl; intuition discriminate).
  rewrite (H "syslog" syslog) by (simpl; intuition discriminate).
  rewrite (H "java" java) by (simpl; intuition discriminate).
  rewrite (H "simple" simple) by (simpl; intuition discriminate).
  now rewrite (fallback_matches l Hl).
Qed.

Section WithLib.
Context {lib : DateLib}.

Lemma fallback_row (l : string) (n : nat) :
  post_process_row
    [("message", PStr l); ("line_number", PInt n); ("raw_line", PStr l);
     ("pattern_used", PStr "fallback"); ("timestamp", PNone);
     ("severity", PStr "INFO"); ("source", PStr "unknown")] None
  = {| timestamp := None;
       severity := Some "INFO";
       source := "unknown";
       message := Some (strip l);
       line_number := n;
       has_timestamp := false;
       message_length := Some (String.length (strip l));
       word_count := Some (List.length (split_ws (strip l)));
       pattern_used := "fallback";
       raw_line := l |}.
Proof. reflexivity. Qed.

(** *** Timestamps *)

(** An epoch whose local reading is not past the year 9999 is returned; so
    is, whatever the platform, one that is 25 hours or more before the end
    of that year in UTC. *)
Lemma fromtimestamp_local (n : N) :
  (Z.of_N n + utcoffset (Z.of_N n) <= 253402300799)%Z ->
  fromtimestamp n = Returned (inject_Z (Z.of_N n)).
Proof.
  intros H. unfold fromtimestamp.
  pose proof (utcoffset_bound (Z.of_N n)) as Hb. apply Z.ltb_lt in Hb.
  replace (2 ^ 63 <=? n)%N with false.
  - now replace (253402300799 <? _)%Z with false
      by (symmetry; apply Z.ltb_ge; exact H).
  - symmetry. apply N.leb_gt.
    change (2 ^ 63)%N with 9223372036854775808%N. lia.
Qed.

Lemma fromtimestamp_safe (n : N) :
  (n <= 253402210799)%N -> fromtimestamp n = Returned (inject_Z (Z.of_N n)).
Proof.
  intros H. apply fromtimestamp_local.
  pose proof (utcoffset_bound (Z.of_N n)) as Hb. apply Z.ltb_lt in Hb. lia.
Qed.

Lemma parse_timestamp_overflow (cell : option string) :
  overflows cell = true -> _parse_timestamp cell = Raised OverflowError.
Proof.
  destruct cell as [[|c raw]|]; try discriminate.
  unfold overflows, _parse_timestamp.
  destruct (isdigit (strip (String c raw))); [|discriminate].
  unfold int, bind, fromtimestamp. cbn [andb].
  destruct (4300 <? _); [discriminate|].
  destruct (digits_value 0 _) as [v|]; [|discriminate].
  now intros ->.
Qed.

(** Away from the overflow, the coercion returns. *)
Lemma parse_timestamp_returns (cell : option string) :
  overflows cell = false -> exists r, _parse_timestamp cell = Returned r.
Proof.
  destruct cell as [[|c raw]|]; try (eexists; reflexivity).
  unfold overflows, _parse_timestamp.
  destruct (isdigit (strip (String c raw))); [|eexists; reflexivity].
  unfold int, bind, fromtimestamp. cbn [andb].
  destruct (4300 <? _); [eexists; reflexivity|].
  destruct (digits_value 0 _) as [v|]; [|eexists; reflexivity].
  intros ->. destruct (253402300799 <? _)%Z; eexists; reflexivity.
Qed.

(** One cell that overflows ends the coercion of the column, and the call
    with it. *)
Lemma apply_parse_timestamp_raises (entries : list dict) :
  Exists (fun e => overflows (cell_text e "timestamp") = true) entries ->
  apply_parse_timestamp entries = Raised OverflowError.
Proof.
  induction entries as [|e entries IH]; intros H; [inversion H|].
  cbn [apply_parse_timestamp].
  destruct (overflows (cell_text e "timestamp")) eqn:E.
  - now rewrite (parse_timestamp_overflow _ E).
  - destruct (parse_timestamp_returns _ E) as [ts ->]. cbn [bind].
    inversion H as [? ? Hh|? ? Ht]; subst; [congruence|].
    now rewrite (IH Ht).
Qed.

Lemma parse_logs_raises (log_content : string) :
  Exists (fun e => overflows (cell_text e "timestamp") = true)
         (parsed_entries log_content) ->
  parse_logs log_content = Raised OverflowError.
Proof.
  intros H. unfold parse_logs.
  destruct (parsed_entries log_content) as [|e entries]; [inversion H|].
  unfold _post_process_dataframe.
  now rewrite (apply_parse_timestamp_raises _ H).
Qed.

Lemma apply_parse_timestamp_length (entries : list dict)
  (tss : list (option instant)) :
  apply_parse_timestamp entries = Returned tss ->
  List.length tss = List.length entries.
Proof.
  revert tss. induction entries as [|e es IH]; simpl; intros tss H.
  - now injection H as <-.
  - destruct (_parse_timestamp _); [|discriminate]. simpl in H.
    destruct (apply_parse_timestamp es) as [tss'|]; [|discriminate].
    simpl in H. injection H as <-. simpl. f_equal. now apply IH.
Qed.

Lemma apply_parse_timestamp_returns (entries : list dict) :
  Forall (fun e => overflows (cell_text e "timestamp") = false) entries ->
  exists tss, apply_parse_timestamp entries = Returned tss.
Proof.
  induction 1 as [|e es He _ [tss IH]]; simpl.
  - eexists; reflexivity.
  - destruct (parse_timestamp_returns _ He) as [r ->]. simpl.
    rewrite IH. simpl. eexists; reflexivity.
Qed.

(** *** The table *)

Lemma post_process_rows (entries : list dict) (t : list LogRecord) :
  _post_process_dataframe entries = Returned t ->
  Forall2 (fun e r => exists ts, r = post_process_row e ts) entries t.
Proof.
  unfold _post_process_dataframe.
  destruct (apply_parse_timestamp entries) as [tss|] eqn:E; [|discriminate].
  simpl. intros H. injection H as <-.
  apply apply_parse_timestamp_length in E. clear -E.
  revert tss E. induction entries as [|e es IH]; intros [|ts tss] E;
    simpl in *; try discriminate; constructor.
  - now exists ts.
  - apply IH. lia.
Qed.

Lemma parse_logs_rows (log_content : string) (t : list LogRecord) :
  parse_logs log_content = Returned t ->
  Forall2 (fun e r => exists ts, r = post_process_row e ts)
          (parsed_entries log_content) t.
Proof.
  unfold parse_logs. destruct (parsed_entries log_content) as [|e es] eqn:E.
  - intros H. injection H as <-. constructor.
  - apply post_process_rows.
Qed.

Lemma parse_logs_returns (log_content : string) :
  Forall (fun e => overflows (cell_text e "timestamp") = false)
         (parsed_entries log_content) ->
  exists t, parse_logs log_content = Returned t.
Proof.
  intros H. unfold parse_logs.
  destruct (parsed_entries log_content) as [|e es] eqn:E.
  - eexists; reflexivity.
  - unfold _post_process_dataframe.
    destruct (apply_parse_timestamp_returns _ H) as [tss ->].
    simpl. eexists; reflexivity.
Qed.

(** *** Severity normalization *)

Lemma upper_nonempty (tok : string) : tok <> "" -> upper tok <> "".
Proof.
  destruct tok as [|c tok]; [congruence|]. intros _. simpl.
  unfold upper_char.
  destruct (_ || _); [discriminate|]. destruct (is_code 223 c); discriminate.
Qed.

Lemma map_severity_table (u : string) : u <> "" -> map_severity u = spec_table u.
Proof.
  intros Hu. unfold map_severity.
  rewrite (proj2 (String.eqb_neq u "") Hu).
  unfold spec_table, in_list, severity_mapping.
  cbv beta iota delta [lookup existsb].
  repeat match goal with
         | |- context [String.eqb ?a u] =>
             destruct (String.eqb_spec a u) as [?|?];
             [subst u; reflexivity|]
         end.
  reflexivity.
Qed.

Lemma normalize_severity_spec (tok : string) :
  tok <> "" -> normalize_severity (Some tok) = Some (spec_normalize tok).
Proof.
  intros H. unfold normalize_severity, spec_normalize. simpl.
  now rewrite map_severity_table by now apply upper_nonempty.
Qed.

End WithLib.

End ParserFacts.

(** ** The claims on the parser *)

Module ParserClaims.
Import Text Re Parser Aux TextFacts ReFacts ParserFacts.

(** The numbers of the entries are the numbers of the lines they come from,
    blank lines counted. *)
Lemma parse_lines_numbers (k : nat) (lines : list string) :
  map (fun e => cell_nat e "line_number") (parse_lines (enumerate k lines))
  = numbers_of k lines.
Proof.
  unfold numbers_of. revert k.
  induction lines as [|l lines IH]; intros k; [reflexivity|].
  simpl. destruct (is_blank l) eqn:Hb; simpl; [apply IH|].
  destruct (parse_single_line_some l k Hb) as (e & He & Hne & _ & Hn).
  rewrite He. destruct e as [|x e]; [congruence|].
  simpl map. rewrite Hn. f_equal. apply IH.
Qed.

Lemma table_numbers {lib : DateLib} (log_content : string)
  (t : list LogRecord) :
  parse_logs log_content = Returned t ->
  map line_number t
  = map (fun e => cell_nat e "line_number") (parsed_entries log_content).
Proof.
  intros H. apply parse_logs_rows in H.
  induction H as [|e r es rs [ts ->] _ IH]; [reflexivity|].
  simpl. now rewrite IH.
Qed.

(** C1, as the specification states it, fails on a text that starts with
    blank lines: the records of the third and the fifth line are numbered 1
    and 3. *)
Lemma C1_counterexample :
  exists t,
    parse_logs (lib := blind) leading_blanks = Returned t
    /\ original_numbers leading_blanks = [3; 5]
    /\ map line_number t = [1; 3]
    /\ map line_number t <> original_numbers leading_blanks.
Proof.
  exists [fallback_record "first" 1; fallback_record "second" 3].
  repeat split; try (vm_compute; reflexivity). vm_compute. discriminate.
Qed.

(** C1, amended.  The whole text is stripped before it is split, and every
    record carries the position of its line in the stripped text, blank
    lines counted: a blank line inside the text leaves a gap in the numbers,
    the blank lines the text starts with are not counted.  The original
    position of a line is its number plus the count of leading blank lines,
    and is the number itself when the text starts with no blank line. *)
Theorem C1_numbers_follow_stripped_text {lib : DateLib}
  (log_content : string) :
  map (fun e => cell_nat e "line_number") (parsed_entries log_content)
  = numbers_of 1 (split_nl (strip log_content))
  /\ (forall t,
         parse_logs log_content = Returned t ->
         map line_number t = numbers_of 1 (split_nl (strip log_content))
         /\ original_numbers log_content
            = map (Nat.add (leading_blank_lines log_content))
                  (map line_number t)
         /\ (leading_blank_lines log_content = 0 ->
             map line_number t = original_numbers log_content)).
Proof.
  assert (He : map (fun e => cell_nat e "line_number")
                   (parsed_entries log_content)
               = numbers_of 1 (split_nl (strip log_content)))
    by apply parse_lines_numbers.
  split; [exact He|]. intros t Ht.
  assert (Hn : map line_number t
               = numbers_of 1 (split_nl (strip log_content)))
    by now rewrite (table_numbers _ _ Ht).
  split; [exact Hn|]. split.
  - rewrite Hn. apply numbers_strip.
  - intros H0. unfold original_numbers.
    rewrite (numbers_strip 1 log_content), H0, map_add_0. exact Hn.
Qed.

Lemma C1_numbers_follow_stripped_text_witness :
  parse_logs (lib := blind) sample_log = Returned sample_table
  /\ leading_blank_lines sample_log = 0
  /\ map line_number sample_table = original_numbers sample_log
  /\ parse_logs (lib := blind) leading_blanks
     = Returned [fallback_record "first" 1; fallback_record "second" 3]
  /\ original_numbers leading_blanks
     = map (Nat.add (leading_blank_lines leading_blanks)) [1; 3].
Proof.
  assert (H1 : parse_logs (lib := blind) sample_log = Returned sample_table)
    by reflexivity.
  assert (H2 : parse_logs (lib := blind) leading_blanks
               = Returned [fallback_record "first" 1;
                           fallback_record "second" 3])
    by reflexivity.
  split; [exact H1|]. split; [reflexivity|]. split.
  - destruct (C1_numbers_follow_stripped_text (lib := blind) sample_log)
      as [_ H].
    destruct (H sample_table H1) as (_ & _ & H0). apply H0. reflexivity.
  - split; [exact H2|].
    destruct (C1_numbers_follow_stripped_text (lib := blind) leading_blanks)
      as [_ H].
    destruct (H _ H2) as (_ & Hs & _). exact Hs.
Defined.

(** C5.  Line parsing, and the timestamp that overflows.  The line parser
    itself has no error outcome: a line that is not blank gives one entry,
    the batch has as many entries as the text has lines that are not blank,
    and a line that matches none of the six patterns before the fallback
    gives the record with severity INFO, source unknown, pattern fallback and
    the trimmed line as message.  But the table is built from the entries
    only if the coercion of every timestamp cell returns.  On a text of two
    lines, the second with an epoch that does not fit [time_t],
    [parse_logs] raises [OverflowError]: two lines that are not blank, two
    entries, and no record at all.  The table has one record for each line
    that is not blank whenever [parse_logs] returns, which it does when no
    timestamp cell overflows. *)
Theorem C5_overflow_leaves_no_record {lib : DateLib} :
  count_nonblank (split_nl good_then_huge) = 2
  /\ List.length (parsed_entries good_then_huge) = 2
  /\ parse_logs good_then_huge = Raised OverflowError
  /\ (forall line n,
         is_blank line = false ->
         exists entry, _parse_single_line line n = Some entry /\ entry <> [])
  /\ (forall log_content,
         List.length (parsed_entries log_content)
         = count_nonblank (split_nl log_content))
  /\ (forall log_content t,
         parse_logs log_content = Returned t ->
         List.length t = count_nonblank (split_nl log_content))
  /\ (forall log_content,
         Forall (fun e => overflows (cell_text e "timestamp") = false)
                (parsed_entries log_content) ->
         exists t, parse_logs log_content = Returned t)
  /\ (forall line n,
         no_newline line = true -> is_blank line = false ->
         matches_only_fallback (strip line) ->
         exists entry,
           _parse_single_line line n = Some entry
           /\ _parse_timestamp (cell_text entry "timestamp") = Returned None
           /\ post_process_row entry None = fallback_record (strip line) n)
  /\ parse_logs gibberish = Returned [fallback_record gibberish 1].
Proof.
  split; [reflexivity|]. split; [reflexivity|]. split.
  { apply parse_logs_raises. apply Exists_exists.
    assert (H : existsb (fun e => overflows (cell_text e "timestamp"))
                        (parsed_entries good_then_huge) = true)
      by (vm_compute; reflexivity).
    apply existsb_exists in H. exact H. }
  split; [|split; [|split; [|split; [|split]]]].
  - intros line n Hb.
    destruct (parse_single_line_some line n Hb) as (e & He & Hne & _).
    exists e. auto.
  - apply parsed_entries_length.
  - intros log_content t H. apply parse_logs_rows in H.
    rewrite <- parsed_entries_length. symmetry.
    eapply Forall2_length; eauto.
  - apply parse_logs_returns.
  - intros line n Hl Hb Hm. unfold _parse_single_line.
    unfold is_blank in Hb. rewrite Hb.
    rewrite (try_patterns_fallback (strip line) n)
      by (auto using no_newline_strip).
    rewrite fallback_entry. eexists. split; [reflexivity|].
    split; [reflexivity|].
    rewrite fallback_row. unfold fallback_record. now rewrite strip_idem.
  - vm_compute. reflexivity.
Qed.

Lemma gibberish_only_fallback : matches_only_fallback (strip gibberish).
Proof.
  intros name pattern Hin Hne. simpl in Hin.
  repeat (destruct Hin as [Hin|Hin];
          [injection Hin as <- <-; try (vm_compute; reflexivity);
           now contradiction Hne|]).
  contradiction.
Defined.

Lemma C5_overflow_leaves_no_record_witness :
  is_blank gibberish = false
  /\ no_newline gibberish = true
  /\ matches_only_fallback (strip gibberish)
  /\ (exists entry,
         _parse_single_line gibberish 7 = Some entry
         /\ _parse_timestamp (lib := blind) (cell_text entry "timestamp")
            = Returned None
         /\ post_process_row entry None = fallback_record (strip gibberish) 7)
  /\ parse_logs (lib := blind) sample_log = Returned sample_table
  /\ List.length sample_table = count_nonblank (split_nl sample_log)
  /\ Forall (fun e => overflows (cell_text e "timestamp") = false)
            (parsed_entries sample_log)
  /\ exists t, parse_logs (lib := blind) sample_log = Returned t.
Proof.
  destruct (C5_overflow_leaves_no_record (lib := blind))
    as (_ & _ & _ & _ & _ & Hlen & Hret & Hfb & _).
  assert (Hb : forallb (fun e => negb (overflows (cell_text e "timestamp")))
                       (parsed_entries sample_log) = true)
    by (vm_compute; reflexivity).
  assert (Hsafe : Forall (fun e => overflows (cell_text e "timestamp") = false)
                         (parsed_entries sample_log)).
  { apply Forall_forall. intros e He.
    apply negb_true_iff. revert e He. apply forallb_forall. exact Hb. }
  split; [reflexivity|]. split; [reflexivity|].
  split; [exact gibberish_only_fallback|]. split.
  - apply Hfb; [reflexivity|reflexivity|exact gibberish_only_fallback].
  - assert (Ht : parse_logs (lib := blind) sample_log = Returned sample_table)
      by (vm_compute; reflexivity).
    split; [exact Ht|]. split; [apply Hlen; exact Ht|].
    split; [exact Hsafe|apply Hret; exact Hsafe].
Defined.

(** C6.  Timestamp coercion on a number too large for the platform.  A null
    cell gives null and a token of digits in range its epoch instant; but on
    a token of digits whose value does not fit [time_t],
    [datetime.fromtimestamp] raises [OverflowError], which the handler of
    [_parse_timestamp] (for [ValueError] and [OSError]) does not catch: the
    exception leaves the coercion, and [parse_logs] with it, where the
    specification has the coercion fall through and never raise. *)
Theorem C6_epoch_overflow_is_raised {lib : DateLib} :
  _parse_timestamp None = Returned None
  /\ _parse_timestamp (Some "1700000000")
     = Returned (Some (inject_Z 1700000000))
  /\ _parse_timestamp (Some huge_epoch) = Raised OverflowError
  /\ parse_logs huge_epoch_line = Raised OverflowError.
Proof.
  split; [reflexivity|]. split; [|split].
  - assert (Hs : strip "1700000000" = "1700000000") by reflexivity.
    assert (Hd : isdigit "1700000000" = true) by reflexivity.
    assert (Hi : int "1700000000" = Returned 1700000000%N) by reflexivity.
    unfold _parse_timestamp. cbv zeta. rewrite Hs, Hd, Hi. unfold bind.
    rewrite fromtimestamp_safe by (vm_compute; discriminate). reflexivity.
  - apply parse_timestamp_overflow. vm_compute. reflexivity.
  - unfold parse_logs.
    destruct (parsed_entries huge_epoch_line) as [|en rest] eqn:E;
      [vm_compute in E; discriminate|].
    assert (Ho : overflows (cell_text en "timestamp") = true).
    { vm_compute in E. injection E as <- <-. vm_compute. reflexivity. }
    unfold _post_process_dataframe. cbn [apply_parse_timestamp].
    rewrite (parse_timestamp_overflow _ Ho). reflexivity.
Qed.

Lemma Forall2_with_left {A B : Type} (P : A -> Prop) (R : A -> B -> Prop)
  (xs : list A) (ys : list B) :
  Forall P xs -> Forall2 R xs ys -> Forall2 (fun x y => P x /\ R x y) xs ys.
Proof.
  intros HP HR. induction HR; [constructor|].
  inversion HP; subst. constructor; auto.
Qed.

(** C8.  The normalization of a severity token is the table of the
    specification: the listed keys, whatever their case, go to their level,
    any other token comes back in upper case and otherwise unchanged; and the
    severity of every record of a parsed table is the normalization of the
    token of its entry. *)
Theorem C8_severity_normalization {lib : DateLib} :
  (forall tok,
      tok <> "" -> normalize_severity (Some tok) = Some (spec_normalize tok))
  /\ (forall log_content t,
         parse_logs log_content = Returned t ->
         Forall2 (fun entry r =>
                    exists tok,
                      cell_text entry "severity" = Some tok
                      /\ tok <> ""
                      /\ severity r = Some (spec_normalize tok))
                 (parsed_entries log_content) t)
  /\ normalize_severity (Some "WARN") = Some "WARNING"
  /\ normalize_severity (Some "CRITICAL") = Some "FATAL"
  /\ normalize_severity (Some "quux") = Some "QUUX".
Proof.
  split; [exact normalize_severity_spec|].
  split; [|repeat split; reflexivity].
  intros log_content t H. apply parse_logs_rows in H.
  pose proof (parse_lines_token
                (enumerate 1 (split_nl (strip log_content)))) as Ht.
  fold (parsed_entries log_content) in Ht.
  eapply Forall2_impl; [|exact (Forall2_with_left _ _ _ _ Ht H)].
  intros e r [[tok [Htok Hne]] [ts ->]].
  exists tok. repeat split; auto.
  simpl. rewrite Htok. now apply normalize_severity_spec.
Qed.

Lemma C8_severity_normalization_witness :
  "quux" <> ""
  /\ normalize_severity (Some "quux") = Some (spec_normalize "quux")
  /\ parse_logs (lib := blind) sample_log = Returned sample_table
  /\ Forall2 (fun entry r =>
                exists tok,
                  cell_text entry "severity" = Some tok
                  /\ tok <> ""
                  /\ severity r = Some (spec_normalize tok))
             (parsed_entries sample_log) sample_table.
Proof.
  destruct (C8_severity_normalization (lib := blind)) as (H1 & H2 & _).
  split; [discriminate|]. split; [apply H1; discriminate|].
  split; [reflexivity|]. apply H2. reflexivity.
Defined.

End ParserClaims.

(** ** The detector *)

Module DetectorFacts.
Import Text Re Parser Detector Aux DetectorAux.

Local Open Scope Q_scope.

Lemma Qlt_bool_iff (x y : Q) : Qlt_bool x y = true <-> x < y.
Proof.
  unfold Qlt_bool. rewrite negb_true_iff. split.
  - intros H. apply Qnot_le_lt. intros Hle.
    apply Qle_bool_iff in Hle. congruence.
  - intros H. destruct (Qle_bool y x) eqn:E; [|reflexivity].
    apply Qle_bool_iff in E. exfalso. exact (Qlt_not_le _ _ H E).
Qed.

Lemma Qle_bool_false (x y : Q) : Qle_bool x y = false -> y <= x.
Proof.
  intros H. apply Qlt_le_weak, Qnot_le_lt. intros Hle.
  apply Qle_bool_iff in Hle. congruence.
Qed.

(** *** The sort *)

Lemma insert_index_perm (xs : list Q) (i : nat) (p : list nat) :
  Permutation (insert_index xs i p) (i :: p).
Proof.
  induction p as [|j p IH]; simpl; [reflexivity|].
  destruct (Qle_bool (key xs i) (key xs j)); [reflexivity|].
  rewrite IH. apply perm_swap.
Qed.

Lemma insert_index_sorted (xs : list Q) (i : nat) (p : list nat) :
  StronglySorted (fun a b => key xs a <= key xs b) p ->
  StronglySorted (fun a b => key xs a <= key xs b) (insert_index xs i p).
Proof.
  induction 1 as [|j p Hp IH Hj]; simpl.
  - repeat constructor.
  - destruct (Qle_bool (key xs i) (key xs j)) eqn:E.
    + apply Qle_bool_iff in E. constructor.
      * constructor; assumption.
      * constructor; [exact E|].
        eapply Forall_impl; [|exact Hj]. intros a Ha. eapply Qle_trans; eauto.
    + apply Qle_bool_false in E. constructor; [exact IH|].
      apply (Permutation_Forall (Permutation_sym (insert_index_perm xs i p))).
      constructor; assumption.
Qed.

Lemma stable_argsort_spec : argsort_spec stable.
Proof.
  split; intros xs; simpl; unfold stable_argsort.
  - induction (seq 0 (List.length xs)) as [|i l IH]; simpl; [reflexivity|].
    rewrite insert_index_perm. now constructor.
  - induction (seq 0 (List.length xs)) as [|i l IH]; simpl; [constructor|].
    now apply insert_index_sorted.
Qed.

Lemma sorted_app_le {A : Type} (R : A -> A -> Prop) (l1 l2 : list A) :
  StronglySorted R (l1 ++ l2) ->
  forall a b, In a l1 -> In b l2 -> R a b.
Proof.
  induction l1 as [|x l1 IH]; simpl; intros H a b Ha Hb; [contradiction|].
  inversion H as [|y l Hl Hx]; subst. destruct Ha as [<-|Ha].
  - rewrite Forall_forall in Hx. apply Hx, in_or_app. auto.
  - eapply IH; eauto.
Qed.

(** *** Vectors *)

Lemma zeros_length (n : nat) : List.length (zeros n) = n.
Proof. apply repeat_length. Qed.

Lemma nth_zeros (i n : nat) : nth i (zeros n) 0 = 0.
Proof.
  unfold zeros. revert i. induction n as [|n IH]; intros [|i]; simpl; auto.
Qed.

Lemma where_above_bounds (t : Q) (xs : list Q) (start : nat) :
  Forall (fun i => (start <= i < start + List.length xs)%nat)
         (where_above t start xs).
Proof.
  revert start. induction xs as [|x xs IH]; intros start; simpl; [constructor|].
  assert (H : Forall (fun i => (start <= i < start + S (List.length xs))%nat)
                     (where_above t (S start) xs)).
  { eapply Forall_impl; [|apply IH]. simpl. intros i Hi. lia. }
  destruct (Qlt_bool t x); [constructor; [lia|exact H]|exact H].
Qed.

Lemma where_above_nodup (t : Q) (xs : list Q) (start : nat) :
  NoDup (where_above t start xs).
Proof.
  revert start. induction xs as [|x xs IH]; intros start; simpl; [constructor|].
  destruct (Qlt_bool t x); [|apply IH]. constructor; [|apply IH].
  intros Hin. pose proof (where_above_bounds t xs (S start)) as Hb.
  rewrite Forall_forall in Hb. apply Hb in Hin. lia.
Qed.

Lemma where_above_length (t : Q) (xs : list Q) (start : nat) :
  (List.length (where_above t start xs) <= List.length xs)%nat.
Proof.
  revert start. induction xs as [|x xs IH]; intros start; simpl; [lia|].
  destruct (Qlt_bool t x); simpl; specialize (IH (S start)); lia.
Qed.

Lemma where_above_spec (t : Q) (xs : list Q) (start i : nat) :
  In i (where_above t start xs) -> t < nth (i - start) xs 0.
Proof.
  revert start. induction xs as [|x xs IH]; intros start; simpl; [tauto|].
  intros Hin.
  assert (Hrest : In i (where_above t (S start) xs) ->
                  t < match (i - start)%nat with
                      | O => x
                      | S m => nth m xs 0
                      end).
  { intros H. pose proof (where_above_bounds t xs (S start)) as Hb.
    rewrite Forall_forall in Hb. pose proof (Hb i H) as Hi.
    apply IH in H. replace (i - start)%nat with (S (i - S start)) by lia.
    exact H. }
  destruct (Qlt_bool t x) eqn:E; [|auto].
  destruct Hin as [<-|Hin]; [|auto].
  rewrite Nat.sub_diag. now apply Qlt_bool_iff.
Qed.

(** *** The severity method *)

Lemma assign_mask_length (sev : string) (v : Q) (df : table) (arr : list Q) :
  List.length (assign_mask sev v df arr) = List.length arr.
Proof.
  revert arr. induction df as [|r df IH]; intros [|x arr]; simpl; auto.
Qed.

Lemma nth_assign_mask (sev : string) (v : Q) (df : table) (arr : list Q)
  (i : nat) (r : LogRecord) :
  List.length arr = List.length df -> nth_error df i = Some r ->
  nth i (assign_mask sev v df arr) 0
  = if has_severity sev r then v else nth i arr 0.
Proof.
  revert arr i. induction df as [|r' df IH]; intros [|x arr] [|i] Hlen Hi;
    simpl in *; try discriminate.
  - now injection Hi as ->.
  - apply IH; [lia|exact Hi].
Qed.

Lemma has_severity_of (sev s : string) (r : LogRecord) :
  severity r = Some s -> has_severity sev r = (sev =? s)%string.
Proof. unfold has_severity. intros ->. apply String.eqb_sym. Qed.

Lemma has_severity_none (sev : string) (r : LogRecord) :
  severity r = None -> has_severity sev r = false.
Proof. unfold has_severity. now intros ->. Qed.

Section SeverityLoops.
Variable df : table.
Variable freqs : list (string * Q).

(** The body of the loop over [expected_ranges]. *)
Let step (arr : list Q) (item : string * (Q * Q)) : list Q :=
  let '(sev, (min_freq, max_freq)) := item in
  match lookup sev freqs with
  | Some freq =>
      if Qlt_bool freq min_freq || Qlt_bool max_freq freq
      then assign_mask sev (5 # 10) df arr
      else arr
  | None => arr
  end.

Lemma step_length (arr : list Q) (item : string * (Q * Q)) :
  List.length (step arr item) = List.length arr.
Proof.
  destruct item as [sev [lo hi]]. simpl.
  destruct (lookup sev freqs); [|reflexivity].
  destruct (_ || _); [apply assign_mask_length|reflexivity].
Qed.

Lemma band_loop_length (ranges : list (string * (Q * Q))) (arr : list Q) :
  List.length (fold_left step ranges arr) = List.length arr.
Proof.
  revert arr. induction ranges as [|item ranges IH]; intros arr; simpl; auto.
  now rewrite IH, step_length.
Qed.

Lemma band_loop_nth (ranges : list (string * (Q * Q))) (arr : list Q)
  (i : nat) (r : LogRecord) (s : string) (f : Q) :
  List.length arr = List.length df -> nth_error df i = Some r ->
  severity r = Some s -> lookup s freqs = Some f ->
  nth i (fold_left step ranges arr) 0
  = fold_left (band_step s f) ranges (nth i arr 0).
Proof.
  intros Hlen Hi Hs Hf. revert arr Hlen.
  induction ranges as [|item ranges IH]; intros arr Hlen; simpl; auto.
  rewrite IH by now rewrite step_length. f_equal.
  destruct item as [sev [lo hi]]. simpl.
  destruct (sev =? s)%string eqn:E.
  - apply String.eqb_eq in E. subst sev. rewrite Hf. simpl.
    destruct (_ || _); [|reflexivity].
    rewrite (nth_assign_mask _ _ _ _ _ _ Hlen Hi), (has_severity_of _ _ _ Hs).
    now rewrite String.eqb_refl.
  - simpl. destruct (lookup sev freqs); [|reflexivity].
    destruct (_ || _); [|reflexivity].
    rewrite (nth_assign_mask _ _ _ _ _ _ Hlen Hi), (has_severity_of _ _ _ Hs).
    now rewrite E.
Qed.

Lemma band_loop_nth_none (ranges : list (string * (Q * Q))) (arr : list Q)
  (i : nat) (r : LogRecord) :
  List.length arr = List.length df -> nth_error df i = Some r ->
  severity r = None ->
  nth i (fold_left step ranges arr) 0 = nth i arr 0.
Proof.
  intros Hlen Hi Hs. revert arr Hlen.
  induction ranges as [|item ranges IH]; intros arr Hlen; simpl; auto.
  rewrite IH by now rewrite step_length.
  destruct item as [sev [lo hi]]. simpl.
  destruct (lookup sev freqs); [|reflexivity].
  destruct (_ || _); [|reflexivity].
  now rewrite (nth_assign_mask _ _ _ _ _ _ Hlen Hi), (has_severity_none _ _ Hs).
Qed.

Lemma rare_loop_nth (rare : list string) (arr : list Q) (i : nat)
  (r : LogRecord) :
  List.length arr = List.length df -> nth_error df i = Some r ->
  nth i (fold_left (fun arr sev => assign_mask sev 1 df arr) rare arr) 0
  = if existsb (fun sev => has_severity sev r) rare then 1 else nth i arr 0.
Proof.
  intros Hlen Hi. revert arr Hlen.
  induction rare as [|sev rare IH]; intros arr Hlen; simpl; auto.
  rewrite IH by now rewrite assign_mask_length.
  rewrite (nth_assign_mask _ _ _ _ _ _ Hlen Hi).
  destruct (has_severity sev r); simpl;
    destruct (existsb _ rare); reflexivity.
Qed.

End SeverityLoops.

Lemma distinct_in (df : table) (seen : list string) (s : string) :
  In s seen \/ (exists r, In r df /\ severity r = Some s) ->
  In s (distinct_severities df seen).
Proof.
  revert seen. induction df as [|r df IH]; intros seen H; simpl.
  - apply in_rev. rewrite rev_involutive.
    destruct H as [H|[r [[] _]]]. exact H.
  - assert (Hrest : (exists r0, In r0 df /\ severity r0 = Some s) ->
                    forall seen', In s (distinct_severities df seen'))
      by (intros Hex seen'; apply IH; auto).
    destruct H as [H|[r0 [[<-|Hin] Hs]]].
    + destruct (severity r) as [s'|]; [|apply IH; auto].
      destruct (existsb (String.eqb s') seen); apply IH; simpl; auto.
    + rewrite Hs. destruct (existsb (String.eqb s) seen) eqn:E.
      * apply IH. left. apply existsb_exists in E.
        destruct E as [x [Hx E]]. apply String.eqb_eq in E. now subst x.
      * apply IH. simpl. auto.
    + destruct (severity r) as [s'|]; [|apply Hrest; eauto].
      destruct (existsb (String.eqb s') seen); apply Hrest; eauto.
Qed.

Lemma lookup_map_key {A : Type} (g : string -> A) (l : list string)
  (s : string) :
  In s l -> lookup s (map (fun x => (x, g x)) l) = Some (g s).
Proof.
  induction l as [|x l IH]; simpl; [tauto|]. intros H.
  destruct (x =? s)%string eqn:E.
  - apply String.eqb_eq in E. now subst x.
  - destruct H as [->|H]; [now rewrite String.eqb_refl in E|auto].
Qed.

Lemma rare_member (g : string -> Q) (c : Q) (l : list string) (s : string) :
  In s l ->
  existsb (fun sev => (sev =? s)%string)
          (map fst (filter (fun p => Qlt_bool (snd p) c)
                           (map (fun x => (x, g x)) l)))
  = Qlt_bool (g s) c.
Proof.
  intros Hin.
  assert (H : existsb (fun sev => (sev =? s)%string)
                (map fst (filter (fun p => Qlt_bool (snd p) c)
                                 (map (fun x => (x, g x)) l)))
              = existsb (fun x => (x =? s)%string) l && Qlt_bool (g s) c).
  { clear Hin. induction l as [|x l IH]; simpl; [reflexivity|].
    destruct (x =? s)%string eqn:E.
    - apply String.eqb_eq in E. subst x.
      destruct (Qlt_bool (g s) c) eqn:Eg; simpl.
      + now rewrite String.eqb_refl.
      + rewrite IH. apply andb_false_r.
    - destruct (Qlt_bool (g x) c); simpl; [rewrite E|]; exact IH. }
  rewrite H.
  replace (existsb (fun x => (x =? s)%string) l) with true; [reflexivity|].
  symmetry. apply existsb_exists. exists s. split; [exact Hin|].
  apply String.eqb_refl.
Qed.

Lemma band_steps (s : string) (df : table) :
  fold_left (band_step s (frequency s df)) expected_ranges 0
  = if band_violated s df then 5 # 10 else 0.
Proof.
  unfold band_violated, spec_band, expected_ranges.
  cbv beta iota delta [lookup fold_left band_step].
  repeat match goal with
         | |- context [String.eqb ?a s] =>
             destruct (String.eqb_spec a s) as [?|?];
             [subst s; reflexivity
             |replace (String.eqb s a) with false
                by (symmetry; apply String.eqb_neq; congruence)]
         end.
  reflexivity.
Qed.

Lemma existsb_pointwise {A : Type} (f g : A -> bool) (l : list A) :
  (forall x, f x = g x) -> existsb f l = existsb g l.
Proof.
  intros H. induction l as [|x l IH]; simpl; [reflexivity|].
  now rewrite H, IH.
Qed.

(** The severity method, record by record. *)
Lemma severity_score_nth (df : table) (i : nat) (r : LogRecord) :
  nth_error df i = Some r ->
  nth i (_detect_severity_anomalies df) 0 = spec_severity_score df r.
Proof.
  intros Hi. unfold _detect_severity_anomalies, spec_severity_score.
  rewrite rare_loop_nth with (r := r);
    [|now rewrite band_loop_length, zeros_length|exact Hi].
  destruct (severity r) as [s|] eqn:Hs.
  - assert (Hin : In s (distinct_severities df [])).
    { apply distinct_in. right. exists r. split; [|exact Hs].
      eapply nth_error_In; eauto. }
    rewrite (existsb_pointwise _ (fun sev => (sev =? s)%string))
      by (intros sev; apply (has_severity_of sev s r Hs)).
    assert (Hr : existsb (fun sev => (sev =? s)%string)
                   (map fst (filter (fun p => Qlt_bool (snd p) (1 # 100))
                                    (severity_frequencies df)))
                 = Qlt_bool (frequency s df) (1 # 100))
      by exact (rare_member
                  (fun x => of_nat (count_severity x df)
                            / of_nat (List.length df))
                  (1 # 100) _ s Hin).
    rewrite Hr.
    destruct (Qlt_bool (frequency s df) (1 # 100)); [reflexivity|].
    rewrite (band_loop_nth df (severity_frequencies df) expected_ranges
               (zeros (List.length df)) i r s (frequency s df));
      [|apply zeros_length|exact Hi|exact Hs|].
    + rewrite nth_zeros. apply band_steps.
    + unfold severity_frequencies, frequency.
      apply (lookup_map_key
               (fun x => of_nat (count_severity x df) / of_nat (List.length df))).
      exact Hin.
  - rewrite (existsb_pointwise _ (fun _ => false))
      by (intros sev; apply (has_severity_none sev r Hs)).
    replace (existsb (fun _ => false) _) with false
      by (symmetry; induction (map fst _); simpl; auto).
    rewrite (band_loop_nth_none df (severity_frequencies df) expected_ranges
               (zeros (List.length df)) i r);
      [apply nth_zeros|apply zeros_length|exact Hi|exact Hs].
Qed.

Lemma severity_length (df : table) :
  List.length (_detect_severity_anomalies df) = List.length df.
Proof.
  unfold _detect_severity_anomalies.
  set (rare := map fst _). generalize rare. clear rare. intros rare.
  assert (H : forall arr,
             List.length
               (fold_left (fun arr sev => assign_mask sev 1 df arr) rare arr)
             = List.length arr).
  { induction rare as [|sev rare IH]; intros arr; simpl; auto.
    now rewrite IH, assign_mask_length. }
  now rewrite H, band_loop_length, zeros_length.
Qed.

Lemma where_above_complete (t : Q) (xs : list Q) (start i : nat) :
  (start <= i < start + List.length xs)%nat -> t < nth (i - start) xs 0 ->
  In i (where_above t start xs).
Proof.
  revert start. induction xs as [|x xs IH]; intros start Hi Hlt; simpl in *.
  - lia.
  - destruct (Nat.eq_dec i start) as [->|Hne].
    + rewrite Nat.sub_diag in Hlt. apply Qlt_bool_iff in Hlt. rewrite Hlt.
      now left.
    + assert (Hin : In i (where_above t (S start) xs)).
      { apply IH; [lia|].
        replace (i - start)%nat with (S (i - S start)) in Hlt by lia.
        exact Hlt. }
      destruct (Qlt_bool t x); [now right|exact Hin].
Qed.

(** *** The combiner *)

Lemma fifth_floor (n : nat) :
  Z.to_nat (Qfloor (of_nat n * (2 # 10))) = (n / 5)%nat.
Proof.
  unfold of_nat, Qfloor, Qmult, inject_Z. simpl Qnum. simpl Qden.
  change (Z.pos (1 * 10)) with (5 * 2)%Z.
  rewrite Z.div_mul_cancel_r by lia.
  change 5%Z with (Z.of_nat 5). rewrite <- Nat2Z.inj_div. apply Nat2Z.id.
Qed.

Lemma over_fifth (n k : nat) :
  Qlt_bool (of_nat n * (2 # 10)) (of_nat k) = true <-> (n < 5 * k)%nat.
Proof.
  rewrite Qlt_bool_iff. unfold of_nat, Qlt, Qmult, inject_Z. simpl. lia.
Qed.

Lemma nth_map_seq {A : Type} (f : nat -> A) (n i : nat) (d : A) :
  (i < n)%nat -> nth i (map f (seq 0 n)) d = f i.
Proof.
  intros Hi. rewrite (nth_indep _ d (f 0%nat)) by now rewrite length_map, length_seq.
  rewrite map_nth, seq_nth; auto.
Qed.

Lemma skipn_incl {A : Type} (n : nat) (l : list A) (x : A) :
  In x (skipn n l) -> In x l.
Proof.
  intros H. rewrite <- (firstn_skipn n l). apply in_or_app. auto.
Qed.

Lemma skipn_nodup {A : Type} (n : nat) (l : list A) :
  NoDup l -> NoDup (skipn n l).
Proof.
  intros H. rewrite <- (firstn_skipn n l) in H.
  eapply NoDup_app_remove_l; eauto.
Qed.

Lemma last_k_incl {A : Type} (k : nat) (l : list A) (x : A) :
  In x (last_k k l) -> In x l.
Proof. destruct k; simpl; [auto|apply skipn_incl]. Qed.

Lemma last_k_nodup {A : Type} (k : nat) (l : list A) :
  NoDup l -> NoDup (last_k k l).
Proof. destruct k; simpl; [auto|apply skipn_nodup]. Qed.

Section Combiner.
Context {models : Models} {sorting : Sorting}.

Lemma final_scores_length (columns : list (list Q)) (df : table) :
  List.length (final_scores columns df) = List.length df.
Proof.
  unfold final_scores, column_stack. now rewrite !length_map, length_seq.
Qed.

(** The two outcomes of the combiner on a stack that is not empty. *)
Lemma combine_cases (columns : list (list Q)) (df : table) :
  columns <> [] ->
  let fs := final_scores columns df in
  let flagged := where_above threshold 0 fs in
  _combine_anomaly_scores columns df
  = if (List.length df <? 5 * List.length flagged)%nat
    then last_k (List.length df / 5) (argsort fs)
    else flagged.
Proof.
  intros Hne fs flagged. unfold _combine_anomaly_scores.
  destruct columns as [|c columns]; [congruence|].
  fold fs. fold flagged. rewrite fifth_floor.
  destruct (List.length df <? 5 * List.length flagged)%nat eqn:E.
  - apply Nat.ltb_lt, over_fifth in E. now rewrite E.
  - destruct (Qlt_bool _ _) eqn:E'; [|reflexivity].
    apply over_fifth, Nat.ltb_lt in E'. congruence.
Qed.

Lemma anomaly_scores_nonempty (df : table) : anomaly_scores df <> [].
Proof. unfold anomaly_scores. discriminate. Qed.

(** The temporal method is stacked exactly when more than ten records have
    a timestamp. *)
Lemma temporal_gate (df : table) :
  anomaly_scores df
  = if (10 <? notna_count df)%nat
    then [_detect_statistical_anomalies df; _detect_text_anomalies df;
          _detect_temporal_anomalies df;
          _detect_severity_anomalies df; _detect_pattern_anomalies df]
    else [_detect_statistical_anomalies df; _detect_text_anomalies df;
          _detect_severity_anomalies df; _detect_pattern_anomalies df].
Proof.
  unfold anomaly_scores. now destruct (10 <? notna_count df)%nat.
Qed.

Lemma detect_cases (df : table) :
  detect_anomalies df
  = if (List.length df <? 10)%nat then []
    else _combine_anomaly_scores (anomaly_scores df) df.
Proof.
  unfold detect_anomalies.
  destruct (List.length df) as [|n]; reflexivity.
Qed.

Lemma argsort_length (Hs : argsort_spec sorting) (xs : list Q) :
  List.length (argsort xs) = List.length xs.
Proof.
  rewrite (Permutation_length (argsort_perm _ Hs xs)). apply length_seq.
Qed.

Lemma argsort_nodup (Hs : argsort_spec sorting) (xs : list Q) :
  NoDup (argsort xs).
Proof.
  apply (Permutation_NoDup (Permutation_sym (argsort_perm _ Hs xs))).
  apply seq_NoDup.
Qed.

Lemma argsort_range (Hs : argsort_spec sorting) (xs : list Q) (i : nat) :
  In i (argsort xs) <-> (i < List.length xs)%nat.
Proof.
  split; intros H.
  - apply (Permutation_in _ (argsort_perm _ Hs xs)), in_seq in H. lia.
  - apply (Permutation_in _ (Permutation_sym (argsort_perm _ Hs xs))).
    apply in_seq. lia.
Qed.

(** The length of what detection returns never exceeds a fifth of the
    table. *)
Lemma detect_length (Hs : argsort_spec sorting) (df : table) :
  (List.length (detect_anomalies df) <= List.length df / 5)%nat.
Proof.
  rewrite detect_cases. destruct (List.length df <? 10)%nat eqn:E10.
  - simpl. lia.
  - apply Nat.ltb_ge in E10.
    rewrite combine_cases by apply anomaly_scores_nonempty.
    set (fs := final_scores (anomaly_scores df) df).
    destruct (List.length df <? _)%nat eqn:E.
    + unfold last_k. destruct (List.length df / 5)%nat eqn:Ek; [|rewrite <- Ek].
      * assert (2 <= List.length df / 5)%nat
          by (apply Nat.div_le_lower_bound; lia). lia.
      * rewrite length_skipn, (argsort_length Hs).
        unfold fs. rewrite final_scores_length. lia.
    + apply Nat.ltb_ge in E. apply Nat.div_le_lower_bound; lia.
Qed.

End Combiner.

End DetectorFacts.

(** ** The claims on the detector *)

Module DetectorClaims.
Import Text Re Parser Detector Aux DetectorAux DetectorFacts.

Local Open Scope Q_scope.

(** C2.  The temporal method at exactly ten timestamps.  On a table of ten
    records that all carry a timestamp the temporal method is left out of the
    stack, where the specification has it run from ten timestamps on: the
    gate of [detect_anomalies] asks for more than ten, while the guard of the
    method itself lets ten through. *)
Theorem C2_ten_timestamps_leave_temporal_out {models : Models}
  {sorting : Sorting} :
  List.length ten_timed = 10%nat
  /\ notna_count ten_timed = 10%nat
  /\ (List.length (with_time 0 ten_timed) <? 10)%nat = false
  /\ anomaly_scores ten_timed
     = [_detect_statistical_anomalies ten_timed;
        _detect_text_anomalies ten_timed;
        _detect_severity_anomalies ten_timed;
        _detect_pattern_anomalies ten_timed].
Proof.
  repeat split; reflexivity.
Qed.

(** C3.  When more than a fifth of the records of a table score above the
    threshold, detection returns the last [floor(0.2 * rows)] indices of the
    ascending sort of the scores: that many indices, each once, all of them
    among the records above the threshold, and no record left out scores
    higher than one returned.  In every case the result has at most
    [floor(0.2 * rows)] indices, at most 20 for a table of 100 records whose
    messages all trigger the pattern method.  (Scores exist from ten records
    on; below that detection returns before it scores.) *)
Theorem C3_flagged_set_is_capped {models : Models} {sorting : Sorting}
  (Hs : argsort_spec sorting) (df : table) :
  let n := List.length df in
  let fs := final_scores (anomaly_scores df) df in
  let flagged := where_above threshold 0 fs in
  ((10 <= n)%nat -> (n < 5 * List.length flagged)%nat ->
   detect_anomalies df = last_k (n / 5) (argsort fs)
   /\ List.length (detect_anomalies df) = (n / 5)%nat
   /\ NoDup (detect_anomalies df)
   /\ (forall i j,
         In i (detect_anomalies df) -> (j < n)%nat ->
         ~ In j (detect_anomalies df) -> nth j fs 0 <= nth i fs 0)
   /\ incl (detect_anomalies df) flagged)
  /\ (List.length (detect_anomalies df) <= n / 5)%nat
  /\ (n = 100%nat ->
      (forall r, In r df -> 0 < pattern_score (fillna_str (message r))) ->
      (List.length (detect_anomalies df) <= 20)%nat).
Proof.
  intros n fs flagged. split; [|split].
  - intros Hn Hmany.
    assert (Hd : detect_anomalies df = last_k (n / 5) (argsort fs)).
    { rewrite detect_cases.
      replace (List.length df <? 10)%nat with false
        by (symmetry; apply Nat.ltb_ge; exact Hn).
      rewrite combine_cases by apply anomaly_scores_nonempty.
      fold fs. fold flagged. fold n.
      now replace (n <? 5 * List.length flagged)%nat with true
        by (symmetry; apply Nat.ltb_lt; exact Hmany). }
    assert (Hk : (2 <= n / 5)%nat) by (apply Nat.div_le_lower_bound; lia).
    assert (Hkn : (n / 5 <= n)%nat) by (apply Nat.Div0.div_le_upper_bound; lia).
    assert (Hfs : List.length fs = n) by apply final_scores_length.
    assert (Hlen : List.length (argsort fs) = n)
      by now rewrite (argsort_length Hs).
    rewrite Hd. unfold last_k.
    destruct (n / 5)%nat as [|k] eqn:Ek; [lia|]. rewrite <- Ek.
    set (kept := skipn (List.length (argsort fs) - n / 5) (argsort fs)).
    assert (Hklen : List.length kept = (n / 5)%nat)
      by (unfold kept; rewrite length_skipn; lia).
    assert (Hnodup : NoDup kept)
      by apply skipn_nodup, (argsort_nodup Hs).
    assert (Hrange : forall i, In i kept -> (i < n)%nat).
    { intros i Hi. apply skipn_incl, (argsort_range Hs) in Hi. lia. }
    assert (Htop : forall i j,
               In i kept -> (j < n)%nat -> ~ In j kept ->
               nth j fs 0 <= nth i fs 0).
    { intros i j Hi Hj Hnot.
      assert (Hin : In j (argsort fs)) by (apply (argsort_range Hs); lia).
      rewrite <- (firstn_skipn (List.length (argsort fs) - n / 5) (argsort fs))
        in Hin.
      apply in_app_or in Hin. destruct Hin as [Hin|Hin]; [|contradiction].
      pose proof (argsort_sorted _ Hs fs) as Hsorted.
      rewrite <- (firstn_skipn (List.length (argsort fs) - n / 5) (argsort fs))
        in Hsorted.
      exact (sorted_app_le _ _ _ Hsorted j i Hin Hi). }
    repeat split; auto.
    intros i Hi.
    destruct (Qlt_bool threshold (nth i fs 0)) eqn:Ei.
    + apply where_above_complete.
      * specialize (Hrange i Hi). lia.
      * rewrite Nat.sub_0_r. now apply Qlt_bool_iff.
    + exfalso.
      assert (Hlow : nth i fs 0 <= threshold).
      { unfold Qlt_bool in Ei. apply negb_false_iff, Qle_bool_iff in Ei.
        exact Ei. }
      assert (Hnot : ~ In i flagged).
      { intros Hin. apply where_above_spec in Hin.
        rewrite Nat.sub_0_r in Hin. exact (Qlt_not_le _ _ Hin Hlow). }
      assert (Hsub : incl (i :: flagged) kept).
      { intros j [<-|Hj]; [exact Hi|].
        destruct (in_dec Nat.eq_dec j kept) as [Hin|Hout]; [exact Hin|].
        exfalso.
        pose proof (where_above_bounds threshold fs 0) as Hb.
        rewrite Forall_forall in Hb. specialize (Hb j Hj).
        apply where_above_spec in Hj. rewrite Nat.sub_0_r in Hj.
        assert (Hle : nth j fs 0 <= nth i fs 0)
          by (apply Htop; auto; lia).
        apply (Qlt_not_le _ _ Hj). eapply Qle_trans; eauto. }
      assert (Hnd : NoDup (i :: flagged))
        by (constructor; [exact Hnot|apply where_above_nodup]).
      pose proof (NoDup_incl_length Hnd Hsub) as Hcount.
      simpl in Hcount. rewrite Hklen in Hcount.
      assert (n / 5 * 5 <= n)%nat
        by (rewrite Nat.mul_comm; apply Nat.Div0.mul_div_le).
      assert (n < 5 * (n / 5 + 1))%nat; [|lia].
      pose proof (Nat.div_mod_eq n 5) as Hdm.
      pose proof (Nat.mod_upper_bound n 5). lia.
  - apply (detect_length Hs).
  - intros Hn _. pose proof (detect_length Hs df) as H.
    fold n in H. rewrite Hn in H. exact H.
Qed.

Lemma hundred_alarms_trigger (r : LogRecord) :
  In r hundred_alarms -> 0 < pattern_score (fillna_str (message r)).
Proof.
  unfold hundred_alarms. intros H. apply in_map_iff in H.
  destruct H as [i [<- _]]. vm_compute. reflexivity.
Defined.

Lemma C3_flagged_set_is_capped_witness :
  (10 <= List.length hundred_alarms)%nat
  /\ (List.length hundred_alarms
      < 5 * List.length
            (where_above threshold 0
               (final_scores
                  (anomaly_scores (models := loud) (sorting := stable)
                     hundred_alarms) hundred_alarms)))%nat
  /\ List.length hundred_alarms = 100%nat
  /\ (forall r, In r hundred_alarms ->
                0 < pattern_score (fillna_str (message r)))
  /\ List.length
       (detect_anomalies (models := loud) (sorting := stable) hundred_alarms)
     = (List.length hundred_alarms / 5)%nat
  /\ (List.length
        (detect_anomalies (models := loud) (sorting := stable) hundred_alarms)
      <= 20)%nat.
Proof.
  assert (H10 : (10 <= List.length hundred_alarms)%nat) by (vm_compute; lia).
  assert (Hmany : (List.length hundred_alarms
                   < 5 * List.length
                         (where_above threshold 0
                            (final_scores
                               (anomaly_scores (models := loud)
                                  (sorting := stable) hundred_alarms)
                               hundred_alarms)))%nat)
    by (vm_compute; lia).
  split; [exact H10|]. split; [exact Hmany|]. split; [reflexivity|].
  split; [exact hundred_alarms_trigger|].
  destruct (C3_flagged_set_is_capped (models := loud) stable_argsort_spec
              hundred_alarms) as (H & _ & H100).
  split.
  - destruct (H H10 Hmany) as (_ & Hlen & _). exact Hlen.
  - apply H100; [reflexivity|exact hundred_alarms_trigger].
Defined.

(** C4.  In the severity method a record scores 1.0 when its severity is
    rarer than one record in a hundred; otherwise 0.5 when its severity is one
    of the five with an expected band (ERROR in [0.001, 0.1], FATAL in
    [0.0001, 0.05], WARNING in [0.01, 0.3], INFO in [0.3, 0.95], DEBUG in
    [0, 0.5]) and its frequency lies outside the band; otherwise 0.  A
    severity outside the five can only score by its rarity.  A FATAL on one
    record of two hundred scores 1.0; of ten records, five ERROR and five
    INFO, the five ERROR score 0.5 and the five INFO 0. *)
Theorem C4_severity_method_scores (df : table) (i : nat) (r : LogRecord) :
  nth_error df i = Some r ->
  (forall sev lo hi,
      severity r = Some sev ->
      In (sev, (lo, hi))
         [("ERROR", (1 # 1000, 1 # 10)); ("FATAL", (1 # 10000, 5 # 100));
          ("WARNING", (1 # 100, 3 # 10)); ("INFO", (3 # 10, 95 # 100));
          ("DEBUG", (0, 5 # 10))] ->
      nth i (_detect_severity_anomalies df) 0
      = if Qlt_bool (frequency sev df) (1 # 100) then 1
        else if Qlt_bool (frequency sev df) lo
                || Qlt_bool hi (frequency sev df)
             then 5 # 10
             else 0)
  /\ (forall sev,
         severity r = Some sev ->
         ~ In sev ["ERROR"; "FATAL"; "WARNING"; "INFO"; "DEBUG"] ->
         nth i (_detect_severity_anomalies df) 0
         = if Qlt_bool (frequency sev df) (1 # 100) then 1 else 0)
  /\ nth i (_detect_severity_anomalies df) 0 = spec_severity_score df r
  /\ nth 199 (_detect_severity_anomalies one_fatal_in_200) 0 = 1
  /\ _detect_severity_anomalies half_errors
     = [5 # 10; 5 # 10; 5 # 10; 5 # 10; 5 # 10; 0; 0; 0; 0; 0].
Proof.
  intros Hi. split; [|split; [|split; [now apply severity_score_nth|split]]].
  - intros sev lo hi Hsev Hband. rewrite (severity_score_nth df i r Hi).
    unfold spec_severity_score. rewrite Hsev.
    destruct (Qlt_bool (frequency sev df) (1 # 100)); [reflexivity|].
    unfold band_violated.
    assert (Hb : spec_band sev = Some (lo, hi)).
    { simpl in Hband.
      repeat match goal with
             | H : _ \/ _ |- _ => destruct H as [H|H]
             end;
        try contradiction; injection Hband as <- <- <-; reflexivity. }
    now rewrite Hb.
  - intros sev Hsev Hout. rewrite (severity_score_nth df i r Hi).
    unfold spec_severity_score. rewrite Hsev.
    destruct (Qlt_bool _ _); [reflexivity|].
    replace (band_violated sev df) with false; [reflexivity|].
    unfold band_violated, spec_band.
    repeat match goal with
           | |- context [String.eqb sev ?a] =>
               destruct (String.eqb_spec sev a) as [?|?];
               [subst sev; exfalso; apply Hout; simpl; tauto|]
           end.
    reflexivity.
  - vm_compute. reflexivity.
  - vm_compute. reflexivity.
Qed.

Lemma C4_severity_method_scores_witness :
  nth_error half_errors 0 = Some (record None "ERROR" "request served" 1)
  /\ nth 0 (_detect_severity_anomalies half_errors) 0 = 5 # 10
  /\ nth_error half_errors 9 = Some (record None "INFO" "request served" 10)
  /\ nth 9 (_detect_severity_anomalies half_errors) 0 = 0
  /\ nth_error one_fatal_in_200 199
     = Some (record None "FATAL" "request served" 200)
  /\ nth 199 (_detect_severity_anomalies one_fatal_in_200) 0 = 1
  /\ nth_error one_audit_in_10 0
     = Some (record None "AUDIT" "request served" 1)
  /\ ~ In "AUDIT" ["ERROR"; "FATAL"; "WARNING"; "INFO"; "DEBUG"]
  /\ nth 0 (_detect_severity_anomalies one_audit_in_10) 0
     = if Qlt_bool (frequency "AUDIT" one_audit_in_10) (1 # 100) then 1 else 0.
Proof.
  assert (Hout : ~ In "AUDIT" ["ERROR"; "FATAL"; "WARNING"; "INFO"; "DEBUG"])
    by (simpl; intuition discriminate).
  split; [reflexivity|]. split.
  { destruct (C4_severity_method_scores half_errors 0
                (record None "ERROR" "request served" 1) eq_refl)
      as (H & _).
    rewrite (H "ERROR" (1 # 1000) (1 # 10) eq_refl (or_introl eq_refl)).
    reflexivity. }
  split; [reflexivity|]. split.
  { destruct (C4_severity_method_scores half_errors 9
                (record None "INFO" "request served" 10) eq_refl)
      as (H & _).
    rewrite (H "INFO" (3 # 10) (95 # 100) eq_refl
               (or_intror (or_intror (or_intror (or_introl eq_refl))))).
    reflexivity. }
  split; [reflexivity|]. split.
  { destruct (C4_severity_method_scores one_fatal_in_200 199
                (record None "FATAL" "request served" 200) eq_refl)
      as (H & _).
    rewrite (H "FATAL" (1 # 10000) (5 # 100) eq_refl
               (or_intror (or_introl eq_refl))).
    reflexivity. }
  split; [reflexivity|]. split; [exact Hout|].
  destruct (C4_severity_method_scores one_audit_in_10 0
              (record None "AUDIT" "request served" 1) eq_refl)
    as (_ & H & _).
  apply H; [reflexivity|exact Hout].
Defined.

(** C7.  A table of fewer than ten records, the empty one included, has no
    anomaly, whatever its records hold. *)
Theorem C7_small_tables_have_no_anomaly {models : Models} {sorting : Sorting}
  (df : table) :
  (List.length df < 10)%nat -> detect_anomalies df = [].
Proof.
  intros H. rewrite detect_cases.
  now replace (List.length df <? 10)%nat with true
    by (symmetry; apply Nat.ltb_lt; exact H).
Qed.

Lemma C7_small_tables_have_no_anomaly_witness :
  (List.length nine_alarms < 10)%nat
  /\ detect_anomalies (models := loud) (sorting := stable) nine_alarms = [].
Proof.
  split; [vm_compute; lia|].
  apply (C7_small_tables_have_no_anomaly (models := loud) (sorting := stable)).
  vm_compute. lia.
Defined.

(** C9.  The indices detection returns are offsets into the table, and none
    comes twice. *)
Theorem C9_indices_are_valid_and_unique {models : Models} {sorting : Sorting}
  (Hs : argsort_spec sorting) (df : table) :
  NoDup (detect_anomalies df)
  /\ Forall (fun i => (0 <= i < List.length df)%nat) (detect_anomalies df).
Proof.
  rewrite detect_cases. destruct (List.length df <? 10)%nat.
  - split; constructor.
  - rewrite combine_cases by apply anomaly_scores_nonempty.
    set (fs := final_scores (anomaly_scores df) df).
    assert (Hfs : List.length fs = List.length df)
      by apply final_scores_length.
    destruct (List.length df <? _)%nat.
    + split.
      * apply last_k_nodup, (argsort_nodup Hs).
      * apply Forall_forall. intros i Hi. apply last_k_incl in Hi.
        apply (argsort_range Hs) in Hi. lia.
    + split.
      * apply where_above_nodup.
      * pose proof (where_above_bounds threshold fs 0) as H.
        eapply Forall_impl; [|exact H]. simpl. intros i Hi. lia.
Qed.

Lemma C9_indices_are_valid_and_unique_witness :
  NoDup (detect_anomalies (models := loud) (sorting := stable) ten_alarms)
  /\ Forall (fun i => (0 <= i < List.length ten_alarms)%nat)
            (detect_anomalies (models := loud) (sorting := stable) ten_alarms).
Proof.
  exact (C9_indices_are_valid_and_unique (models := loud) stable_argsort_spec
           ten_alarms).
Defined.

(** C10.  When at most ten records carry a timestamp the stack is
    statistical, text, severity, pattern; the combiner takes the first four
    weights 0.2, 0.25, 0.2, 0.15 by position, so that after the division by
    their sum the severity method weighs 0.25 (from the 0.2 written for the
    temporal method) and the pattern method 0.1875. *)
Theorem C10_weights_without_temporal {models : Models} {sorting : Sorting}
  (df : table) :
  (notna_count df <= 10)%nat ->
  let stack := anomaly_scores df in
  stack = [_detect_statistical_anomalies df; _detect_text_anomalies df;
           _detect_severity_anomalies df; _detect_pattern_anomalies df]
  /\ firstn (List.length stack) weights = [2 # 10; 25 # 100; 2 # 10; 15 # 100]
  /\ Forall2 Qeq (effective_weights (List.length stack))
                 [25 # 100; 3125 # 10000; 25 # 100; 1875 # 10000]
  /\ forall i,
       (i < List.length df)%nat ->
       nth i (final_scores stack df) 0
       == (25 # 100) * nth i (_detect_statistical_anomalies df) 0
          + (3125 # 10000) * nth i (_detect_text_anomalies df) 0
          + (25 # 100) * nth i (_detect_severity_anomalies df) 0
          + (1875 # 10000) * nth i (_detect_pattern_anomalies df) 0.
Proof.
  intros H stack.
  assert (Hstack : stack
                   = [_detect_statistical_anomalies df;
                      _detect_text_anomalies df;
                      _detect_severity_anomalies df;
                      _detect_pattern_anomalies df]).
  { unfold stack. rewrite temporal_gate.
    now replace (10 <? notna_count df)%nat with false
      by (symmetry; apply Nat.ltb_ge; exact H). }
  rewrite Hstack. split; [reflexivity|]. split; [reflexivity|]. split.
  - repeat constructor; reflexivity.
  - intros i Hi. unfold final_scores, column_stack.
    rewrite map_map, nth_map_seq by exact Hi.
    simpl map. unfold average.
    generalize (nth i (_detect_statistical_anomalies df) 0),
               (nth i (_detect_text_anomalies df) 0),
               (nth i (_detect_severity_anomalies df) 0),
               (nth i (_detect_pattern_anomalies df) 0).
    intros a b c d.
    vm_compute effective_weights. simpl dot. simpl sum. field.
Qed.

Lemma C10_weights_without_temporal_witness :
  (notna_count ten_timed <= 10)%nat
  /\ Forall2 Qeq
       (effective_weights
          (List.length
             (anomaly_scores (models := quiet) (sorting := stable) ten_timed)))
       [25 # 100; 3125 # 10000; 25 # 100; 1875 # 10000].
Proof.
  split; [vm_compute; lia|].
  destruct (C10_weights_without_temporal (models := quiet) (sorting := stable)
              ten_timed) as (_ & _ & H & _); [vm_compute; lia|exact H].
Defined.

End DetectorClaims.

(** * Further properties of the parser *)

Module ParserExtras.
Import Text Re Parser Aux ExtraAux TextFacts ReFacts ParserFacts ParserClaims.

(** *** Empty input *)

Lemma numbers_empty_all_space (k : nat) (s : string) :
  numbers_of k (split_nl s) = [] -> all_space s = true.
Proof.
  revert k. induction s as [|c s IH]; intros k H; [reflexivity|].
  rewrite numbers_profile, profile_String in H. simpl.
  destruct (is_newline c) eqn:En.
  - simpl in H. rewrite (newline_isspace c En). exact (IH (S k) H).
  - simpl in H. destruct (isspace c); simpl in *.
    + rewrite <- numbers_profile in H. exact (IH k H).
    + discriminate.
Qed.

Lemma numbers_all_space (k : nat) (s : string) :
  all_space s = true -> numbers_of k (split_nl s) = [].
Proof.
  intros H. now rewrite numbers_profile, (profile_all_space k s H).
Qed.

Lemma parsed_entries_empty (log_content : string) :
  parsed_entries log_content = [] <-> all_space log_content = true.
Proof.
  rewrite <- length_zero_iff_nil, parsed_entries_length.
  rewrite (count_nonblank_numbers 1), length_zero_iff_nil.
  split; [apply numbers_empty_all_space|apply numbers_all_space].
Qed.

(** X1.  [parse_logs] returns the empty table exactly on the texts made of
    whitespace only, the empty text among them. *)
Theorem X1_empty_table_iff_blank_text {lib : DateLib} (log_content : string) :
  parse_logs log_content = Returned [] <-> all_space log_content = true.
Proof.
  split.
  - intros H. apply parsed_entries_empty.
    apply parse_logs_rows in H. now inversion H.
  - intros H. apply parsed_entries_empty in H.
    unfold parse_logs. now rewrite H.
Qed.

(** *** Line numbers *)

Lemma numbers_of_bounds (k : nat) (ls : list string) :
  StronglySorted lt (numbers_of k ls)
  /\ Forall (fun n => k <= n < k + List.length ls) (numbers_of k ls).
Proof.
  revert k. induction ls as [|l ls IH]; intros k.
  - split; constructor.
  - rewrite numbers_of_cons. destruct (IH (S k)) as [Hs Hb].
    assert (Hb' : Forall (fun n => k <= n < k + List.length (l :: ls))
                         (numbers_of (S k) ls)).
    { eapply Forall_impl; [|exact Hb]. simpl. intros n Hn. lia. }
    destruct (all_space l); simpl.
    + split; assumption.
    + split.
      * constructor; [exact Hs|].
        eapply Forall_impl; [|exact Hb]. simpl. intros n Hn. lia.
      * constructor; [simpl; lia|exact Hb'].
Qed.

(** X2.  The line numbers of a parsed table increase strictly from record to
    record, and each lies between 1 and the number of lines of the stripped
    text. *)
Theorem X2_line_numbers_increase {lib : DateLib} (log_content : string)
  (t : list LogRecord) :
  parse_logs log_content = Returned t ->
  StronglySorted lt (map line_number t)
  /\ Forall (fun n => 1 <= n <= List.length (split_nl (strip log_content)))
            (map line_number t).
Proof.
  intros H. rewrite (table_numbers _ _ H).
  unfold parsed_entries. rewrite parse_lines_numbers.
  destruct (numbers_of_bounds 1 (split_nl (strip log_content))) as [Hs Hb].
  split; [exact Hs|].
  eapply Forall_impl; [|exact Hb]. simpl. intros n Hn'. lia.
Qed.

Lemma X2_line_numbers_increase_witness :
  parse_logs (lib := blind) sample_log = Returned sample_table
  /\ StronglySorted lt (map line_number sample_table)
  /\ Forall (fun n => 1 <= n <= List.length (split_nl (strip sample_log)))
            (map line_number sample_table).
Proof.
  assert (H : parse_logs (lib := blind) sample_log = Returned sample_table)
    by (vm_compute; reflexivity).
  split; [exact H|].
  exact (X2_line_numbers_increase (lib := blind) sample_log sample_table H).
Defined.

(** *** The dispatch over the patterns *)

Lemma star_loop_total (body : string -> env -> kont -> option env)
  (k : kont) :
  (forall s e, k s e <> None) ->
  forall n s e, star_loop body k n s e <> None.
Proof.
  intros Hk n. induction n as [|n IH]; intros s e; simpl; [apply Hk|].
  destruct (body s e _); [discriminate|apply Hk].
Qed.

(** The fallback pattern matches every text. *)
Lemma fallback_always (s : string) : re_match true fallback s <> None.
Proof.
  unfold re_match, fallback, any.
  change (star_loop (m true (Chr Dot))
            (fun s' e' => accept s' (("message", taken s s') :: e'))
            (String.length s) s [] <> None).
  apply star_loop_total. intros s' e'. discriminate.
Qed.

Lemma try_patterns_first (ps : list (string * regex)) (l : string) (n : nat)
  (entry : dict) :
  try_patterns ps l n = Some entry ->
  exists i name r e,
    nth_error ps i = Some (name, r)
    /\ re_match true r l = Some e
    /\ entry = build_entry name l n (groupdict r e)
    /\ forall j name' r',
         j < i -> nth_error ps j = Some (name', r') ->
         re_match true r' l = None.
Proof.
  induction ps as [|[name r] ps IH]; simpl; intros H; [discriminate|].
  destruct (re_match true r l) as [e|] eqn:E.
  - injection H as <-. exists 0, name, r, e.
    repeat split; auto. intros j name' r' Hj. lia.
  - destruct (IH H) as (i & name1 & r1 & e1 & Hi & Hm & He & Hbefore).
    exists (S i), name1, r1, e1. repeat split; auto.
    intros [|j] name' r' Hj Hnth; simpl in Hnth.
    + injection Hnth as <- <-. exact E.
    + eapply Hbefore; eauto. lia.
Qed.

Lemma try_patterns_never_none (l : string) (n : nat) :
  try_patterns patterns l n <> None.
Proof.
  unfold patterns. cbn [try_patterns].
  destruct (re_match true custom_domain l); [discriminate|].
  destruct (re_match true standard l); [discriminate|].
  destruct (re_match true apache l); [discriminate|].
  destruct (re_match true syslog l); [discriminate|].
  destruct (re_match true java l); [discriminate|].
  destruct (re_match true simple l); [discriminate|].
  pose proof (fallback_always l) as H.
  destruct (re_match true fallback l); [discriminate|congruence].
Qed.

Lemma build_entry_pattern_used (name line : string) (n : nat) (gd : dict) :
  lookup "pattern_used" (build_entry name line n gd) = Some (PStr name).
Proof.
  unfold build_entry.
  rewrite 4 lookup_setdefault_other by reflexivity.
  destruct (name =? "custom_domain")%string;
    rewrite ?lookup_set_other by reflexivity; apply lookup_set_same.
Qed.

Lemma build_entry_raw_line (name line : string) (n : nat) (gd : dict) :
  lookup "raw_line" (build_entry name line n gd) = Some (PStr line).
Proof.
  unfold build_entry.
  rewrite 4 lookup_setdefault_other by reflexivity.
  destruct (name =? "custom_domain")%string;
    rewrite ?lookup_set_other by reflexivity; apply lookup_set_same.
Qed.

Lemma parse_single_line_first (line : string) (n : nat) :
  is_blank line = false ->
  exists i name r e entry,
    nth_error patterns i = Some (name, r)
    /\ re_match true r (strip line) = Some e
    /\ (forall j name' r',
           j < i -> nth_error patterns j = Some (name', r') ->
           re_match true r' (strip line) = None)
    /\ _parse_single_line line n = Some entry
    /\ entry = build_entry name (strip line) n (groupdict r e)
    /\ cell_text entry "pattern_used" = Some name
    /\ cell_text entry "raw_line" = Some (strip line).
Proof.
  intros Hb. unfold _parse_single_line. unfold is_blank in Hb. rewrite Hb.
  destruct (try_patterns patterns (strip line) n) as [entry|] eqn:E.
  - destruct (try_patterns_first _ _ _ _ E)
      as (i & name & r & e & Hi & Hm & He & Hbefore).
    exists i, name, r, e, entry. repeat split; auto.
    + subst entry. unfold cell_text. now rewrite build_entry_pattern_used.
    + subst entry. unfold cell_text. now rewrite build_entry_raw_line.
  - exfalso. exact (try_patterns_never_none _ _ E).
Qed.


(** X3.  First match wins, and there is always one.  The entry of a line
    that is not blank is built from the first pattern, in the order of the
    dictionary, that matches the stripped line: every pattern before it
    fails on the line, it is the pattern the entry names, and the entry keeps
    the stripped line as its raw line.  As the fallback pattern matches every
    text, the entry written after the loop is never the result. *)
Theorem X3_first_matching_pattern_wins (line : string) (n : nat) :
  is_blank line = false ->
  exists i name r e entry,
    nth_error patterns i = Some (name, r)
    /\ re_match true r (strip line) = Some e
    /\ (forall j name' r',
           j < i -> nth_error patterns j = Some (name', r') ->
           re_match true r' (strip line) = None)
    /\ _parse_single_line line n = Some entry
    /\ entry = build_entry name (strip line) n (groupdict r e)
    /\ cell_text entry "pattern_used" = Some name
    /\ cell_text entry "raw_line" = Some (strip line).
Proof. exact (parse_single_line_first line n). Qed.

Lemma X3_first_matching_pattern_wins_witness :
  is_blank "  [ERROR] disk failure  " = false
  /\ exists i name r e entry,
       nth_error patterns i = Some (name, r)
       /\ re_match true r (strip "  [ERROR] disk failure  ") = Some e
       /\ (forall j name' r',
              j < i -> nth_error patterns j = Some (name', r') ->
              re_match true r' (strip "  [ERROR] disk failure  ") = None)
       /\ _parse_single_line "  [ERROR] disk failure  " 4 = Some entry
       /\ entry = build_entry name (strip "  [ERROR] disk failure  ") 4
                    (groupdict r e)
       /\ cell_text entry "pattern_used" = Some name
       /\ cell_text entry "raw_line" = Some (strip "  [ERROR] disk failure  ").
Proof.
  split; [reflexivity|].
  apply X3_first_matching_pattern_wins. reflexivity.
Defined.

(** *** The records of a parsed table *)

Lemma isset_cons (g g' t : string) (e : env) :
  isset g e -> isset g ((g', t) :: e).
Proof.
  unfold isset. simpl. destruct (g' =? g)%string; [discriminate|auto].
Qed.

(** A successful run of the matcher keeps the groups that are set, and sets
    the groups every match goes through. *)
Lemma m_sets (icase : bool) (g : string) (r : regex) :
  forall s e k x,
    m icase r s e k = Some x ->
    exists s' e',
      k s' e' = Some x
      /\ (isset g e -> isset g e')
      /\ (sets g r = true -> isset g e').
Proof.
  induction r as [|c|r1 IH1 r2 IH2|r1 IH1 r2 IH2|r1 IH1|g' r1 IH1|g'];
    simpl; intros s e k x H.
  - exists s, e. repeat split; auto; discriminate.
  - destruct s as [|a s]; [discriminate|].
    destruct (cmatch icase c a); [|discriminate].
    exists s, e. repeat split; auto; discriminate.
  - apply IH1 in H. destruct H as (s1 & e1 & H & B1 & S1).
    apply IH2 in H. destruct H as (s2 & e2 & H & B2 & S2).
    exists s2, e2. repeat split; auto.
    intros Hs. apply orb_true_iff in Hs. destruct Hs; auto.
  - destruct (m icase r1 s e k) as [y|] eqn:E.
    + injection H as ->. apply IH1 in E.
      destruct E as (s1 & e1 & H & B1 & S1).
      exists s1, e1. repeat split; auto.
      intros Hs. apply andb_true_iff in Hs. tauto.
    + apply IH2 in H. destruct H as (s1 & e1 & H & B1 & S1).
      exists s1, e1. repeat split; auto.
      intros Hs. apply andb_true_iff in Hs. tauto.
  - remember (String.length s) as n eqn:Hn. clear Hn. revert s e H.
    induction n as [|n IHn]; intros s e H; simpl in H.
    + exists s, e. repeat split; auto; discriminate.
    + destruct (m icase r1 s e _) as [y|] eqn:E.
      * injection H as ->. apply IH1 in E.
        destruct E as (s1 & e1 & H & B1 & _).
        destruct (String.length s1 <? String.length s); [|discriminate].
        apply IHn in H. destruct H as (s2 & e2 & H & B2 & _).
        exists s2, e2. repeat split; auto; discriminate.
      * exists s, e. repeat split; auto; discriminate.
  - apply IH1 in H. destruct H as (s1 & e1 & H & B1 & S1).
    exists s1, ((g', taken s s1) :: e1). repeat split; auto.
    + intros Hb. apply isset_cons. auto.
    + intros Hs. destruct (g' =? g)%string eqn:Eg.
      * unfold isset. simpl. rewrite Eg. discriminate.
      * apply isset_cons. auto.
  - destruct (lookup g' e) as [t|]; [|discriminate].
    destruct (read icase t s) as [s1|]; [|discriminate].
    exists s1, e. repeat split; auto; discriminate.
Qed.

Lemma re_match_sets (icase : bool) (g : string) (r : regex) (s : string)
  (e : env) :
  sets g r = true -> re_match icase r s = Some e -> isset g e.
Proof.
  intros Hs H. unfold re_match in H.
  destruct (m_sets icase g r s [] accept e H) as (s1 & e1 & Hk & _ & S1).
  unfold accept in Hk. injection Hk as ->. auto.
Qed.

Lemma message_ok_patterns :
  Forall (fun p => message_ok (snd p) = true) patterns.
Proof. repeat constructor. Qed.

Lemma build_entry_message (name line l : string) (n : nat) (r : regex)
  (e : env) :
  message_ok r = true -> re_match true r l = Some e ->
  exists msg,
    lookup "message" (build_entry name line n (groupdict r e))
    = Some (PStr msg).
Proof.
  intros Hok Hm. unfold build_entry. rewrite lookup_setdefault_same.
  rewrite 3 lookup_setdefault_other by reflexivity.
  destruct (name =? "custom_domain")%string.
  - rewrite lookup_set_same. eexists; reflexivity.
  - rewrite 3 lookup_set_other by reflexivity.
    unfold message_ok in Hok. apply orb_true_iff in Hok.
    destruct Hok as [Hs|Hout].
    + pose proof (re_match_sets true "message" r l e Hs Hm) as Hset.
      rewrite (lookup_groupdict_in "message" r e (sets_names _ _ Hs)).
      unfold isset in Hset. destruct (lookup "message" e) as [t|];
        [eexists; reflexivity|congruence].
    + apply negb_true_iff in Hout. rewrite (lookup_groupdict_out _ _ _ Hout).
      eexists; reflexivity.
Qed.

Lemma nth_error_name (ps : list (string * regex)) (i : nat) (name : string)
  (r : regex) :
  nth_error ps i = Some (name, r) -> In name (map fst ps).
Proof.
  intros H. apply nth_error_In in H.
  change name with (fst (name, r)). now apply in_map.
Qed.

Lemma strip_nonblank (line : string) :
  is_blank line = false -> strip line <> "".
Proof. unfold is_blank. intros H. now apply String.eqb_neq. Qed.

Lemma parse_single_line_ok (line : string) (n : nat) (entry : dict) :
  no_newline line = true -> _parse_single_line line n = Some entry ->
  entry_ok entry.
Proof.
  intros Hl H.
  assert (Hb : is_blank line = false).
  { unfold _parse_single_line in H. unfold is_blank.
    destruct (strip line =? "")%string; [discriminate|reflexivity]. }
  destruct (parse_single_line_first line n Hb)
    as (i & name & r & e & entry' & Hi & Hm & _ & Hp & He & Hu & Hr).
  rewrite H in Hp. injection Hp as <-.
  split; [exists name; split; [exact Hu|eapply nth_error_name; eauto]|].
  split.
  { exists (strip line). repeat split; auto.
    - now apply strip_nonblank.
    - apply strip_idem.
    - now apply no_newline_strip. }
  split.
  { destruct (parse_single_line_some line n Hb) as (e2 & He2 & _ & Ht & _).
    rewrite H in He2. now injection He2 as <-. }
  assert (Hok : message_ok r = true).
  { pose proof message_ok_patterns as Hall. rewrite Forall_forall in Hall.
    apply nth_error_In in Hi. exact (Hall _ Hi). }
  destruct (build_entry_message name (strip line) (strip line) n r e Hok Hm)
    as [msg Hmsg].
  exists msg. unfold cell_text. subst entry. now rewrite Hmsg.
Qed.

Lemma parse_lines_ok (lines : list (nat * string)) :
  Forall (fun p => no_newline (snd p) = true) lines ->
  Forall entry_ok (parse_lines lines).
Proof.
  induction 1 as [|[k l] lines Hl _ IH]; simpl; [constructor|].
  destruct (is_blank l); [exact IH|].
  destruct (_parse_single_line l k) as [[|x e]|] eqn:E; try exact IH.
  constructor; [|exact IH]. eapply parse_single_line_ok; eauto.
Qed.

Lemma enumerate_snd {A : Type} (P : A -> Prop) (k : nat) (xs : list A) :
  Forall P xs -> Forall (fun p => P (snd p)) (enumerate k xs).
Proof.
  intros H. revert k. induction H; intros k; simpl; constructor; auto.
Qed.

Lemma spec_table_nonempty (u : string) : u <> "" -> spec_table u <> "".
Proof.
  intros Hu. unfold spec_table.
  repeat match goal with
         | |- (if ?b then _ else _) <> _ => destruct b; [discriminate|]
         end.
  exact Hu.
Qed.

Section WithLib.
Context {lib : DateLib}.

Lemma post_process_row_ok (e : dict) (ts : option instant) :
  entry_ok e -> well_formed (post_process_row e ts).
Proof.
  intros ([name [Hn Hin]] & [l (Hl & Hne & Hs & Hnl)] & [tok [Ht Htne]]
          & [msg Hm]).
  unfold well_formed, post_process_row. simpl.
  rewrite Hn, Hl, Ht, Hm. simpl.
  repeat split; auto.
  - exists (map_severity (upper tok)). split; [reflexivity|].
    rewrite map_severity_table by now apply upper_nonempty.
    apply spec_table_nonempty. now apply upper_nonempty.
  - exists (strip msg). repeat split. apply strip_idem.
  - apply strip_idem.
  - destruct ts; [discriminate|congruence].
  - destruct ts; [reflexivity|congruence].
Qed.

(** X4.  Every record of a parsed table is well formed: its pattern is one of
    the seven of the parser; its raw line is a line of the text, stripped,
    not empty and without a newline; its severity and its message are not
    null, the severity not empty and the message stripped, with its length
    and word count beside it; its source is stripped; and [has_timestamp]
    says whether the timestamp is null. *)
Theorem X4_records_are_well_formed (log_content : string)
  (t : list LogRecord) :
  parse_logs log_content = Returned t -> Forall well_formed t.
Proof.
  intros H. apply parse_logs_rows in H.
  assert (Hok : Forall entry_ok (parsed_entries log_content)).
  { apply parse_lines_ok.
    apply (enumerate_snd (fun l => no_newline l = true)).
    apply split_nl_no_newline. }
  induction H as [|e r es rs [ts ->] _ IH]; [constructor|].
  inversion Hok; subst. constructor; [now apply post_process_row_ok|auto].
Qed.

End WithLib.

Lemma X4_records_are_well_formed_witness :
  parse_logs (lib := blind) sample_log = Returned sample_table
  /\ Forall well_formed sample_table.
Proof.
  assert (H : parse_logs (lib := blind) sample_log = Returned sample_table)
    by (vm_compute; reflexivity).
  split; [exact H|].
  exact (X4_records_are_well_formed (lib := blind) sample_log sample_table H).
Defined.

(** *** The custom format *)

Lemma lookup_setdefault_keep (k k' : string) (v v' : pyval) (d : dict) :
  lookup k d = Some v -> lookup k (dict_setdefault k' v' d) = Some v.
Proof.
  intros H. unfold dict_setdefault. destruct (lookup k' d); [exact H|].
  now rewrite lookup_app, H.
Qed.

Lemma build_entry_keeps (k name line : string) (n : nat) (gd : dict)
  (v : pyval) :
  ("line_number" =? k)%string = false -> ("raw_line" =? k)%string = false ->
  ("pattern_used" =? k)%string = false -> ("message" =? k)%string = false ->
  lookup k gd = Some v ->
  lookup k (build_entry name line n gd) = Some v.
Proof.
  intros H1 H2 H3 H4 Hk. unfold build_entry.
  repeat apply lookup_setdefault_keep.
  destruct (name =? "custom_domain")%string;
    now rewrite ?lookup_set_other by assumption.
Qed.

Lemma custom_captures (l : string) (e : env) :
  re_match true custom_domain l = Some e ->
  bound "source" e /\ bound "ip" e /\ bound "timestamp" e
  /\ bound "severity" e /\ bound "value" e.
Proof.
  intros H.
  split; [exact (re_match_bound true "source" custom_domain l e eq_refl eq_refl H)|].
  split; [exact (re_match_bound true "ip" custom_domain l e eq_refl eq_refl H)|].
  split; [exact (re_match_bound true "timestamp" custom_domain l e eq_refl eq_refl H)|].
  split; [exact (re_match_bound true "severity" custom_domain l e eq_refl eq_refl H)|].
  exact (re_match_bound true "value" custom_domain l e eq_refl eq_refl H).
Qed.

Lemma custom_parse (line : string) (n : nat) (e : env) :
  is_blank line = false ->
  re_match true custom_domain (strip line) = Some e ->
  exists src ip ts sev v entry,
    (lookup "source" e = Some src /\ lookup "ip" e = Some ip
     /\ lookup "timestamp" e = Some ts /\ lookup "severity" e = Some sev
     /\ lookup "value" e = Some v)
    /\ (src <> "" /\ ip <> "" /\ ts <> "" /\ sev <> "" /\ v <> "")
    /\ _parse_single_line line n = Some entry
    /\ cell_text entry "pattern_used" = Some "custom_domain"
    /\ cell_text entry "raw_line" = Some (strip line)
    /\ cell_text entry "source" = Some src
    /\ cell_text entry "ip" = Some ip
    /\ cell_text entry "timestamp" = Some ts
    /\ cell_text entry "severity" = Some sev
    /\ cell_text entry "value" = Some v
    /\ cell_text entry "message"
       = Some (src ++ " " ++ ip ++ " " ++ sev ++ " " ++ v)%string.
Proof.
  intros Hb Hm.
  destruct (custom_captures _ _ Hm)
    as ([src [Hsrc ?]] & [ip [Hip ?]] & [ts [Hts ?]] & [sev [Hsev ?]]
        & [v [Hv ?]]).
  exists src, ip, ts, sev, v.
  exists (build_entry "custom_domain" (strip line) n
            (groupdict custom_domain e)).
  split; [repeat split; assumption|].
  split; [repeat split; assumption|]. split.
  { unfold _parse_single_line. unfold is_blank in Hb. rewrite Hb.
    unfold patterns. cbn [try_patterns]. now rewrite Hm. }
  assert (Hgd : forall g t,
             In g (names custom_domain) -> lookup g e = Some t ->
             lookup g (groupdict custom_domain e) = Some (PStr t)).
  { intros g t Hin Hg. now rewrite lookup_groupdict_in, Hg. }
  assert (Hs := Hgd "source" src ltac:(simpl; tauto) Hsrc).
  assert (Hi := Hgd "ip" ip ltac:(simpl; tauto) Hip).
  assert (Ht := Hgd "timestamp" ts ltac:(simpl; tauto) Hts).
  assert (Hse := Hgd "severity" sev ltac:(simpl; tauto) Hsev).
  assert (Hva := Hgd "value" v ltac:(simpl; tauto) Hv).
  unfold cell_text.
  split; [now rewrite build_entry_pattern_used|].
  split; [now rewrite build_entry_raw_line|].
  repeat split.
  - now rewrite (build_entry_keeps "source" _ _ _ _ (PStr src)).
  - now rewrite (build_entry_keeps "ip" _ _ _ _ (PStr ip)).
  - now rewrite (build_entry_keeps "timestamp" _ _ _ _ (PStr ts)).
  - now rewrite (build_entry_keeps "severity" _ _ _ _ (PStr sev)).
  - now rewrite (build_entry_keeps "value" _ _ _ _ (PStr v)).
  - unfold build_entry. simpl String.eqb. cbv iota.
    rewrite lookup_setdefault_same.
    rewrite 3 lookup_setdefault_other by reflexivity.
    rewrite lookup_set_same. unfold dict_get.
    now rewrite !lookup_set_other, Hs, Hi, Hse, Hva by reflexivity.
Qed.

(** X5.  A line in the custom format (source, address, epoch digits,
    severity, value).  The five groups of the match are never empty; the
    entry has the pattern [custom_domain], keeps each group under its name,
    and its message is made of the source, the address, the severity as it is
    written and the value that were captured, with one space between them;
    the timestamp is not part of it. *)
Theorem X5_custom_format_message (line : string) (n : nat) (e : env) :
  is_blank line = false ->
  re_match true custom_domain (strip line) = Some e ->
  exists src ip ts sev v entry,
    (lookup "source" e = Some src /\ lookup "ip" e = Some ip
     /\ lookup "timestamp" e = Some ts /\ lookup "severity" e = Some sev
     /\ lookup "value" e = Some v)
    /\ (src <> "" /\ ip <> "" /\ ts <> "" /\ sev <> "" /\ v <> "")
    /\ _parse_single_line line n = Some entry
    /\ cell_text entry "pattern_used" = Some "custom_domain"
    /\ cell_text entry "raw_line" = Some (strip line)
    /\ cell_text entry "source" = Some src
    /\ cell_text entry "ip" = Some ip
    /\ cell_text entry "timestamp" = Some ts
    /\ cell_text entry "severity" = Some sev
    /\ cell_text entry "value" = Some v
    /\ cell_text entry "message"
       = Some (src ++ " " ++ ip ++ " " ++ sev ++ " " ++ v)%string.
Proof. exact (custom_parse line n e). Qed.

Lemma X5_custom_format_message_witness :
  is_blank "example.com 10.0.0.1 1700000000 warn 42" = false
  /\ re_match true custom_domain
       (strip "example.com 10.0.0.1 1700000000 warn 42")
     = Some [("value", "42"); ("severity", "warn");
             ("timestamp", "1700000000"); ("ip", "10.0.0.1");
             ("source", "example.com")]
  /\ exists entry,
       _parse_single_line "example.com 10.0.0.1 1700000000 warn 42" 2
       = Some entry
       /\ cell_text entry "ip" = Some "10.0.0.1"
       /\ cell_text entry "value" = Some "42"
       /\ cell_text entry "message" = Some "example.com 10.0.0.1 warn 42".
Proof.
  assert (H : re_match true custom_domain
                (strip "example.com 10.0.0.1 1700000000 warn 42")
              = Some [("value", "42"); ("severity", "warn");
                      ("timestamp", "1700000000"); ("ip", "10.0.0.1");
                      ("source", "example.com")])
    by (vm_compute; reflexivity).
  split; [reflexivity|]. split; [exact H|].
  destruct (X5_custom_format_message
              "example.com 10.0.0.1 1700000000 warn 42" 2 _ eq_refl H)
    as (src & ip & ts & sev & v & entry & Hg & _ & Hp & _ & _ & _ & Hip & _
        & _ & Hv & Hmsg).
  destruct Hg as (Hsrc & Hip' & _ & Hsev & Hv').
  simpl in Hsrc, Hip', Hsev, Hv'.
  injection Hsrc as <-. injection Hip' as <-. injection Hsev as <-.
  injection Hv' as <-.
  exists entry. auto.
Defined.

(** *** Severity normalization, again *)

Lemma append_assoc3 (a b c : string) :
  ((a ++ b) ++ c)%string = (a ++ (b ++ c))%string.
Proof. induction a as [|x a IH]; simpl; [reflexivity|now rewrite IH]. Qed.

Lemma upper_app (a b : string) :
  upper (a ++ b)%string = (upper a ++ upper b)%string.
Proof.
  induction a as [|c a IH]; simpl; [reflexivity|].
  now rewrite IH, append_assoc3.
Qed.

Lemma upper_char_fixed (c : ascii) : upper (upper_char c) = upper_char c.
Proof.
  destruct c as [[] [] [] [] [] [] [] []]; vm_compute; reflexivity.
Qed.

(** [str.upper] is idempotent. *)
Lemma upper_idem (s : string) : upper (upper s) = upper s.
Proof.
  induction s as [|c s IH]; simpl; [reflexivity|].
  now rewrite upper_app, upper_char_fixed, IH.
Qed.

Lemma spec_table_fixed (u : string) :
  upper u = u -> spec_table (upper (spec_table u)) = spec_table u.
Proof.
  intros Hu. unfold spec_table at 2 3. unfold in_list.
  cbv beta iota delta [existsb].
  repeat match goal with
         | |- context [String.eqb ?a u] =>
             destruct (String.eqb_spec a u) as [?|?];
             [subst u; reflexivity|]
         end.
  cbv beta iota delta [orb]. rewrite Hu.
  unfold spec_table, in_list. cbv beta iota delta [existsb].
  repeat match goal with
         | |- context [String.eqb ?a u] =>
             destruct (String.eqb_spec a u) as [?|?]; [contradiction|]
         end.
  reflexivity.
Qed.

Lemma normalize_twice (tok : string) :
  tok <> "" ->
  normalize_severity (normalize_severity (Some tok))
  = normalize_severity (Some tok).
Proof.
  intros H. rewrite (normalize_severity_spec tok H).
  assert (Hne : spec_normalize tok <> "")
    by (apply spec_table_nonempty; now apply upper_nonempty).
  rewrite (normalize_severity_spec _ Hne). f_equal.
  unfold spec_normalize at 1. unfold spec_normalize.
  apply spec_table_fixed, upper_idem.
Qed.

(** X6.  Severity normalization is idempotent: normalizing a token that is
    already normalized changes nothing, so that the severity column of a
    parsed table is left as it is by a second normalization. *)
Theorem X6_normalization_is_idempotent {lib : DateLib} :
  (forall tok,
      tok <> "" ->
      normalize_severity (normalize_severity (Some tok))
      = normalize_severity (Some tok))
  /\ (forall log_content t,
         parse_logs log_content = Returned t ->
         map (fun r => normalize_severity (severity r)) t = map severity t).
Proof.
  split; [exact normalize_twice|].
  intros log_content t H. apply parse_logs_rows in H.
  pose proof (parse_lines_token
                (enumerate 1 (split_nl (strip log_content)))) as Ht.
  fold (parsed_entries log_content) in Ht.
  induction H as [|e r es rs [ts ->] _ IH]; [reflexivity|].
  inversion Ht as [|e' es' [tok [Htok Hne]] Hrest]; subst.
  simpl. rewrite Htok, (normalize_twice tok Hne). f_equal. now apply IH.
Qed.

Lemma X6_normalization_is_idempotent_witness :
  "Critical" <> ""
  /\ normalize_severity (normalize_severity (Some "Critical"))
     = normalize_severity (Some "Critical")
  /\ parse_logs (lib := blind) sample_log = Returned sample_table
  /\ map (fun r => normalize_severity (severity r)) sample_table
     = map severity sample_table.
Proof.
  destruct (X6_normalization_is_idempotent (lib := blind)) as [H1 H2].
  assert (H : parse_logs (lib := blind) sample_log = Returned sample_table)
    by (vm_compute; reflexivity).
  split; [discriminate|]. split; [apply H1; discriminate|].
  split; [exact H|exact (H2 _ _ H)].
Defined.

(** *** Timestamp coercion, again *)

Lemma decimal_not_space (c : ascii) : isdecimal c = true -> isspace c = false.
Proof.
  destruct c as [[] [] [] [] [] [] [] []]; vm_compute; congruence.
Qed.

Lemma decimal_is_digit (s : string) : all_decimal s = true -> all_digit s = true.
Proof.
  induction s as [|c s IH]; simpl; [auto|]. intros H.
  apply andb_true_iff in H. destruct H as [Hc Hs].
  unfold isdigit_char. now rewrite Hc, (IH Hs).
Qed.

Lemma rstrip_decimal (s : string) : all_decimal s = true -> rstrip s = s.
Proof.
  induction s as [|c s IH]; simpl; [auto|]. intros H.
  apply andb_true_iff in H. destruct H as [Hc Hs].
  rewrite (IH Hs). destruct s; [|reflexivity].
  now rewrite (decimal_not_space c Hc).
Qed.

Lemma strip_decimal (s : string) : all_decimal s = true -> strip s = s.
Proof.
  intros H. unfold strip. rewrite lstrip_fixed; [now apply rstrip_decimal|].
  destruct s as [|c s]; [exact I|]. simpl in H.
  apply andb_true_iff in H. now apply decimal_not_space.
Qed.

Section WithLib.
Context {lib : DateLib}.

(** X7.  The epoch reading comes first.  A token made of the digits 0 to 9
    only (at most 4300 of them) is, whatever the date formats would read in
    it, coerced to that many seconds since the epoch when the local reading
    of that instant is not past the year 9999: the compact date 20230101 is
    an instant of 1970.  This is so on every platform for a value up to
    253402210799, which is 25 hours before the end of the year 9999 in UTC.
    When the value fits [time_t] and its local reading is past the year
    9999, the token goes on to the date formats instead. *)
Theorem X7_digits_are_read_as_epoch (s : string) (n : N) :
  s <> "" -> all_decimal s = true -> String.length s <= 4300 ->
  digits_value 0 s = Some n ->
  ((Z.of_N n + utcoffset (Z.of_N n) <= 253402300799)%Z ->
   _parse_timestamp (Some s) = Returned (Some (inject_Z (Z.of_N n))))
  /\ ((n <= 253402210799)%N ->
      _parse_timestamp (Some s) = Returned (Some (inject_Z (Z.of_N n))))
  /\ ((n < 2 ^ 63)%N ->
      (253402300799 < Z.of_N n + utcoffset (Z.of_N n))%Z ->
      _parse_timestamp (Some s) = Returned (after_epoch s)).
Proof.
  intros Hne Hd Hlen Hv. destruct s as [|c s]; [congruence|].
  unfold _parse_timestamp. rewrite (strip_decimal _ Hd).
  unfold isdigit. rewrite (decimal_is_digit _ Hd). cbn [negb andb String.eqb].
  unfold int, bind.
  replace (4300 <? String.length (String c s)) with false
    by (symmetry; apply Nat.ltb_ge; exact Hlen).
  rewrite Hv. split; [|split].
  - intros Hn. now rewrite (fromtimestamp_local n Hn).
  - intros Hn. now rewrite (fromtimestamp_safe n Hn).
  - intros Hfit Hpast. unfold fromtimestamp.
    replace (2 ^ 63 <=? n)%N with false
      by (symmetry; apply N.leb_gt; exact Hfit).
    now replace (253402300799 <? _)%Z with true
      by (symmetry; apply Z.ltb_lt; exact Hpast).
Qed.

(** X8.  Only the stripped token counts: a token that is not blank is
    coerced as the token without the whitespace around it. *)
Theorem X8_coercion_ignores_outer_whitespace (raw : string) :
  strip raw <> "" ->
  _parse_timestamp (Some raw) = _parse_timestamp (Some (strip raw)).
Proof.
  intros H. destruct raw as [|c raw]; [reflexivity|].
  destruct (strip (String c raw)) as [|a t] eqn:E; [congruence|].
  unfold _parse_timestamp. rewrite E, <- E, strip_idem. reflexivity.
Qed.

Lemma replace_without (a b : ascii) (s : string) :
  mem_char a s = false -> replace_char a b s = s.
Proof.
  induction s as [|c s IH]; simpl; [reflexivity|]. intros H.
  apply orb_false_iff in H. destruct H as [Hc Hs].
  now rewrite Hc, (IH Hs).
Qed.

Lemma try_plain_then (fmts rest : list string) (s : string) :
  Forall (fun fmt => contains ",%f" fmt = false) fmts ->
  (forall fmt, In fmt fmts -> strptime s fmt = None) ->
  try_formats (fmts ++ rest) s = try_formats rest s.
Proof.
  induction 1 as [|fmt fmts Hf _ IH]; simpl; intros Hnone; [reflexivity|].
  rewrite Hf. simpl. rewrite (Hnone fmt) by now left.
  apply IH. intros f Hin. apply Hnone. now right.
Qed.

Lemma plain_formats_plain :
  Forall (fun fmt => contains ",%f" fmt = false) plain_formats.
Proof. repeat constructor. Qed.

Lemma after_plain_formats (s : string) :
  (forall fmt, In fmt plain_formats -> strptime s fmt = None) ->
  after_epoch s
  = match strptime (replace_char comma period s) java_format with
    | Some t => Some t
    | None => to_datetime (replace_char comma period s)
    end.
Proof.
  intros Hnone. unfold after_epoch.
  change formats with (plain_formats ++ [java_format]).
  rewrite (try_plain_then _ _ _ plain_formats_plain Hnone).
  cbn [try_formats].
  replace (contains ",%f" java_format) with true by reflexivity.
  cbn [andb].
  assert (Hs : (if mem_char comma s then replace_char comma period s else s)
               = replace_char comma period s).
  { destruct (mem_char comma s) eqn:E; [reflexivity|].
    symmetry. now apply replace_without. }
  rewrite Hs. now destruct (strptime _ java_format).
Qed.

(** X9.  The comma of a Java timestamp.  When none of the nine formats
    before it reads a token, the Java format (the one with a comma before the
    fraction) is tried on the token with every comma turned into a period,
    never on the token as it is written, and after it the generic reader
    gets that rewritten token. *)
Theorem X9_java_format_meets_a_rewritten_token (raw : string) :
  raw <> "" -> isdigit (strip raw) = false ->
  (forall fmt, In fmt plain_formats -> strptime (strip raw) fmt = None) ->
  _parse_timestamp (Some raw)
  = Returned
      (match strptime (replace_char comma period (strip raw)) java_format with
       | Some t => Some t
       | None => to_datetime (replace_char comma period (strip raw))
       end).
Proof.
  intros Hne Hd Hnone. destruct raw as [|c raw]; [congruence|].
  unfold _parse_timestamp. rewrite Hd. f_equal.
  now apply after_plain_formats.
Qed.






End WithLib.

Lemma X7_digits_are_read_as_epoch_witness :
  "20230101" <> ""
  /\ all_decimal "20230101" = true
  /\ String.length "20230101" <= 4300
  /\ digits_value 0 "20230101" = Some 20230101%N
  /\ (20230101 <= 253402210799)%N
  /\ _parse_timestamp (lib := blind) (Some "20230101")
     = Returned (Some (inject_Z (Z.of_N 20230101)))
  /\ (253402300799
      < Z.of_N 253402300799
        + utcoffset (DateLib := east) (Z.of_N 253402300799))%Z
  /\ _parse_timestamp (lib := east) (Some "253402300799")
     = Returned (after_epoch (lib := east) "253402300799")
  /\ _parse_timestamp (lib := blind) (Some "253402300799")
     = Returned (Some (inject_Z (Z.of_N 253402300799))).
Proof.
  assert (Hlen : String.length "20230101" <= 4300) by (simpl; lia).
  assert (Hlen' : String.length "253402300799" <= 4300) by (simpl; lia).
  assert (Hn : (20230101 <= 253402210799)%N) by lia.
  assert (Hpast : (253402300799
                   < Z.of_N 253402300799
                     + utcoffset (DateLib := east) (Z.of_N 253402300799))%Z)
    by reflexivity.
  split; [discriminate|]. split; [reflexivity|]. split; [exact Hlen|].
  split; [reflexivity|]. split; [exact Hn|]. split; [|split; [exact Hpast|split]].
  - destruct (X7_digits_are_read_as_epoch (lib := blind) "20230101" 20230101)
      as (_ & H & _); [discriminate|reflexivity|exact Hlen|reflexivity|].
    exact (H Hn).
  - destruct (X7_digits_are_read_as_epoch (lib := east) "253402300799"
                253402300799)
      as (_ & _ & H); [discriminate|reflexivity|exact Hlen'|reflexivity|].
    exact (H eq_refl Hpast).
  - destruct (X7_digits_are_read_as_epoch (lib := blind) "253402300799"
                253402300799)
      as (H & _ & _); [discriminate|reflexivity|exact Hlen'|reflexivity|].
    apply H. apply Z.leb_le. reflexivity.
Defined.

Lemma X8_coercion_ignores_outer_whitespace_witness :
  strip "  1700000000 " <> ""
  /\ _parse_timestamp (lib := blind) (Some "  1700000000 ")
     = _parse_timestamp (lib := blind) (Some (strip "  1700000000 ")).
Proof.
  assert (H : strip "  1700000000 " <> "") by (vm_compute; discriminate).
  split; [exact H|].
  exact (X8_coercion_ignores_outer_whitespace (lib := blind) _ H).
Defined.

Lemma X9_java_format_meets_a_rewritten_token_witness :
  "2023-01-01 12:00:00,123" <> ""
  /\ isdigit (strip "2023-01-01 12:00:00,123") = false
  /\ (forall fmt,
         In fmt plain_formats ->
         strptime (DateLib := blind) (strip "2023-01-01 12:00:00,123") fmt
         = None)
  /\ _parse_timestamp (lib := blind) (Some "2023-01-01 12:00:00,123")
     = Returned
         (match strptime (DateLib := blind)
                  (replace_char comma period
                     (strip "2023-01-01 12:00:00,123")) java_format with
          | Some t => Some t
          | None =>
              to_datetime (DateLib := blind)
                (replace_char comma period (strip "2023-01-01 12:00:00,123"))
          end).
Proof.
  split; [discriminate|]. split; [reflexivity|].
  split; [intros fmt _; reflexivity|].
  apply (X9_java_format_meets_a_rewritten_token (lib := blind));
    [discriminate|reflexivity|intros fmt _; reflexivity].
Defined.

End ParserExtras.

(** * Further properties of the detector *)

Module DetectorExtras.
Import Text Re Parser Detector Aux DetectorAux ExtraAux.
Import TextFacts ParserFacts DetectorFacts.

Local Open Scope Q_scope.

(** *** The pattern method *)

Lemma suspicious_fold (message_lower : string) (ps : list regex) (acc : Q) :
  acc = 0 \/ acc = 7 # 10 ->
  fold_left (fun acc pattern =>
               if re_search false pattern message_lower then pymax acc (7 # 10)
               else acc) ps acc
  = if existsb (fun pattern => re_search false pattern message_lower) ps
    then 7 # 10 else acc.
Proof.
  revert acc. induction ps as [|p ps IH]; intros acc Hacc; simpl;
    [reflexivity|].
  destruct (re_search false p message_lower); simpl.
  - rewrite IH by (destruct Hacc as [-> | ->]; right; reflexivity).
    destruct Hacc as [-> | ->]; now destruct (existsb _ ps).
  - now apply IH.
Qed.

Lemma pattern_score_priority (message : string) :
  pattern_score message = priority_score message.
Proof.
  unfold pattern_score, priority_score, suspicious.
  rewrite suspicious_fold by (left; reflexivity).
  destruct (existsb _ suspicious_patterns);
    destruct (1000 <? String.length message)%nat;
    destruct (re_search false (Chr NonAscii) message);
    destruct (re_search false repeated_character message); reflexivity.
Qed.

(** X16.  The pattern method scores a message by the most severe of the
    checks it fails, and never adds two checks up: 0.7 when one of the ten
    suspicious patterns is found in the lower-cased message, else 0.4 for a
    character repeated eleven times or more, else 0.3 for a message of more
    than 1000 characters, else 0.2 for a character that is not ASCII, else
    0; a null message is scored as the empty one. *)
Theorem X16_pattern_score_is_the_worst_check (df : table) :
  _detect_pattern_anomalies df
  = map (fun r => priority_score (fillna_str (message r))) df.
Proof.
  unfold _detect_pattern_anomalies. apply map_ext. intros r.
  apply pattern_score_priority.
Qed.


(** *** The scores of the methods *)

Lemma set_nth_length (i : nat) (v : Q) (arr : list Q) :
  List.length (set_nth i v arr) = List.length arr.
Proof.
  revert i. induction arr as [|x arr IH]; intros [|i]; simpl; auto.
Qed.

Lemma set_nth_forall (P : Q -> Prop) (i : nat) (v : Q) (arr : list Q) :
  P v -> Forall P arr -> Forall P (set_nth i v arr).
Proof.
  intros Hv H. revert i. induction H as [|x arr Hx Harr IH]; intros [|i];
    simpl; constructor; auto.
Qed.

Lemma mark_gaps_length (anomalous : list bool) (indices : list nat)
  (i : nat) (arr : list Q) :
  List.length (mark_gaps i anomalous indices arr) = List.length arr.
Proof.
  revert i arr. induction anomalous as [|b rest IH]; intros i arr; simpl;
    [reflexivity|].
  rewrite IH. destruct (i <? List.length indices)%nat;
    [apply set_nth_length|reflexivity].
Qed.

Lemma mark_gaps_forall (P : Q -> Prop) (anomalous : list bool)
  (indices : list nat) (i : nat) (arr : list Q) :
  P 0 -> P 1 -> Forall P arr -> Forall P (mark_gaps i anomalous indices arr).
Proof.
  intros H0 H1. revert i arr.
  induction anomalous as [|b rest IH]; intros i arr Harr; simpl; [exact Harr|].
  apply IH. destruct (i <? List.length indices)%nat; [|exact Harr].
  apply set_nth_forall; [now destruct b|exact Harr].
Qed.

Lemma zeros_takes (values : list Q) (n : nat) :
  In 0 values -> takes values (zeros n).
Proof.
  intros H. unfold takes, zeros. apply Forall_forall. intros x Hx.
  apply repeat_spec in Hx. now subst x.
Qed.

Lemma astype_float_length (n : nat) (f : nat -> bool) :
  List.length (astype_float n f) = n.
Proof. unfold astype_float. now rewrite length_map, length_seq. Qed.

Lemma astype_float_takes (n : nat) (f : nat -> bool) :
  takes [0; 1] (astype_float n f).
Proof.
  unfold takes, astype_float. apply Forall_forall. intros x Hx.
  apply in_map_iff in Hx. destruct Hx as (i & <- & _).
  destruct (f i); simpl; auto.
Qed.

Lemma sum_nonneg (ws : list Q) : Forall (fun w => 0 <= w) ws -> 0 <= sum ws.
Proof.
  induction 1 as [|w ws Hw _ IH]; simpl; [apply Qle_refl|]. lra.
Qed.

Lemma dot_bounds (row ws : list Q) :
  Forall (fun w => 0 <= w) ws ->
  Forall (fun x => 0 <= x /\ x <= 1) row ->
  0 <= dot row ws /\ dot row ws <= sum ws.
Proof.
  intros Hws. revert row. induction Hws as [|w ws Hw Hws IH]; intros row Hrow.
  - destruct row; simpl; split; apply Qle_refl.
  - destruct Hrow as [|x row [Hx0 Hx1] Hrow]; simpl.
    + pose proof (sum_nonneg ws Hws). split; lra.
    + destruct (IH row Hrow) as [H0 H1].
      assert (0 <= x * w) by (apply Qmult_le_0_compat; assumption).
      assert (x * w <= w).
      { setoid_replace w with (1 * w) at 2 by ring.
        apply Qmult_le_compat_r; assumption. }
      split; lra.
Qed.

Lemma average_bounds (ws row : list Q) :
  Forall (fun w => 0 <= w) ws -> 0 < sum ws ->
  Forall (fun x => 0 <= x /\ x <= 1) row ->
  0 <= average ws row /\ average ws row <= 1.
Proof.
  intros Hws Hs Hrow. destruct (dot_bounds row ws Hws Hrow) as [H0 H1].
  unfold average. split.
  - apply Qle_shift_div_l; [exact Hs|]. lra.
  - apply Qle_shift_div_r; [exact Hs|]. lra.
Qed.

Lemma takes_unit (values : list Q) (scores : list Q) :
  Forall (fun v => 0 <= v /\ v <= 1) values -> takes values scores ->
  Forall (fun x => 0 <= x /\ x <= 1) scores.
Proof.
  intros Hv H. unfold takes in H. rewrite Forall_forall in *.
  intros x Hx. apply Hv, H, Hx.
Qed.

Lemma nth_unit (i : nat) (scores : list Q) :
  Forall (fun x => 0 <= x /\ x <= 1) scores ->
  0 <= nth i scores 0 /\ nth i scores 0 <= 1.
Proof.
  intros H. revert i. induction H as [|x l Hx _ IH]; intros [|i]; simpl;
    try (split; lra); auto.
Qed.

Section Scores.
Context {models : Models} {sorting : Sorting}.

Lemma statistical_scores (df : table) :
  List.length (_detect_statistical_anomalies df) = List.length df
  /\ takes [0; 1] (_detect_statistical_anomalies df).
Proof.
  unfold _detect_statistical_anomalies.
  destruct (List.length df <? 5)%nat;
    [|destruct (statistical_model _)];
    rewrite ?zeros_length, ?astype_float_length;
    (split; [reflexivity|]);
    try apply astype_float_takes; apply zeros_takes; simpl; auto.
Qed.

Lemma text_scores (df : table) :
  List.length (_detect_text_anomalies df) = List.length df
  /\ takes [0; 1] (_detect_text_anomalies df).
Proof.
  unfold _detect_text_anomalies.
  destruct (List.length _ <? 5)%nat;
    [|destruct (text_model _)];
    rewrite ?zeros_length, ?astype_float_length;
    (split; [reflexivity|]);
    try apply astype_float_takes; apply zeros_takes; simpl; auto.
Qed.

Lemma temporal_scores (df : table) :
  List.length (_detect_temporal_anomalies df) = List.length df
  /\ takes [0; 1] (_detect_temporal_anomalies df).
Proof.
  unfold _detect_temporal_anomalies.
  destruct (List.length (with_time 0 df) <? 10)%nat;
    [rewrite zeros_length; split; [reflexivity|apply zeros_takes; simpl; auto]|].
  destruct (List.length (diff _) <? 5)%nat;
    [rewrite zeros_length; split; [reflexivity|apply zeros_takes; simpl; auto]|].
  rewrite mark_gaps_length, zeros_length. split; [reflexivity|].
  apply mark_gaps_forall;
    [simpl; auto|simpl; auto|apply zeros_takes; simpl; auto].
Qed.

Lemma severity_scores (df : table) :
  List.length (_detect_severity_anomalies df) = List.length df
  /\ takes [0; 5 # 10; 1] (_detect_severity_anomalies df).
Proof.
  split; [apply severity_length|].
  unfold takes. apply Forall_forall. intros x Hx.
  apply In_nth with (d := 0) in Hx. destruct Hx as (i & Hi & <-).
  rewrite severity_length in Hi.
  destruct (nth_error df i) as [r|] eqn:E;
    [|apply nth_error_None in E; lia].
  rewrite (severity_score_nth df i r E). unfold spec_severity_score.
  destruct (severity r) as [sev|]; [|simpl; auto].
  destruct (Qlt_bool _ _); [simpl; auto|].
  destruct (band_violated sev df); simpl; auto.
Qed.

Lemma pattern_scores (df : table) :
  List.length (_detect_pattern_anomalies df) = List.length df
  /\ takes [0; 2 # 10; 3 # 10; 4 # 10; 7 # 10] (_detect_pattern_anomalies df).
Proof.
  unfold _detect_pattern_anomalies. split; [apply length_map|].
  unfold takes. apply Forall_forall. intros x Hx.
  apply in_map_iff in Hx. destruct Hx as (r & <- & _).
  rewrite pattern_score_priority. unfold priority_score.
  destruct (suspicious _); [simpl; tauto|].
  destruct (re_search false repeated_character _); [simpl; tauto|].
  destruct (1000 <? _)%nat; [simpl; tauto|].
  destruct (re_search false (Chr NonAscii) _); simpl; tauto.
Qed.

Lemma columns_unit (df : table) :
  Forall (fun column => List.length column = List.length df
                        /\ Forall (fun x => 0 <= x /\ x <= 1) column)
         (anomaly_scores df).
Proof.
  destruct (statistical_scores df) as [L1 T1].
  destruct (text_scores df) as [L2 T2].
  destruct (temporal_scores df) as [L3 T3].
  destruct (severity_scores df) as [L4 T4].
  destruct (pattern_scores df) as [L5 T5].
  assert (U1 : Forall (fun v => 0 <= v /\ v <= 1) [0; 1])
    by (repeat constructor; discriminate).
  assert (U4 : Forall (fun v => 0 <= v /\ v <= 1) [0; 5 # 10; 1])
    by (repeat constructor; discriminate).
  assert (U5 : Forall (fun v => 0 <= v /\ v <= 1)
                      [0; 2 # 10; 3 # 10; 4 # 10; 7 # 10])
    by (repeat constructor; discriminate).
  rewrite temporal_gate. destruct (10 <? notna_count df)%nat;
    repeat constructor; eauto using takes_unit.
Qed.

Lemma final_scores_unit (df : table) :
  Forall (fun x => 0 <= x /\ x <= 1) (final_scores (anomaly_scores df) df).
Proof.
  pose proof (columns_unit df) as Hc.
  unfold final_scores, column_stack. rewrite map_map.
  apply Forall_forall. intros x Hx. apply in_map_iff in Hx.
  destruct Hx as (i & <- & _).
  assert (Hrow : Forall (fun x => 0 <= x /\ x <= 1)
                        (map (fun column => nth i column 0) (anomaly_scores df))).
  { apply Forall_map. eapply Forall_impl; [|exact Hc].
    intros column [_ H]. now apply nth_unit. }
  revert Hrow. generalize (map (fun column => nth i column 0) (anomaly_scores df)).
  intros row Hrow.
  assert (Hk : List.length (anomaly_scores df) = 4%nat
               \/ List.length (anomaly_scores df) = 5%nat).
  { rewrite temporal_gate. destruct (10 <? notna_count df)%nat; auto. }
  destruct Hk as [-> | ->]; apply average_bounds; try exact Hrow;
    try (repeat constructor; discriminate); reflexivity.
Qed.

End Scores.

(** X17.  The scores of the five methods and of the combiner.  Each method
    returns one score per record; the statistical, the text and the temporal
    method score 0 or 1, the severity method 0, 0.5 or 1, the pattern method
    0, 0.2, 0.3, 0.4 or 0.7.  The columns the detector stacks thus all have
    the length of the table, and every combined score lies between 0
    and 1. *)
Theorem X17_scores_are_fractions {models : Models} {sorting : Sorting}
  (df : table) :
  (List.length (_detect_statistical_anomalies df) = List.length df
   /\ takes [0; 1] (_detect_statistical_anomalies df))
  /\ (List.length (_detect_text_anomalies df) = List.length df
      /\ takes [0; 1] (_detect_text_anomalies df))
  /\ (List.length (_detect_temporal_anomalies df) = List.length df
      /\ takes [0; 1] (_detect_temporal_anomalies df))
  /\ (List.length (_detect_severity_anomalies df) = List.length df
      /\ takes [0; 5 # 10; 1] (_detect_severity_anomalies df))
  /\ (List.length (_detect_pattern_anomalies df) = List.length df
      /\ takes [0; 2 # 10; 3 # 10; 4 # 10; 7 # 10]
               (_detect_pattern_anomalies df))
  /\ Forall (fun column => List.length column = List.length df)
            (anomaly_scores df)
  /\ List.length (final_scores (anomaly_scores df) df) = List.length df
  /\ Forall (fun x => 0 <= x /\ x <= 1) (final_scores (anomaly_scores df) df).
Proof.
  split; [apply statistical_scores|]. split; [apply text_scores|].
  split; [apply temporal_scores|]. split; [apply severity_scores|].
  split; [apply pattern_scores|]. split; [|split].
  - eapply Forall_impl; [|apply columns_unit]. simpl. tauto.
  - apply final_scores_length.
  - apply final_scores_unit.
Qed.

(** *** The temporal method *)











Section Temporal.
Context {models : Models} {sorting : Sorting}.
Hypothesis Hs : argsort_spec sorting.





End Temporal.



(** *** What it takes to be reported *)

Section Reported.
Context {models : Models} {sorting : Sorting}.
Hypothesis Hs : argsort_spec sorting.

Lemma detect_valid (df : table) :
  Forall (fun i => (i < List.length df)%nat) (detect_anomalies df).
Proof.
  rewrite detect_cases. destruct (List.length df <? 10)%nat; [constructor|].
  rewrite combine_cases by apply anomaly_scores_nonempty.
  destruct (List.length df <? _)%nat.
  - apply Forall_forall. intros i Hi. apply last_k_incl in Hi.
    apply (argsort_range Hs) in Hi. now rewrite final_scores_length in Hi.
  - pose proof (where_above_bounds threshold
                  (final_scores (anomaly_scores df) df) 0) as H.
    rewrite final_scores_length in H.
    eapply Forall_impl; [|exact H]. simpl. intros i Hi. lia.
Qed.

(** The offsets kept by the cap are among those above the threshold: were
    one of them not, every offset above the threshold would be kept with it,
    one more than the cap holds. *)
Lemma top_are_flagged (fs : list Q) (k : nat) :
  (0 < k)%nat -> (k < List.length (where_above threshold 0 fs))%nat ->
  incl (last_k k (argsort fs)) (where_above threshold 0 fs).
Proof.
  intros Hk Hmany. set (flagged := where_above threshold 0 fs) in *.
  set (n := List.length fs).
  assert (Hkn : (k <= n)%nat).
  { pose proof (where_above_length threshold fs 0). fold flagged in H.
    unfold n. lia. }
  assert (Hlen : List.length (argsort fs) = n) by apply (argsort_length Hs).
  unfold last_k. destruct k as [|k']; [lia|]. set (k := S k') in *.
  set (kept := skipn (List.length (argsort fs) - k) (argsort fs)).
  assert (Hklen : List.length kept = k)
    by (unfold kept; rewrite length_skipn; lia).
  assert (Hrange : forall i, In i kept -> (i < n)%nat).
  { intros i Hi. apply skipn_incl, (argsort_range Hs) in Hi. exact Hi. }
  assert (Htop : forall i j,
             In i kept -> (j < n)%nat -> ~ In j kept ->
             nth j fs 0 <= nth i fs 0).
  { intros i j Hi Hj Hnot.
    assert (Hin : In j (argsort fs)) by (apply (argsort_range Hs); exact Hj).
    rewrite <- (firstn_skipn (List.length (argsort fs) - k) (argsort fs))
      in Hin.
    apply in_app_or in Hin. destruct Hin as [Hin|Hin]; [|contradiction].
    pose proof (argsort_sorted _ Hs fs) as Hsorted.
    rewrite <- (firstn_skipn (List.length (argsort fs) - k) (argsort fs))
      in Hsorted.
    exact (sorted_app_le _ _ _ Hsorted j i Hin Hi). }
  intros i Hi.
  destruct (Qlt_bool threshold (nth i fs 0)) eqn:Ei.
  - apply where_above_complete.
    + specialize (Hrange i Hi). fold n. lia.
    + rewrite Nat.sub_0_r. now apply Qlt_bool_iff.
  - exfalso.
    assert (Hlow : nth i fs 0 <= threshold).
    { unfold Qlt_bool in Ei. apply negb_false_iff, Qle_bool_iff in Ei.
      exact Ei. }
    assert (Hnot : ~ In i flagged).
    { intros Hin. apply where_above_spec in Hin.
      rewrite Nat.sub_0_r in Hin. exact (Qlt_not_le _ _ Hin Hlow). }
    assert (Hsub : incl (i :: flagged) kept).
    { intros j [<-|Hj]; [exact Hi|].
      destruct (in_dec Nat.eq_dec j kept) as [Hin|Hout]; [exact Hin|].
      exfalso.
      pose proof (where_above_bounds threshold fs 0) as Hb.
      rewrite Forall_forall in Hb. specialize (Hb j Hj).
      apply where_above_spec in Hj. rewrite Nat.sub_0_r in Hj.
      assert (Hle : nth j fs 0 <= nth i fs 0)
        by (apply Htop; auto; fold n; lia).
      apply (Qlt_not_le _ _ Hj). eapply Qle_trans; eauto. }
    assert (Hnd : NoDup (i :: flagged))
      by (constructor; [exact Hnot|apply where_above_nodup]).
    pose proof (NoDup_incl_length Hnd Hsub) as Hcount.
    simpl in Hcount. lia.
Qed.

Lemma detect_flagged (df : table) (i : nat) :
  In i (detect_anomalies df) ->
  (i < List.length df)%nat
  /\ threshold < nth i (final_scores (anomaly_scores df) df) 0.
Proof.
  intros Hi.
  assert (Hv : (i < List.length df)%nat).
  { pose proof (detect_valid df) as H. rewrite Forall_forall in H. auto. }
  split; [exact Hv|].
  rewrite detect_cases in Hi.
  destruct (List.length df <? 10)%nat eqn:E10; [contradiction|].
  apply Nat.ltb_ge in E10.
  rewrite combine_cases in Hi by apply anomaly_scores_nonempty.
  destruct (List.length df <? _)%nat eqn:E.
  - apply Nat.ltb_lt in E. apply top_are_flagged in Hi.
    + apply where_above_spec in Hi. now rewrite Nat.sub_0_r in Hi.
    + assert (2 <= List.length df / 5)%nat
        by (apply Nat.div_le_lower_bound; lia). lia.
    + pose proof (Nat.Div0.mul_div_le (List.length df) 5). lia.
  - apply where_above_spec in Hi. now rewrite Nat.sub_0_r in Hi.
Qed.

Lemma final_score_nth (df : table) (i : nat) :
  (i < List.length df)%nat ->
  nth i (final_scores (anomaly_scores df) df) 0
  = average (effective_weights (List.length (anomaly_scores df)))
            (map (fun column => nth i column 0) (anomaly_scores df)).
Proof.
  intros Hi. unfold final_scores, column_stack. rewrite map_map.
  now rewrite nth_map_seq.
Qed.

End Reported.

Lemma in_two (x : Q) : In x [0; 1] -> x = 0 \/ x = 1.
Proof. simpl. intuition. Qed.

Lemma in_three (x : Q) : In x [0; 5 # 10; 1] -> x = 0 \/ x = 5 # 10 \/ x = 1.
Proof. simpl. intuition. Qed.

Lemma in_five (x : Q) :
  In x [0; 2 # 10; 3 # 10; 4 # 10; 7 # 10] ->
  x = 0 \/ x = 2 # 10 \/ x = 3 # 10 \/ x = 4 # 10 \/ x = 7 # 10.
Proof. simpl. intuition. Qed.

Lemma takes_nth (values : list Q) (scores : list Q) (i : nat) :
  In 0 values -> takes values scores -> In (nth i scores 0) values.
Proof.
  intros H0 H. unfold takes in H.
  destruct (Nat.lt_ge_cases i (List.length scores)) as [Hi|Hi].
  - rewrite Forall_forall in H. apply H, nth_In, Hi.
  - now rewrite nth_overflow.
Qed.

(** X21.  One method is not enough.  With a sort that orders the scores,
    a record that [detect_anomalies] reports is scored above 0 by two of
    the stacked methods at least, with one exception: when the temporal
    method is not stacked (ten timestamps or fewer), the text method alone,
    with its score of 1, carries a record over the threshold.  So no record
    is reported on its pattern score, its severity score, its statistical
    score or its temporal score alone. *)
Theorem X21_one_method_is_not_enough {models : Models} {sorting : Sorting}
  (Hs : argsort_spec sorting) (df : table) (i : nat) :
  In i (detect_anomalies df) ->
  (2 <= scoring df i)%nat
  \/ ((notna_count df <= 10)%nat
      /\ nth i (_detect_text_anomalies df) 0 = 1).
Proof.
  intros Hi. destruct (detect_flagged Hs df i Hi) as [Hv Hscore].
  rewrite (final_score_nth df i Hv) in Hscore.
  unfold scoring. revert Hscore. rewrite temporal_gate.
  assert (Ha : In (nth i (_detect_statistical_anomalies df) 0) [0; 1])
    by (apply takes_nth; [simpl; auto|apply statistical_scores]).
  assert (Hb : In (nth i (_detect_text_anomalies df) 0) [0; 1])
    by (apply takes_nth; [simpl; auto|apply text_scores]).
  assert (Hc : In (nth i (_detect_temporal_anomalies df) 0) [0; 1])
    by (apply takes_nth; [simpl; auto|apply temporal_scores]).
  assert (Hd : In (nth i (_detect_severity_anomalies df) 0) [0; 5 # 10; 1])
    by (apply takes_nth; [simpl; auto|apply severity_scores]).
  assert (He : In (nth i (_detect_pattern_anomalies df) 0)
                  [0; 2 # 10; 3 # 10; 4 # 10; 7 # 10])
    by (apply takes_nth; [simpl; auto|apply pattern_scores]).
  apply in_two in Ha, Hb, Hc. apply in_three in Hd. apply in_five in He.
  destruct (10 <? notna_count df)%nat eqn:E10; cbn [map List.length].
  - clear E10.
    destruct Ha as [-> | ->]; destruct Hb as [-> | ->];
      destruct Hc as [-> | ->]; destruct Hd as [-> | [-> | ->]];
      destruct He as [-> | [-> | [-> | [-> | ->]]]];
      intros Hscore;
      first [ left; apply Nat.leb_le; vm_compute; reflexivity
            | exfalso; vm_compute in Hscore; discriminate ].
  - apply Nat.ltb_ge in E10. clear Hc.
    destruct Ha as [-> | ->]; destruct Hb as [-> | ->];
      destruct Hd as [-> | [-> | ->]];
      destruct He as [-> | [-> | [-> | [-> | ->]]]];
      intros Hscore;
      first [ left; apply Nat.leb_le; vm_compute; reflexivity
            | right; split; [exact E10|reflexivity]
            | exfalso; vm_compute in Hscore; discriminate ].
Qed.

Lemma X21_one_method_is_not_enough_witness :
  In 9%nat (detect_anomalies (models := loud) (sorting := stable) ten_alarms)
  /\ ((2 <= scoring (models := loud) (sorting := stable) ten_alarms 9)%nat
      \/ ((notna_count ten_alarms <= 10)%nat
          /\ nth 9 (_detect_text_anomalies (models := loud) ten_alarms) 0 = 1)).
Proof.
  assert (H : In 9%nat (detect_anomalies (models := loud) (sorting := stable)
                          ten_alarms))
    by (vm_compute; auto).
  split; [exact H|].
  exact (X21_one_method_is_not_enough (models := loud) stable_argsort_spec
           ten_alarms 9 H).
Defined.

(** *** The levels of the parser and the bands of the detector *)

Lemma mapping_values_have_a_band (key sev : string) :
  lookup key severity_mapping = Some sev -> lookup sev expected_ranges <> None.
Proof.
  unfold severity_mapping. cbn [lookup].
  repeat match goal with
         | |- context [String.eqb ?a key] =>
             destruct (String.eqb a key);
             [intros H; injection H as <-; discriminate|]
         end.
  discriminate.
Qed.

Lemma bands_are_levels (sev : string) :
  lookup sev expected_ranges <> None -> lookup sev severity_mapping = Some sev.
Proof.
  unfold expected_ranges. cbn [lookup].
  repeat match goal with
         | |- context [String.eqb ?a sev] =>
             destruct (String.eqb_spec a sev) as [?|?];
             [subst sev; reflexivity|]
         end.
  intros H. now elim H.
Qed.

(** X22.  The levels of the parser are the bands of the detector.  Every
    level that [severity_mapping] produces has an expected range in the
    severity method, and every severity with an expected range is a level
    that the mapping leaves as it is.  So the normalized severity of a token
    has an expected range exactly when the token, in upper case, is one of
    the keys of the mapping: any other token is judged by its rarity
    alone. *)
Theorem X22_parser_levels_are_the_detector_bands :
  (forall key sev,
      lookup key severity_mapping = Some sev ->
      lookup sev expected_ranges <> None)
  /\ (forall sev,
         lookup sev expected_ranges <> None ->
         normalize_severity (Some sev) = Some sev)
  /\ (forall tok sev,
         tok <> "" -> normalize_severity (Some tok) = Some sev ->
         (lookup sev expected_ranges <> None
          <-> lookup (upper tok) severity_mapping <> None)).
Proof.
  split; [exact mapping_values_have_a_band|]. split.
  - intros sev H. pose proof (bands_are_levels sev H) as Hl.
    assert (Hu : upper sev = sev).
    { revert H. unfold expected_ranges. cbn [lookup].
      repeat match goal with
             | |- context [String.eqb ?a sev] =>
                 destruct (String.eqb_spec a sev) as [?|?];
                 [subst sev; reflexivity|]
             end.
      intros H. now elim H. }
    unfold normalize_severity, map_severity. cbn [option_map].
    rewrite Hu, Hl.
    destruct (sev =? "")%string eqn:E; [|reflexivity].
    apply String.eqb_eq in E. subst sev. discriminate.
  - intros tok sev Htok Hn. unfold normalize_severity, map_severity in Hn.
    cbn [option_map] in Hn.
    replace (upper tok =? "")%string with false in Hn
      by (symmetry; apply String.eqb_neq; now apply upper_nonempty).
    destruct (lookup (upper tok) severity_mapping) as [v|] eqn:E.
    + injection Hn as <-. split; [discriminate|]. intros _.
      eapply mapping_values_have_a_band; eauto.
    + injection Hn as <-. split; [|intros H; now elim H].
      intros H. apply bands_are_levels in H. congruence.
Qed.
End DetectorExtras.

(** * Properties of the reports *)

Module ReportExtras.
Import Text Re Parser Detector Reports Aux DetectorAux ExtraAux.
Import TextFacts ParserFacts ParserClaims DetectorFacts ParserExtras.
Import DetectorExtras.

Local Open Scope Q_scope.

(** *** Counting *)

Lemma lookup_bump (k k' : string) (d : list (string * nat)) :
  lookup k (bump k' d)
  = if (k' =? k)%string then Some (S (cnt k d)) else lookup k d.
Proof.
  unfold cnt. induction d as [|[k2 c] d IH]; simpl.
  - now destruct (k' =? k)%string.
  - destruct (k2 =? k')%string eqn:E2; simpl.
    + apply String.eqb_eq in E2. subst k2.
      now destruct (k' =? k)%string.
    + destruct (k2 =? k)%string eqn:E; [|exact IH].
      destruct (k' =? k)%string eqn:E'; [|reflexivity].
      apply String.eqb_eq in E, E'. subst. now rewrite String.eqb_refl in E2.
Qed.

Lemma total_bump (k : string) (d : list (string * nat)) :
  total (bump k d) = S (total d).
Proof.
  induction d as [|[k' c] d IH]; simpl; [reflexivity|].
  destruct (k' =? k)%string; simpl; [reflexivity|]. rewrite IH. lia.
Qed.

Lemma positive_bump (k : string) (d : list (string * nat)) :
  positive d -> positive (bump k d).
Proof.
  intros Hd k' c. rewrite lookup_bump.
  destruct (k =? k')%string; [intros H; injection H as <-; lia|apply Hd].
Qed.

Section Counts.
Variable cells : list (option string).

Let step (d : list (string * nat)) (cell : option string) :=
  match cell with
  | Some label => bump label d
  | None => d
  end.

Lemma counts_from (d : list (string * nat)) (xs : list (option string)) :
  positive d ->
  positive (fold_left step xs d)
  /\ total (fold_left step xs d)
     = (total d + List.length (filter (fun c => match c with
                                                | Some _ => true
                                                | None => false
                                                end) xs))%nat
  /\ forall k, cnt k (fold_left step xs d) = (cnt k d + occurrences k xs)%nat.
Proof.
  revert d. induction xs as [|[label|] xs IH]; intros d Hd; simpl.
  - unfold occurrences. simpl. repeat split; auto.
  - destruct (IH (bump label d) (positive_bump label d Hd)) as (Hp & Ht & Hc).
    split; [exact Hp|]. split.
    + rewrite Ht, total_bump. lia.
    + intros k. rewrite Hc. unfold occurrences. simpl.
      unfold cnt at 1. rewrite lookup_bump.
      destruct (label =? k)%string; simpl; [lia|reflexivity].
  - destruct (IH d Hd) as (Hp & Ht & Hc). unfold occurrences. simpl.
    repeat split; auto.
Qed.

End Counts.

(** [value_counts]: the count of a label is the number of cells that hold
    it, the labels listed are those that occur, and the counts add up to the
    number of cells that are not null. *)
Lemma value_counts_spec (cells : list (option string)) :
  (forall k, cnt k (value_counts cells) = occurrences k cells)
  /\ (forall k, lookup k (value_counts cells) = None <-> occurrences k cells = 0%nat)
  /\ total (value_counts cells)
     = List.length (filter (fun c => match c with
                                     | Some _ => true
                                     | None => false
                                     end) cells).
Proof.
  assert (H0 : positive []) by (intros k c; discriminate).
  destruct (counts_from [] cells H0) as (Hp & Ht & Hc).
  fold (value_counts cells) in Hp, Ht, Hc.
  assert (Hc' : forall k, cnt k (value_counts cells) = occurrences k cells)
    by (intros k; rewrite Hc; reflexivity).
  split; [exact Hc'|]. split; [|exact Ht].
  intros k. rewrite <- (Hc' k). unfold cnt.
  destruct (lookup k (value_counts cells)) as [c|] eqn:E.
  - specialize (Hp k c E). split; [discriminate|lia].
  - tauto.
Qed.

(** *** Percentages *)

Lemma percent_value (x n : nat) :
  percent x (S n) == (Z.of_nat x * 100 # Pos.of_succ_nat n).
Proof.
  unfold percent, of_nat, Qdiv, Qmult, Qinv, inject_Z, Qeq.
  rewrite Nat2Z.inj_succ, <- Zpos_P_of_succ_nat. simpl Qnum. simpl Qden.
  rewrite Pos.mul_1_r. lia.
Qed.

Lemma percent_bounds (x y : nat) :
  (x <= y)%nat -> (0 < y)%nat -> 0 <= percent x y /\ percent x y <= 100.
Proof.
  intros Hxy Hy. destruct y as [|n]; [lia|].
  rewrite percent_value. unfold Qle. cbn [Qnum Qden].
  rewrite Zpos_P_of_succ_nat. lia.
Qed.

Lemma percent_full (x y : nat) :
  (0 < y)%nat -> (percent x y == 100 <-> x = y).
Proof.
  intros Hy. destruct y as [|n]; [lia|].
  rewrite percent_value. unfold Qeq. cbn [Qnum Qden].
  rewrite Zpos_P_of_succ_nat. lia.
Qed.


(** *** The parsing statistics *)

Lemma filter_le {A : Type} (f : A -> bool) (l : list A) :
  (List.length (filter f l) <= List.length l)%nat.
Proof.
  induction l as [|x l IH]; simpl; [lia|]. destruct (f x); simpl; lia.
Qed.

Lemma filter_all {A : Type} (f : A -> bool) (l : list A) :
  List.length (filter f l) = List.length l <-> forallb f l = true.
Proof.
  induction l as [|x l IH]; simpl; [tauto|].
  pose proof (filter_le f l). destruct (f x); simpl.
  - rewrite <- IH. lia.
  - split; [lia|discriminate].
Qed.

Lemma filter_split {A : Type} (f : A -> bool) (l : list A) :
  (List.length (filter f l) + List.length (filter (fun x => negb (f x)) l)
   = List.length l)%nat.
Proof.
  induction l as [|x l IH]; simpl; [reflexivity|].
  destruct (f x); simpl; lia.
Qed.

Lemma stats_of_rows (r : LogRecord) (df : list LogRecord) :
  get_parsing_stats (r :: df)
  = {| total_lines := List.length (r :: df);
       parsed_lines := List.length (filter not_fallback (r :: df));
       success_rate :=
         percent (List.length (filter not_fallback (r :: df)))
                 (List.length (r :: df));
       details :=
         Some {| patterns_used :=
                   value_counts (map (fun r => Some (pattern_used r)) (r :: df));
                 severities_found := value_counts (map severity (r :: df));
                 sources_found :=
                   List.length
                     (value_counts (map (fun r => Some (source r)) (r :: df)));
                 timestamp_coverage :=
                   percent (List.length (filter has_timestamp (r :: df)))
                           (List.length (r :: df));
                 average_message_length :=
                   mean (map message_length (r :: df)) |} |}.
Proof. reflexivity. Qed.

Lemma stats_lines (df : list LogRecord) :
  total_lines (get_parsing_stats df) = List.length df
  /\ parsed_lines (get_parsing_stats df)
     = List.length (filter not_fallback df).
Proof. destruct df; split; reflexivity. Qed.

Lemma success_rate_full (df : list LogRecord) :
  success_rate (get_parsing_stats df) == 100
  <-> df <> [] /\ forallb not_fallback df = true.
Proof.
  destruct df as [|r df].
  - simpl. split; [discriminate|]. intros [H _]. now elim H.
  - rewrite stats_of_rows. cbn [success_rate]. set (rows := r :: df).
    assert (Hpos : (0 < List.length rows)%nat) by (simpl; lia).
    rewrite percent_full by exact Hpos. rewrite filter_all.
    split; [split; [discriminate|assumption]|tauto].
Qed.

(** X11.  The head of the parsing statistics.  [total_lines] is the number of
    records and [parsed_lines], the number of records that a pattern other
    than the fallback produced, never exceeds it; the success rate is a
    percentage, between 0 and 100, and it is 100 exactly on a table that is
    not empty and has no fallback record; the five further keys are missing
    exactly on the empty table. *)
Theorem X11_parsing_stats_bounds (df : list LogRecord) :
  total_lines (get_parsing_stats df) = List.length df
  /\ (parsed_lines (get_parsing_stats df) <= total_lines (get_parsing_stats df))%nat
  /\ 0 <= success_rate (get_parsing_stats df)
  /\ success_rate (get_parsing_stats df) <= 100
  /\ (success_rate (get_parsing_stats df) == 100
      <-> df <> [] /\ forallb not_fallback df = true)
  /\ (details (get_parsing_stats df) = None <-> df = []).
Proof.
  destruct (stats_lines df) as [Ht Hp].
  split; [exact Ht|]. split; [rewrite Ht, Hp; apply filter_le|].
  split; [|split; [|split; [apply success_rate_full|]]].
  - destruct df as [|r df]; [discriminate|].
    rewrite stats_of_rows. cbn [success_rate].
    apply percent_bounds; [apply filter_le|simpl; lia].
  - destruct df as [|r df]; [discriminate|].
    rewrite stats_of_rows. cbn [success_rate].
    apply percent_bounds; [apply filter_le|simpl; lia].
  - destruct df as [|r df]; [simpl; tauto|].
    rewrite stats_of_rows. cbn [details]. split; discriminate.
Qed.


Lemma bump_in (k k' : string) (d : list (string * nat)) :
  In k' (map fst (bump k d)) <-> k' = k \/ In k' (map fst d).
Proof.
  induction d as [|[k2 c] d IH]; simpl.
  - intuition.
  - destruct (String.eqb_spec k2 k) as [->|Hne]; simpl.
    + intuition.
    + rewrite IH. intuition.
Qed.

Lemma bump_nodup (k : string) (d : list (string * nat)) :
  NoDup (map fst d) -> NoDup (map fst (bump k d)).
Proof.
  induction d as [|[k2 c] d IH]; simpl; intros H.
  - repeat constructor. simpl. tauto.
  - inversion H as [|x l Hx Hl]; subst.
    destruct (String.eqb_spec k2 k) as [->|Hne]; simpl.
    + now constructor.
    + constructor; [|auto]. rewrite bump_in. intros [E|E]; auto.
Qed.

(** The labels of [value_counts]: each label that occurs, once. *)
Lemma value_counts_keys (cells : list (option string)) :
  NoDup (map fst (value_counts cells))
  /\ forall k, In k (map fst (value_counts cells)) <-> In (Some k) cells.
Proof.
  unfold value_counts.
  assert (H : forall xs d,
             NoDup (map fst d) ->
             NoDup (map fst (fold_left
                               (fun d cell => match cell with
                                              | Some label => bump label d
                                              | None => d
                                              end) xs d))
             /\ forall k,
                 In k (map fst (fold_left
                                  (fun d cell => match cell with
                                                 | Some label => bump label d
                                                 | None => d
                                                 end) xs d))
                 <-> In k (map fst d) \/ In (Some k) xs).
  { induction xs as [|[label|] xs IH]; intros d Hd; simpl.
    - split; [exact Hd|]. intros k. tauto.
    - destruct (IH (bump label d) (bump_nodup label d Hd)) as [Hn Hk].
      split; [exact Hn|]. intros k. rewrite Hk, bump_in.
      split.
      + intros [[->|H]|H]; auto.
      + intros [H|[H|H]]; auto. injection H as ->. auto.
    - destruct (IH d Hd) as [Hn Hk].
      split; [exact Hn|]. intros k. rewrite Hk.
      split.
      + intros [H|H]; auto.
      + intros [H|[H|H]]; auto. discriminate. }
  destruct (H cells [] (NoDup_nil _)) as [Hn Hk].
  split; [exact Hn|]. intros k. rewrite Hk. simpl. tauto.
Qed.

Lemma occurrences_map {A : Type} (f : A -> string) (k : string) (l : list A) :
  occurrences k (map (fun x => Some (f x)) l)
  = List.length (filter (fun x => (f x =? k)%string) l).
Proof.
  unfold occurrences. induction l as [|x l IH]; simpl; [reflexivity|].
  destruct (f x =? k)%string; simpl; now rewrite IH.
Qed.

Lemma occurrences_severity (k : string) (df : table) :
  occurrences k (map severity df) = count_severity k df.
Proof.
  unfold occurrences, count_severity, has_severity.
  induction df as [|r df IH]; simpl; [reflexivity|].
  destruct (severity r) as [s|]; [|exact IH].
  destruct (s =? k)%string; simpl; now rewrite IH.
Qed.

Lemma filter_some_map {A B : Type} (f : A -> B) (l : list A) :
  List.length (filter (fun c : option B => match c with
                                           | Some _ => true
                                           | None => false
                                           end)
                      (map (fun x => Some (f x)) l))
  = List.length l.
Proof. induction l as [|x l IH]; simpl; [reflexivity|]. now rewrite IH. Qed.

Lemma mean_none (cells : list (option nat)) :
  mean cells = None <-> Forall (fun c => c = None) cells.
Proof.
  unfold mean. induction cells as [|[v|] cells IH]; simpl.
  - split; [constructor|reflexivity].
  - split; [discriminate|]. intros H. inversion H. discriminate.
  - rewrite IH. split; [now constructor|]. intros H. now inversion H.
Qed.

(** X12.  The five further keys of the parsing statistics, on a table that
    is not empty.  [patterns_used] holds, for every pattern name, the number
    of records the pattern produced, its names are those that occur, each
    once, and its counts add up to the number of records; the count it holds
    for the fallback and [parsed_lines] add up to [total_lines];
    [severities_found] holds the number of records of each severity;
    [sources_found] is the number of distinct sources, between 1 and the
    number of records; [timestamp_coverage] is a percentage, 100 exactly
    when every record has a timestamp; and the average message length is
    missing exactly when no record has a message. *)
Theorem X12_parsing_stats_counts (df : list LogRecord) :
  df <> [] ->
  exists d,
    details (get_parsing_stats df) = Some d
    /\ (forall name,
           cnt name (patterns_used d)
           = List.length (filter (fun r => (pattern_used r =? name)%string) df))
    /\ (forall name,
           In name (map fst (patterns_used d))
           <-> exists r, In r df /\ pattern_used r = name)
    /\ NoDup (map fst (patterns_used d))
    /\ total (patterns_used d) = List.length df
    /\ (cnt "fallback" (patterns_used d) + parsed_lines (get_parsing_stats df)
        = total_lines (get_parsing_stats df))%nat
    /\ (forall sev, cnt sev (severities_found d) = count_severity sev df)
    /\ (exists sources,
           NoDup sources
           /\ (forall s, In s sources <-> exists r, In r df /\ source r = s)
           /\ sources_found d = List.length sources)
    /\ (1 <= sources_found d <= List.length df)%nat
    /\ 0 <= timestamp_coverage d
    /\ timestamp_coverage d <= 100
    /\ (timestamp_coverage d == 100 <-> forallb has_timestamp df = true)
    /\ (average_message_length d = None
        <-> Forall (fun r => message_length r = None) df).
Proof.
  intros Hne. destruct df as [|r0 df0]; [now elim Hne|]. clear Hne.
  rewrite stats_of_rows. set (df := r0 :: df0).
  assert (Hpos : (0 < List.length df)%nat) by (simpl; lia).
  eexists. split; [reflexivity|].
  cbn [patterns_used severities_found sources_found timestamp_coverage
       average_message_length parsed_lines total_lines].
  destruct (value_counts_spec (map (fun r => Some (pattern_used r)) df))
    as (Hc & _ & Ht).
  destruct (value_counts_keys (map (fun r => Some (pattern_used r)) df))
    as (Hn & Hk).
  destruct (value_counts_spec (map (fun r => Some (source r)) df))
    as (Hsc & _ & Hst).
  destruct (value_counts_keys (map (fun r => Some (source r)) df))
    as (Hsn & Hsk).
  pose proof (filter_le has_timestamp df) as Hle.
  destruct (percent_bounds _ _ Hle Hpos) as [H0 H100].
  split; [|split; [|split; [|split; [|split; [|split; [|split; [|split;
    [|split; [|split; [|split]]]]]]]]]].
  - intros name. rewrite Hc. apply occurrences_map.
  - intros name. rewrite Hk, in_map_iff. split.
    + intros (r & E & Hr). injection E as E. eauto.
    + intros (r & Hr & E). exists r. split; [now rewrite E|exact Hr].
  - exact Hn.
  - rewrite Ht. apply filter_some_map.
  - rewrite Hc, occurrences_map. unfold not_fallback.
    apply (filter_split (fun r => (pattern_used r =? "fallback")%string)).
  - intros sev.
    destruct (value_counts_spec (map severity df)) as (Hv & _ & _).
    rewrite Hv. apply occurrences_severity.
  - exists (map fst (value_counts (map (fun r => Some (source r)) df))).
    split; [exact Hsn|]. split; [|now rewrite length_map].
    intros s. rewrite Hsk, in_map_iff. split.
    + intros (r & E & Hr). injection E as E. eauto.
    + intros (r & Hr & E). exists r. split; [now rewrite E|exact Hr].
  - split.
    + assert (Hin : In (source r0)
                       (map fst (value_counts
                                   (map (fun r => Some (source r)) df)))).
      { apply Hsk. simpl. auto. }
      rewrite <- (length_map fst). revert Hin. clear.
      generalize (map fst (value_counts (map (fun r => Some (source r)) df))).
      intros [|x l]; simpl; [tauto|lia].
    + rewrite <- (length_map fst), <- (length_map source df).
      apply NoDup_incl_length; [exact Hsn|].
      intros s Hs. apply Hsk, in_map_iff in Hs.
      destruct Hs as (r & E & Hr). injection E as <-. now apply in_map.
  - exact H0.
  - exact H100.
  - split; intros H.
    + apply percent_full in H; [|exact Hpos]. now apply filter_all.
    + apply percent_full; [exact Hpos|]. now apply filter_all.
  - rewrite mean_none, Forall_map. reflexivity.
Qed.

Lemma X12_parsing_stats_counts_witness :
  sample_table <> []
  /\ exists d,
       details (get_parsing_stats sample_table) = Some d
       /\ (forall name,
              cnt name (patterns_used d)
              = List.length (filter (fun r => (pattern_used r =? name)%string)
                                    sample_table))
       /\ (forall name,
              In name (map fst (patterns_used d))
              <-> exists r, In r sample_table /\ pattern_used r = name)
       /\ NoDup (map fst (patterns_used d))
       /\ total (patterns_used d) = List.length sample_table
       /\ (cnt "fallback" (patterns_used d)
           + parsed_lines (get_parsing_stats sample_table)
           = total_lines (get_parsing_stats sample_table))%nat
       /\ (forall sev,
              cnt sev (severities_found d) = count_severity sev sample_table)
       /\ (exists sources,
              NoDup sources
              /\ (forall s,
                     In s sources
                     <-> exists r, In r sample_table /\ source r = s)
              /\ sources_found d = List.length sources)
       /\ (1 <= sources_found d <= List.length sample_table)%nat
       /\ 0 <= timestamp_coverage d
       /\ timestamp_coverage d <= 100
       /\ (timestamp_coverage d == 100
           <-> forallb has_timestamp sample_table = true)
       /\ (average_message_length d = None
           <-> Forall (fun r => message_length r = None) sample_table).
Proof.
  split; [discriminate|].
  apply (X12_parsing_stats_counts sample_table). discriminate.
Defined.

(** *** The statistics of a parsed text *)

Lemma try_patterns_name (ps : list (string * regex)) (fb : string)
  (rfb : regex) (l : string) (n : nat) (entry : dict) :
  ~ In fb (map fst ps) ->
  try_patterns (ps ++ [(fb, rfb)]) l n = Some entry ->
  exists name,
    cell_text entry "pattern_used" = Some name
    /\ (name =? fb)%string = negb (existsb (matches l) ps).
Proof.
  induction ps as [|[n1 r1] ps IH]; simpl; intros Hfb H.
  - destruct (re_match true rfb l); [|discriminate]. injection H as <-.
    exists fb. unfold cell_text. rewrite build_entry_pattern_used.
    split; [reflexivity|apply String.eqb_refl].
  - unfold matches at 1. simpl. destruct (re_match true r1 l) eqn:E.
    + injection H as <-. exists n1. unfold cell_text.
      rewrite build_entry_pattern_used. split; [reflexivity|]. simpl.
      apply String.eqb_neq. intros ->. tauto.
    + simpl. apply IH; tauto.
Qed.

Lemma parse_single_line_name (line : string) (n : nat) :
  is_blank line = false ->
  exists entry name,
    _parse_single_line line n = Some entry /\ entry <> []
    /\ cell_text entry "pattern_used" = Some name
    /\ (name =? "fallback")%string = negb (structured line).
Proof.
  intros Hb.
  destruct (parse_single_line_some line n Hb) as (entry & He & Hne & _).
  exists entry. pose proof He as He'.
  unfold _parse_single_line in He. unfold is_blank in Hb. rewrite Hb in He.
  destruct (try_patterns patterns (strip line) n) as [e|] eqn:E.
  - injection He as <-.
    change patterns with (removelast patterns ++ [("fallback", fallback)]) in E.
    apply try_patterns_name in E.
    + destruct E as (name & Hn & Hs). exists name. auto.
    + simpl. intuition discriminate.
  - exfalso. exact (try_patterns_never_none _ _ E).
Qed.

Lemma parse_lines_structured (k : nat) (lines : list string) :
  map (fun e => match cell_text e "pattern_used" with
                | Some name => negb (name =? "fallback")%string
                | None => true
                end)
      (parse_lines (enumerate k lines))
  = map structured (filter (fun l => negb (is_blank l)) lines).
Proof.
  revert k. induction lines as [|l lines IH]; intros k; [reflexivity|].
  simpl. destruct (is_blank l) eqn:Hb; simpl; [apply IH|].
  destruct (parse_single_line_name l k Hb) as (e & name & He & Hne & Hn & Hs).
  rewrite He. destruct e as [|x e]; [congruence|].
  simpl map. rewrite Hn, Hs, negb_involutive. f_equal. apply IH.
Qed.

Lemma table_not_fallback {lib : DateLib} (log_content : string)
  (df : list LogRecord) :
  parse_logs log_content = Returned df ->
  map not_fallback df = map structured (counted_lines log_content).
Proof.
  intros H. apply parse_logs_rows in H. unfold counted_lines.
  rewrite <- (parse_lines_structured 1).
  fold (parsed_entries log_content).
  induction H as [|e r es rs [ts ->] _ IH]; [reflexivity|].
  simpl. rewrite IH. f_equal. unfold not_fallback. simpl.
  destruct (cell_text e "pattern_used"); reflexivity.
Qed.

Lemma filter_map_length {A : Type} (f : A -> bool) (l : list A) :
  List.length (filter f l) = List.length (filter (fun b => b) (map f l)).
Proof.
  induction l as [|x l IH]; simpl; [reflexivity|].
  destruct (f x); simpl; now rewrite IH.
Qed.

Lemma forallb_map_id {A : Type} (f : A -> bool) (l : list A) :
  forallb f l = forallb (fun b => b) (map f l).
Proof.
  induction l as [|x l IH]; simpl; [reflexivity|]. now rewrite IH.
Qed.

(** X13.  The statistics of the table [parse_logs] returns, read on the
    text.  [total_lines] is the number of lines of the text that are not
    blank; [parsed_lines] is the number of those lines that, once stripped,
    one of the six patterns before the fallback matches; and the success
    rate is 100 exactly when the text is not blank and every such line is
    matched by one of the six. *)
Theorem X13_stats_of_a_parsed_text {lib : DateLib} (log_content : string)
  (df : list LogRecord) :
  parse_logs log_content = Returned df ->
  total_lines (get_parsing_stats df) = List.length (counted_lines log_content)
  /\ total_lines (get_parsing_stats df) = count_nonblank (split_nl log_content)
  /\ parsed_lines (get_parsing_stats df)
     = List.length (filter structured (counted_lines log_content))
  /\ (success_rate (get_parsing_stats df) == 100
      <-> all_space log_content = false
          /\ forallb structured (counted_lines log_content) = true).
Proof.
  intros H. destruct (stats_lines df) as [Ht Hp].
  pose proof (table_not_fallback _ _ H) as Hnf.
  assert (Hlen : List.length df = List.length (counted_lines log_content)).
  { rewrite <- (length_map not_fallback), Hnf. apply length_map. }
  split; [now rewrite Ht|]. split; [|split].
  - rewrite Ht, Hlen. unfold counted_lines. apply count_strip.
  - now rewrite Hp, filter_map_length, Hnf, <- filter_map_length.
  - rewrite success_rate_full, forallb_map_id, Hnf, <- forallb_map_id.
    assert (He : df = [] <-> all_space log_content = true).
    { rewrite <- parsed_entries_empty. apply parse_logs_rows in H.
      split; intros E.
      - rewrite E in H. now inversion H.
      - rewrite E in H. now inversion H. }
    destruct (all_space log_content).
    + split; [|intros [? _]; discriminate].
      intros [Hne _]. elim Hne. now apply He.
    + split; intros [_ Hs]; (split; [|exact Hs]); [reflexivity|].
      intros E. apply He in E. discriminate.
Qed.

Lemma X13_stats_of_a_parsed_text_witness :
  parse_logs (lib := blind) sample_log = Returned sample_table
  /\ total_lines (get_parsing_stats sample_table)
     = List.length (counted_lines sample_log)
  /\ total_lines (get_parsing_stats sample_table)
     = count_nonblank (split_nl sample_log)
  /\ parsed_lines (get_parsing_stats sample_table)
     = List.length (filter structured (counted_lines sample_log))
  /\ (success_rate (get_parsing_stats sample_table) == 100
      <-> all_space sample_log = false
          /\ forallb structured (counted_lines sample_log) = true).
Proof.
  assert (H : parse_logs (lib := blind) sample_log = Returned sample_table)
    by (vm_compute; reflexivity).
  split; [exact H|].
  exact (X13_stats_of_a_parsed_text (lib := blind) sample_log sample_table H).
Defined.

(** *** The common words of the anomalous messages *)

Lemma count_words_fold (ws : list string) (d : list (string * nat)) :
  fold_left (fun d word => if (3 <? String.length word)%nat then bump word d
                           else d) ws d
  = fold_left (fun d cell => match cell with
                             | Some label => bump label d
                             | None => d
                             end)
              (map Some (filter (fun w => (3 <? String.length w)%nat) ws)) d.
Proof.
  revert d. induction ws as [|w ws IH]; intros d; simpl; [reflexivity|].
  destruct (3 <? String.length w)%nat; simpl; apply IH.
Qed.

Lemma count_words_counts (messages : list (option string))
  (d : list (string * nat)) :
  fold_left count_words messages d
  = fold_left (fun d cell => match cell with
                             | Some label => bump label d
                             | None => d
                             end)
              (map Some (filter (fun w => (3 <? String.length w)%nat)
                                (words_of messages))) d.
Proof.
  revert d. induction messages as [|msg messages IH]; intros d; simpl;
    [reflexivity|].
  rewrite IH. unfold count_words at 1.
  rewrite count_words_fold, filter_app, map_app, fold_left_app. reflexivity.
Qed.

Lemma occurrences_long (w : string) (ws : list string) :
  (3 < String.length w)%nat ->
  occurrences w (map Some (filter (fun w => (3 <? String.length w)%nat) ws))
  = occurrences w (map Some ws).
Proof.
  intros Hw. unfold occurrences.
  induction ws as [|x ws IH]; simpl; [reflexivity|].
  destruct (String.eqb_spec x w) as [->|Hne].
  - replace (3 <? String.length w)%nat with true
      by (symmetry; now apply Nat.ltb_lt).
    simpl. rewrite String.eqb_refl. simpl. now rewrite IH.
  - destruct (3 <? String.length x)%nat; simpl; [|exact IH].
    replace (x =? w)%string with false
      by (symmetry; now apply String.eqb_neq).
    exact IH.
Qed.

Lemma insert_desc_perm (x : string * nat) (l : list (string * nat)) :
  Permutation (insert_desc x l) (x :: l).
Proof.
  induction l as [|y l IH]; simpl; [reflexivity|].
  destruct (snd y <? snd x)%nat; [reflexivity|].
  rewrite IH. apply perm_swap.
Qed.

Lemma insert_desc_sorted (x : string * nat) (l : list (string * nat)) :
  StronglySorted (fun p q => (snd q <= snd p)%nat) l ->
  StronglySorted (fun p q => (snd q <= snd p)%nat) (insert_desc x l).
Proof.
  induction 1 as [|y l Hl IH Hy]; simpl.
  - repeat constructor.
  - destruct (snd y <? snd x)%nat eqn:E.
    + apply Nat.ltb_lt in E. constructor; [now constructor|].
      constructor; [lia|].
      eapply Forall_impl; [|exact Hy]. simpl. intros z Hz. lia.
    + apply Nat.ltb_ge in E. constructor; [exact IH|].
      apply Forall_forall. intros z Hz.
      apply (Permutation_in _ (insert_desc_perm x l)) in Hz.
      destruct Hz as [<-|Hz]; [exact E|].
      rewrite Forall_forall in Hy. now apply Hy.
Qed.

Lemma sorted_desc_spec (items : list (string * nat)) :
  Permutation (sorted_desc items) items
  /\ StronglySorted (fun p q => (snd q <= snd p)%nat) (sorted_desc items).
Proof.
  unfold sorted_desc.
  assert (H : forall acc,
             StronglySorted (fun p q => (snd q <= snd p)%nat) acc ->
             Permutation (fold_left (fun acc x => insert_desc x acc) items acc)
                         (items ++ acc)
             /\ StronglySorted (fun p q => (snd q <= snd p)%nat)
                  (fold_left (fun acc x => insert_desc x acc) items acc)).
  { induction items as [|x items IH]; intros acc Hacc; simpl.
    - split; [reflexivity|exact Hacc].
    - destruct (IH (insert_desc x acc) (insert_desc_sorted x acc Hacc))
        as [Hp Hs].
      split; [|exact Hs]. rewrite Hp, insert_desc_perm.
      symmetry. apply Permutation_middle. }
  destruct (H [] (SSorted_nil _)) as [Hp Hs].
  split; [|exact Hs]. now rewrite app_nil_r in Hp.
Qed.

Lemma lookup_in_nodup {A : Type} (k : string) (v : A)
  (d : list (string * A)) :
  NoDup (map fst d) -> In (k, v) d -> lookup k d = Some v.
Proof.
  induction d as [|[k' v'] d IH]; simpl; intros Hn Hin; [contradiction|].
  inversion Hn as [|x l Hx Hl]; subst.
  destruct Hin as [E|Hin].
  - injection E as -> ->. now rewrite String.eqb_refl.
  - destruct (String.eqb_spec k' k) as [->|Hne]; [|auto].
    elim Hx. apply in_map_iff. exists (k, v). auto.
Qed.

Lemma firstn_nodup {A : Type} (n : nat) (l : list A) :
  NoDup l -> NoDup (firstn n l).
Proof.
  intros H. rewrite <- (firstn_skipn n l) in H.
  eapply NoDup_app_remove_r; eauto.
Qed.

Lemma firstn_incl {A : Type} (n : nat) (l : list A) (x : A) :
  In x (firstn n l) -> In x l.
Proof.
  intros H. rewrite <- (firstn_skipn n l). apply in_or_app. auto.
Qed.

Lemma firstn_sorted {A : Type} (R : A -> A -> Prop) (n : nat) (l : list A) :
  StronglySorted R l -> StronglySorted R (firstn n l).
Proof.
  intros H. revert n. induction H as [|x l Hl IH Hx]; intros [|n]; simpl;
    try constructor; auto.
  apply Forall_forall. intros y Hy. rewrite Forall_forall in Hx.
  apply Hx. eapply firstn_incl; eauto.
Qed.

(** X14.  The common words of [_find_common_patterns].  At most [top_n]
    pairs are returned, of distinct words, by falling count.  Each word
    returned has more than three characters, and its count is the number of
    times it occurs, at least once, among the lower-cased words of the
    messages.  A word of more than three characters that occurs and is not
    returned was cut off: then [top_n] pairs are returned, and each has a
    count at least as large. *)
Theorem X14_common_words_are_top_counts (messages : list (option string))
  (top_n : nat) :
  (List.length (_find_common_patterns messages top_n) <= top_n)%nat
  /\ NoDup (map fst (_find_common_patterns messages top_n))
  /\ StronglySorted (fun p q => (snd q <= snd p)%nat)
       (_find_common_patterns messages top_n)
  /\ (forall w c,
         In (w, c) (_find_common_patterns messages top_n) ->
         (3 < String.length w)%nat /\ (1 <= c)%nat
         /\ c = count_word w messages)
  /\ (forall w,
         (3 < String.length w)%nat -> (1 <= count_word w messages)%nat ->
         ~ In w (map fst (_find_common_patterns messages top_n)) ->
         List.length (_find_common_patterns messages top_n) = top_n
         /\ forall p,
             In p (_find_common_patterns messages top_n) ->
             (count_word w messages <= snd p)%nat).
Proof.
  unfold _find_common_patterns. rewrite count_words_counts.
  set (cells := map Some (filter (fun w => (3 <? String.length w)%nat)
                                 (words_of messages))).
  fold (value_counts cells).
  destruct (value_counts_spec cells) as (Hc & Hnone & _).
  destruct (value_counts_keys cells) as (Hn & Hk).
  destruct (sorted_desc_spec (value_counts cells)) as (Hp & Hs).
  assert (Hlong : forall w, In (Some w) cells -> (3 < String.length w)%nat).
  { intros w Hw. unfold cells in Hw. apply in_map_iff in Hw.
    destruct Hw as (x & E & Hx). injection E as ->.
    apply filter_In in Hx. now apply Nat.ltb_lt. }
  assert (Hcount : forall w c,
             In (w, c) (sorted_desc (value_counts cells)) ->
             (3 < String.length w)%nat /\ (1 <= c)%nat
             /\ c = count_word w messages).
  { intros w c Hin. apply (Permutation_in _ Hp) in Hin.
    assert (Hw : (3 < String.length w)%nat).
    { apply Hlong, Hk, in_map_iff. exists (w, c). auto. }
    pose proof (lookup_in_nodup w c _ Hn Hin) as Hl.
    assert (E : c = occurrences w cells).
    { rewrite <- Hc. unfold cnt. now rewrite Hl. }
    split; [exact Hw|]. split.
    - destruct (occurrences w cells) as [|o] eqn:Eo; [|lia].
      apply Hnone in Eo. congruence.
    - rewrite E. unfold cells, count_word. now apply occurrences_long. }
  split; [apply firstn_le_length|]. split; [|split; [|split]].
  - rewrite <- firstn_map. apply firstn_nodup.
    apply (Permutation_NoDup (Permutation_sym (Permutation_map fst Hp))).
    exact Hn.
  - now apply firstn_sorted.
  - intros w c Hin. apply Hcount. eapply firstn_incl; eauto.
  - intros w Hw Hocc Hnot.
    assert (Hin : In w (map fst (sorted_desc (value_counts cells)))).
    { apply (Permutation_in _ (Permutation_sym (Permutation_map fst Hp))).
      apply Hk. unfold cells. apply in_map. apply filter_In.
      split; [|now apply Nat.ltb_lt].
      unfold count_word, occurrences in Hocc.
      destruct (filter _ (map Some (words_of messages))) as [|x l] eqn:E;
        [simpl in Hocc; lia|].
      assert (Hx : In x (x :: l)) by (simpl; auto).
      rewrite <- E in Hx. apply filter_In in Hx. destruct Hx as [Hx Ex].
      destruct x as [x|]; [|discriminate].
      apply String.eqb_eq in Ex. subst x.
      apply in_map_iff in Hx. destruct Hx as (y & Ey & Hy).
      now injection Ey as ->. }
    apply in_map_iff in Hin. destruct Hin as ([w' c] & E & Hin).
    simpl in E. subst w'.
    destruct (Hcount w c Hin) as (_ & _ & Ec).
    rewrite <- (firstn_skipn top_n) in Hin, Hs.
    apply in_app_or in Hin. destruct Hin as [Hin|Hin].
    { elim Hnot. apply in_map_iff. exists (w, c). auto. }
    split.
    + destruct (Nat.le_gt_cases (List.length (sorted_desc (value_counts cells)))
                                top_n) as [Hle|Hgt].
      * rewrite skipn_all2 in Hin by exact Hle. contradiction.
      * apply firstn_length_le. lia.
    + intros p Hpin. rewrite <- Ec.
      exact (sorted_app_le _ _ _ Hs p (w, c) Hpin Hin).
Qed.

(** *** The span of the anomalies *)

Lemma with_time_in (i : nat) (df : table) (t : instant) :
  In t (map snd (with_time i df))
  <-> exists r, In r df /\ timestamp r = Some t.
Proof.
  revert i. induction df as [|r df IH]; intros i; simpl.
  - split; [contradiction|]. intros (r & [] & _).
  - destruct (timestamp r) as [t'|] eqn:E; simpl; rewrite IH.
    + split.
      * intros [->|(r' & Hr & Ht)]; [exists r; auto|exists r'; auto].
      * intros (r' & [<-|Hr] & Ht); [left; congruence|right; eauto].
    + split.
      * intros (r' & Hr & Ht). exists r'. auto.
      * intros (r' & [<-|Hr] & Ht); [congruence|eauto].
Qed.

Lemma with_time_empty (i : nat) (df : table) :
  with_time i df = [] <-> Forall (fun r => timestamp r = None) df.
Proof.
  revert i. induction df as [|r df IH]; intros i; simpl.
  - split; [constructor|reflexivity].
  - destruct (timestamp r) as [t|] eqn:E.
    + split; [discriminate|]. intros H. inversion H. congruence.
    + rewrite IH. split; [now constructor|]. intros H. now inversion H.
Qed.

Lemma earliest_spec (ts : list instant) (t : instant) :
  In (earliest t ts) (t :: ts)
  /\ forall x, In x (t :: ts) -> earliest t ts <= x.
Proof.
  revert t. induction ts as [|b ts IH]; intros t.
  - simpl. split; [auto|]. intros x [<-|[]]. apply Qle_refl.
  - change (earliest t (b :: ts)) with (earliest (if Qlt_bool b t then b else t) ts).
    specialize (IH (if Qlt_bool b t then b else t)).
    remember (earliest (if Qlt_bool b t then b else t) ts) as res eqn:Er. clear Er.
    destruct IH as [Hin Hle].
    split.
    + destruct Hin as [E|Hin]; [|simpl; auto].
      rewrite <- E. destruct (Qlt_bool b t); simpl; auto.
    + intros x Hx.
      assert (Hb : (if Qlt_bool b t then b else t) <= b
                   /\ (if Qlt_bool b t then b else t) <= t).
      { destruct (Qlt_bool b t) eqn:E.
        - apply Qlt_bool_iff in E. split; [apply Qle_refl|].
          now apply Qlt_le_weak.
        - unfold Qlt_bool in E. apply negb_false_iff, Qle_bool_iff in E.
          split; [exact E|apply Qle_refl]. }
      destruct Hx as [<-|[<-|Hx]].
      * eapply Qle_trans; [apply Hle; simpl; auto|tauto].
      * eapply Qle_trans; [apply Hle; simpl; auto|tauto].
      * apply Hle. simpl. auto.
Qed.

Lemma latest_spec (ts : list instant) (t : instant) :
  In (latest t ts) (t :: ts)
  /\ forall x, In x (t :: ts) -> x <= latest t ts.
Proof.
  revert t. induction ts as [|b ts IH]; intros t.
  - simpl. split; [auto|]. intros x [<-|[]]. apply Qle_refl.
  - change (latest t (b :: ts)) with (latest (if Qlt_bool t b then b else t) ts).
    specialize (IH (if Qlt_bool t b then b else t)).
    remember (latest (if Qlt_bool t b then b else t) ts) as res eqn:Er. clear Er.
    destruct IH as [Hin Hle].
    split.
    + destruct Hin as [E|Hin]; [|simpl; auto].
      rewrite <- E. destruct (Qlt_bool t b); simpl; auto.
    + intros x Hx.
      assert (Hb : b <= (if Qlt_bool t b then b else t)
                   /\ t <= (if Qlt_bool t b then b else t)).
      { destruct (Qlt_bool t b) eqn:E.
        - apply Qlt_bool_iff in E. split; [apply Qle_refl|].
          now apply Qlt_le_weak.
        - unfold Qlt_bool in E. apply negb_false_iff, Qle_bool_iff in E.
          split; [exact E|apply Qle_refl]. }
      destruct Hx as [<-|[<-|Hx]].
      * eapply Qle_trans; [|apply Hle; simpl; auto]. tauto.
      * eapply Qle_trans; [|apply Hle; simpl; auto]. tauto.
      * apply Hle. simpl. auto.
Qed.

(** X15.  The time distribution of the anomalies, for timestamps on one
    time line.  The dictionary is empty
    exactly when no row has a timestamp.  Otherwise its two texts are those
    of the timestamps of two rows, the first at or before the timestamp of
    every row and the second at or after it, and the span is their distance
    in hours, never negative. *)
Theorem X15_time_distribution_spans_the_rows {clock : Clock}
  (anomaly_df : table) :
  (_analyze_temporal_distribution anomaly_df = None
   <-> Forall (fun r => timestamp r = None) anomaly_df)
  /\ (forall d,
         _analyze_temporal_distribution anomaly_df = Some d ->
         exists lo hi,
           (exists r, In r anomaly_df /\ timestamp r = Some lo)
           /\ (exists r, In r anomaly_df /\ timestamp r = Some hi)
           /\ (forall r t,
                  In r anomaly_df -> timestamp r = Some t ->
                  lo <= t /\ t <= hi)
           /\ earliest_anomaly d = isoformat lo
           /\ latest_anomaly d = isoformat hi
           /\ anomaly_span_hours d = (hi - lo) / 3600
           /\ 0 <= anomaly_span_hours d).
Proof.
  unfold _analyze_temporal_distribution.
  pose proof (with_time_in 0 anomaly_df) as Hin.
  pose proof (with_time_empty 0 anomaly_df) as Hempty.
  destruct (map snd (with_time 0 anomaly_df)) as [|t ts] eqn:E.
  - split; [|discriminate]. split; [|reflexivity].
    intros _. apply Hempty. now apply map_eq_nil in E.
  - split.
    + split; [discriminate|]. intros H. apply Hempty in H.
      rewrite H in E. discriminate.
    + intros d Hd. injection Hd as <-.
      destruct (earliest_spec ts t) as [Hlo Hlo'].
      destruct (latest_spec ts t) as [Hhi Hhi'].
      exists (earliest t ts), (latest t ts).
      split; [now apply Hin|]. split; [now apply Hin|].
      split; [|split; [reflexivity|split; [reflexivity|split; [reflexivity|]]]].
      * intros r x Hr Hx.
        assert (Hx' : In x (t :: ts)) by (apply Hin; eauto).
        split; [now apply Hlo'|now apply Hhi'].
      * cbn [anomaly_span_hours].
        assert (H : earliest t ts <= latest t ts)
          by (eapply Qle_trans; [apply Hlo'|apply Hhi']; simpl; auto).
        apply Qle_shift_div_l; [reflexivity|].
        rewrite Qmult_0_l. unfold Qminus. rewrite <- Qle_minus_iff. exact H.
Qed.

(** *** The summary *)

Lemma iloc_rows (df : table) (indices : list nat) :
  Forall (fun i => (i < List.length df)%nat) indices ->
  exists rows,
    iloc df indices = Some rows
    /\ map Some rows = map (nth_error df) indices.
Proof.
  induction 1 as [|i indices Hi _ IH]; simpl.
  - exists []. auto.
  - destruct IH as (rows & -> & Hrows).
    destruct (nth_error df i) as [r|] eqn:E;
      [|apply nth_error_None in E; lia].
    exists (r :: rows). simpl. now rewrite Hrows.
Qed.

Lemma iloc_raises (df : table) (indices : list nat) :
  iloc df indices = None
  <-> Exists (fun i => (List.length df <= i)%nat) indices.
Proof.
  induction indices as [|i indices IH]; simpl.
  - split; [discriminate|]. intros H. inversion H.
  - destruct (nth_error df i) as [r|] eqn:E.
    + assert (Hi : (i < List.length df)%nat)
        by (apply nth_error_Some; congruence).
      destruct (iloc df indices) as [rows|].
      * split; [discriminate|]. intros H.
        inversion H as [? ? H'|? ? H']; subst; [lia|].
        apply IH in H'. discriminate.
      * split; [|reflexivity]. intros _. apply Exists_cons_tl. now apply IH.
    + apply nth_error_None in E. split; [|reflexivity].
      intros _. now apply Exists_cons_hd.
Qed.

Lemma occurrences_rows (sev : string) (df rows : table) (indices : list nat) :
  map Some rows = map (nth_error df) indices ->
  occurrences sev (map severity rows)
  = List.length (filter (fun i => match nth_error df i with
                                  | Some r => has_severity sev r
                                  | None => false
                                  end) indices).
Proof.
  rewrite occurrences_severity. unfold count_severity.
  revert indices. induction rows as [|r rows IH]; intros [|i indices] H;
    simpl in *; try discriminate; [reflexivity|].
  injection H as Hr Hrows. rewrite <- Hr.
  destruct (has_severity sev r); simpl; now rewrite (IH indices Hrows).
Qed.

Section Summaries.
Context {models : Models} {sorting : Sorting} {clock : Clock}.

Lemma summary_of_rows (df : table) (indices : list nat) (s : AnomalySummary) :
  indices <> [] -> df <> [] ->
  get_anomaly_summary df indices = Some s ->
  exists rows,
    iloc df indices = Some rows
    /\ s = {| total_anomalies := List.length indices;
              anomaly_rate := percent (List.length indices) (List.length df);
              severity_distribution := value_counts (map severity rows);
              common_patterns := _find_common_patterns (map message rows) 5;
              time_distribution := _analyze_temporal_distribution rows |}.
Proof.
  intros Hi Hd. unfold get_anomaly_summary.
  destruct indices as [|i indices]; [now elim Hi|].
  destruct df as [|r df]; [now elim Hd|].
  destruct (iloc (r :: df) (i :: indices)) as [rows|]; [|discriminate].
  intros H. injection H as <-. exists rows. auto.
Qed.

End Summaries.

(** X19.  The summary and the offsets it is given.  [get_anomaly_summary]
    raises exactly when there are offsets, the table has rows, and one of
    the offsets is at or beyond the number of rows.  When it returns on
    offsets and a table that are not empty, [total_anomalies] is the number
    of offsets, repeated ones counted each time, and the severity
    distribution holds, for every severity, the number of offsets whose row
    has it. *)
Theorem X19_summary_raises_on_a_bad_offset {clock : Clock} (df : table)
  (anomaly_indices : list nat) :
  (get_anomaly_summary df anomaly_indices = None
   <-> anomaly_indices <> [] /\ df <> []
       /\ Exists (fun i => (List.length df <= i)%nat) anomaly_indices)
  /\ (forall s,
         get_anomaly_summary df anomaly_indices = Some s ->
         anomaly_indices <> [] -> df <> [] ->
         total_anomalies s = List.length anomaly_indices
         /\ (forall sev,
                cnt sev (severity_distribution s)
                = List.length
                    (filter (fun i => match nth_error df i with
                                      | Some r => has_severity sev r
                                      | None => false
                                      end) anomaly_indices))
         /\ (List.length (common_patterns s) <= 5)%nat).
Proof.
  split.
  - unfold get_anomaly_summary.
    destruct anomaly_indices as [|i indices];
      [split; [discriminate|intros [H _]; now elim H]|].
    destruct df as [|r df];
      [split; [discriminate|intros (_ & H & _); now elim H]|].
    rewrite <- iloc_raises.
    destruct (iloc (r :: df) (i :: indices)) as [rows|].
    + split; [discriminate|]. intros (_ & _ & H). discriminate.
    + split; [|reflexivity]. intros _. repeat split; discriminate.
  - intros s Hsum Hi Hd.
    destruct (summary_of_rows df anomaly_indices s Hi Hd Hsum)
      as (rows & Hrows & ->).
    cbn [total_anomalies severity_distribution common_patterns].
    split; [reflexivity|]. split.
    + intros sev.
      destruct (value_counts_spec (map severity rows)) as (Hc & _ & _).
      rewrite Hc. apply occurrences_rows.
      assert (Hv : Forall (fun i => (i < List.length df)%nat) anomaly_indices).
      { apply Forall_forall. intros i Hin.
        destruct (Nat.lt_ge_cases i (List.length df)) as [H|H]; [exact H|].
        assert (E : iloc df anomaly_indices = None).
        { apply iloc_raises, Exists_exists. eauto. }
        congruence. }
      destruct (iloc_rows df anomaly_indices Hv) as (rows' & E & Hmap).
      congruence.
    + unfold _find_common_patterns. apply firstn_le_length.
Qed.

(** X20.  The summary of what the detector reports, with a sort that orders
    the scores.  [get_anomaly_summary] never raises on the indices that
    [detect_anomalies] returns for the same table; its [total_anomalies] is
    their number, at most a fifth of the records, and its anomaly rate lies
    between 0 and 20 per cent. *)
Theorem X20_summary_of_the_detected_anomalies {models : Models}
  {sorting : Sorting} {clock : Clock} (Hs : argsort_spec sorting)
  (df : table) :
  exists s,
    get_anomaly_summary df (detect_anomalies df) = Some s
    /\ total_anomalies s = List.length (detect_anomalies df)
    /\ (total_anomalies s <= List.length df / 5)%nat
    /\ 0 <= anomaly_rate s /\ anomaly_rate s <= 20.
Proof.
  pose proof (detect_valid Hs df) as Hv.
  pose proof (detect_length Hs df) as Hl.
  destruct (iloc_rows df _ Hv) as (rows & Hrows & _).
  unfold get_anomaly_summary. rewrite Hrows.
  destruct (detect_anomalies df) as [|i indices] eqn:E.
  - simpl in Hl. eexists. split; [reflexivity|]. simpl.
    split; [reflexivity|]. split; [lia|]. split; discriminate.
  - destruct df as [|r df]; [inversion Hv; simpl in *; lia|].
    eexists. split; [reflexivity|].
    cbn [total_anomalies anomaly_rate].
    split; [reflexivity|]. split; [exact Hl|].
    set (x := List.length (i :: indices)) in *.
    set (y := List.length (r :: df)) in *.
    assert (Hy : (0 < y)%nat) by (unfold y; simpl; lia).
    assert (H5 : (5 * x <= y)%nat).
    { pose proof (Nat.Div0.mul_div_le y 5). lia. }
    clearbody x y. destruct y as [|n]; [lia|].
    rewrite percent_value. unfold Qle. cbn [Qnum Qden].
    rewrite Zpos_P_of_succ_nat. split; lia.
Qed.

Lemma X20_summary_of_the_detected_anomalies_witness :
  exists s,
    get_anomaly_summary (clock := seconds_clock) hundred_alarms
      (detect_anomalies (models := loud) (sorting := stable) hundred_alarms)
    = Some s
    /\ total_anomalies s
       = List.length
           (detect_anomalies (models := loud) (sorting := stable)
              hundred_alarms)
    /\ (total_anomalies s <= List.length hundred_alarms / 5)%nat
    /\ 0 <= anomaly_rate s /\ anomaly_rate s <= 20.
Proof.
  exact (X20_summary_of_the_detected_anomalies (models := loud)
           (clock := seconds_clock) stable_argsort_spec hundred_alarms).
Defined.

(** *** From the text to the anomalies *)

Lemma sorted_nth_lower (l : list nat) :
  StronglySorted lt l ->
  forall k, Forall (fun n => (k <= n)%nat) l ->
  forall i n, nth_error l i = Some n -> (k + i <= n)%nat.
Proof.
  induction 1 as [|x l Hl IH Hx]; intros k Hk [|i] n Hn; simpl in Hn;
    try discriminate.
  - injection Hn as <-. inversion Hk; subst. lia.
  - inversion Hk as [|? ? Hkx Hkl]; subst.
    assert (Hk' : Forall (fun n => (S k <= n)%nat) l).
    { eapply Forall_impl; [|exact Hx]. simpl. intros m Hm. lia. }
    specialize (IH (S k) Hk' i n Hn). lia.
Qed.

(** X23.  From the text to the anomalies, with a sort that orders the
    scores.  On the table that [parse_logs] returns for a text, the detector
    reports nothing when the text has fewer than ten lines that are not
    blank, and never more than a fifth of those lines.  What it reports are
    offsets into the table, not line numbers: the record at a reported
    offset [i] exists, and its line number is [i + 1] or more. *)
Theorem X23_offsets_are_not_line_numbers {lib : DateLib} {models : Models}
  {sorting : Sorting} (Hs : argsort_spec sorting) (log_content : string)
  (df : list LogRecord) :
  parse_logs log_content = Returned df ->
  ((count_nonblank (split_nl log_content) < 10)%nat ->
   detect_anomalies df = [])
  /\ (List.length (detect_anomalies df)
      <= count_nonblank (split_nl log_content) / 5)%nat
  /\ (forall i,
         In i (detect_anomalies df) ->
         exists r, nth_error df i = Some r /\ (i + 1 <= line_number r)%nat).
Proof.
  intros H.
  assert (Hlen : List.length df = count_nonblank (split_nl log_content)).
  { rewrite <- parsed_entries_length. symmetry.
    eapply Forall2_length. apply parse_logs_rows. exact H. }
  rewrite <- Hlen. split; [|split].
  - intros Hsmall. rewrite detect_cases.
    now replace (List.length df <? 10)%nat with true
      by (symmetry; apply Nat.ltb_lt; exact Hsmall).
  - apply (detect_length Hs).
  - intros i Hi.
    pose proof (detect_valid Hs df) as Hv. rewrite Forall_forall in Hv.
    specialize (Hv i Hi).
    destruct (nth_error df i) as [r|] eqn:E;
      [|apply nth_error_None in E; lia].
    exists r. split; [reflexivity|].
    pose proof (table_numbers _ _ H) as Hnum.
    unfold parsed_entries in Hnum. rewrite parse_lines_numbers in Hnum.
    destruct (numbers_of_bounds 1 (split_nl (strip log_content))) as [Hsort Hb].
    rewrite <- Hnum in Hsort, Hb.
    assert (Hb' : Forall (fun n => (1 <= n)%nat) (map line_number df)).
    { eapply Forall_impl; [|exact Hb]. simpl. intros n Hn. lia. }
    pose proof (sorted_nth_lower _ Hsort 1 Hb' i (line_number r)) as Hlow.
    rewrite nth_error_map, E in Hlow. specialize (Hlow eq_refl). lia.
Qed.

Lemma X23_offsets_are_not_line_numbers_witness :
  parse_logs (lib := blind) sample_log = Returned sample_table
  /\ ((count_nonblank (split_nl sample_log) < 10)%nat ->
      detect_anomalies (models := quiet) (sorting := stable) sample_table = [])
  /\ (List.length
        (detect_anomalies (models := quiet) (sorting := stable) sample_table)
      <= count_nonblank (split_nl sample_log) / 5)%nat
  /\ (forall i,
         In i (detect_anomalies (models := quiet) (sorting := stable)
                 sample_table) ->
         exists r,
           nth_error sample_table i = Some r /\ (i + 1 <= line_number r)%nat).
Proof.
  assert (H : parse_logs (lib := blind) sample_log = Returned sample_table)
    by (vm_compute; reflexivity).
  split; [exact H|].
  exact (X23_offsets_are_not_line_numbers (lib := blind) (models := quiet)
           stable_argsort_spec sample_log sample_table H).
Defined.
End ReportExtras.
